(** * claude-monitor: the log-tailing and state-reconciliation engine

    A shallow embedding of [src/sessionManager.js] (the session store),
    [src/fileWatcher.js] (offset tracking, file discovery, reconciler) and
    the dispatch of [src/streamParser.js], followed by the properties of the
    specification that concern them.

    Modelling conventions.
    - JavaScript numbers that count tokens, bytes or milliseconds are [Z]:
      the values are integers, and a sum is the integer sum.  The source adds
      them as double-precision numbers, which is the same as long as the
      values are safe integers (below 2^53 in magnitude); a property that
      rests on exact sums says so.
    - [Date.now()] is an input: every method takes the clock reading [now];
      the calls made while one record is processed share one reading.
    - A [Map] keyed by strings is a [gmap string _]; session objects are
      mutated in place in the source, here they are written back under their
      key.  The insertion order of the [Map] is not represented.
    - JavaScript strings are [string]s, one code unit per [ascii]: the
      strings are those of code units below 256 (Latin-1).
    - [notifyChange] and [console.log] have no effect on the store and are
      left out. *)

From Stdlib Require Import ZArith Ascii String List Lia Bool.
From stdpp Require Import gmap strings list sorting.

Open Scope Z_scope.

(* ================================================================== *)
(** * JavaScript built-ins used by the sources *)
(* ================================================================== *)

Module JS.

(** Truthiness of a value that is a string, [null] or [undefined]. *)
Definition truthy (o : option string) : bool :=
  match o with
  | Some s => negb (s =? "")%string
  | None => false
  end.

(** Truthiness of a value that is a number, [null] or [undefined]. *)
Definition truthy_num (o : option Z) : bool :=
  match o with
  | Some n => negb (n =? 0)
  | None => false
  end.

(** [Number.MAX_SAFE_INTEGER]: up to it the non-negative integers are
    numbers, and a sum of them that does not exceed it is exact. *)
Definition MAX_SAFE_INTEGER : Z := 2 ^ 53 - 1.

(** [x || 0] for a numeric field. *)
Definition or_zero (o : option Z) : Z :=
  match o with
  | Some n => n
  | None => 0
  end.

(** [Array.prototype.slice(start, end)]; [end] omitted is [None].
    Negative indices count from the end of the array. *)
Definition slice_index (len i : Z) : Z :=
  if i <? 0 then Z.max (len + i) 0 else Z.min i len.

Definition slice {A} (start : Z) (fin : option Z) (l : list A) : list A :=
  let len := Z.of_nat (length l) in
  let k := slice_index len start in
  let e := match fin with Some e => slice_index len e | None => len end in
  take (Z.to_nat (e - k)) (drop (Z.to_nat k) l).

(** [str.substring(start)] for a non-negative [start]. *)
Fixpoint drop_chars (n : nat) (s : string) : string :=
  match n, s with
  | O, _ => s
  | S n', String _ s' => drop_chars n' s'
  | S _, EmptyString => EmptyString
  end.

Definition substring_from (start : Z) (s : string) : string :=
  drop_chars (Z.to_nat start) s.

(** [str.substring(0, n)]. *)
Fixpoint take_chars (n : nat) (s : string) : string :=
  match n, s with
  | O, _ => EmptyString
  | S n', String c s' => String c (take_chars n' s')
  | S _, EmptyString => EmptyString
  end.

(** [str.startsWith(p)], [str.endsWith(p)], [str.includes(p)]. *)
Fixpoint startsWith (p s : string) : bool :=
  match p, s with
  | EmptyString, _ => true
  | String a p', String b s' => Ascii.eqb a b && startsWith p' s'
  | String _ _, EmptyString => false
  end.

Fixpoint includes (p s : string) : bool :=
  startsWith p s ||
  match s with
  | EmptyString => false
  | String _ s' => includes p s'
  end.

Definition endsWith (p s : string) : bool :=
  (String.length p <=? String.length s)%nat &&
  (drop_chars (String.length s - String.length p) s =? p)%string.

(** [str.split(sep)] for a one-character separator. *)
Fixpoint split (sep : ascii) (s : string) : list string :=
  match s with
  | EmptyString => [EmptyString]
  | String c s' =>
      if Ascii.eqb c sep then EmptyString :: split sep s'
      else match split sep s' with
           | w :: ws => String c w :: ws
           | [] => [String c EmptyString]
           end
  end.

(** White space and line terminators removed by [trim]: of the code units
    below 256 these are U+0009 to U+000D, U+0020 and U+00A0. *)
Definition is_space (c : ascii) : bool :=
  let n := nat_of_ascii c in
  ((9 <=? n) && (n <=? 13))%nat || (n =? 32)%nat || (n =? 160)%nat.

(** Truthiness of [str.trim()]: some character is not white space. *)
Fixpoint trim_nonempty (s : string) : bool :=
  match s with
  | EmptyString => false
  | String c s' => negb (is_space c) || trim_nonempty s'
  end.

Definition lower_char (c : ascii) : ascii :=
  let n := nat_of_ascii c in
  if ((65 <=? n) && (n <=? 90))%nat then ascii_of_nat (n + 32) else c.

Fixpoint toLowerCase (s : string) : string :=
  match s with
  | EmptyString => EmptyString
  | String c s' => String (lower_char c) (toLowerCase s')
  end.

Definition newline : ascii := ascii_of_nat 10.

End JS.

(* ================================================================== *)
(** * Data model of the session store *)
(* ================================================================== *)

(** A value of the free-form [details] of a tool execution. *)
Inductive DetailValue :=
| DStr (s : string)
| DNum (n : Z)
| DUndefined.

Definition Details := list (string * DetailValue).

Definition detail_of (o : option string) : DetailValue :=
  match o with
  | Some s => DStr s
  | None => DUndefined
  end.

Module Tokens.
Record t := mk {
  input : Z;
  output : Z;
  cacheRead : Z;
  cacheCreation : Z;
  total : Z
}.
Definition zero : t := mk 0 0 0 0 0.
End Tokens.

(** [currentTool]: the object literal of [startTool].  The spread of
    [details] comes last in the source; no caller passes a detail named
    [name], [startTime] or [status], so the three fields stand apart. *)
Module Tool.
Record t := mk {
  name : string;
  startTime : Z;
  status : string;
  details : Details
}.
End Tool.

Module HistoryEntry.
Record t := mk {
  name : string;
  duration : Z;
  status : string;
  completedAt : Z;
  details : Details
}.
End HistoryEntry.

(** The time stamp of a stored message: the one of the record, or
    [new Date().toISOString()] of the clock reading. *)
Inductive MessageTime :=
| Stamp (s : string)
| IsoOf (now : Z).

Module Message.
Record t := mk {
  role : string;
  content : string;
  timestamp : MessageTime;
  id : Z
}.
End Message.

(** The value of [estimateCost]: an amount, kept exactly in units of 1e-8
    dollars (the source computes it in floating point), or [NaN]. *)
Inductive Cost :=
| Dollars (units : Z)
| NaN.

(** A session entity.  [prompt] and [todos] are absent until first written;
    a todo item is kept as its text. *)
Module Session.
Record t := mk {
  id : string;
  startTime : Z;
  lastActivity : Z;
  status : string;
  currentTool : option Tool.t;
  toolHistory : list HistoryEntry.t;
  model : option string;
  modelShort : option string;
  cwd : option string;
  version : option string;
  gitBranch : option string;
  tokens : Tokens.t;
  estimatedCost : Cost;
  messages : list Message.t;
  parentSessionId : option string;
  agentId : option string;
  subAgents : list string;
  isSubAgent : bool;
  prompt : option string;
  todos : option (list string)
}.

(** Field assignment, [session.f = v]. *)
Definition set_lastActivity (v : Z) (s : t) : t :=
  mk (id s) (startTime s) v (status s) (currentTool s) (toolHistory s)
    (model s) (modelShort s) (cwd s) (version s) (gitBranch s) (tokens s)
    (estimatedCost s) (messages s) (parentSessionId s) (agentId s)
    (subAgents s) (isSubAgent s) (prompt s) (todos s).
Definition set_status (v : string) (s : t) : t :=
  mk (id s) (startTime s) (lastActivity s) v (currentTool s)
    (toolHistory s) (model s) (modelShort s) (cwd s) (version s)
    (gitBranch s) (tokens s) (estimatedCost s) (messages s)
    (parentSessionId s) (agentId s) (subAgents s) (isSubAgent s)
    (prompt s) (todos s).
Definition set_currentTool (v : option Tool.t) (s : t) : t :=
  mk (id s) (startTime s) (lastActivity s) (status s) v (toolHistory s)
    (model s) (modelShort s) (cwd s) (version s) (gitBranch s) (tokens s)
    (estimatedCost s) (messages s) (parentSessionId s) (agentId s)
    (subAgents s) (isSubAgent s) (prompt s) (todos s).
Definition set_toolHistory (v : list HistoryEntry.t) (s : t) : t :=
  mk (id s) (startTime s) (lastActivity s) (status s) (currentTool s) v
    (model s) (modelShort s) (cwd s) (version s) (gitBranch s) (tokens s)
    (estimatedCost s) (messages s) (parentSessionId s) (agentId s)
    (subAgents s) (isSubAgent s) (prompt s) (todos s).
Definition set_model (v : option string) (s : t) : t :=
  mk (id s) (startTime s) (lastActivity s) (status s) (currentTool s)
    (toolHistory s) v (modelShort s) (cwd s) (version s) (gitBranch s)
    (tokens s) (estimatedCost s) (messages s) (parentSessionId s)
    (agentId s) (subAgents s) (isSubAgent s) (prompt s) (todos s).
Definition set_modelShort (v : option string) (s : t) : t :=
  mk (id s) (startTime s) (lastActivity s) (status s) (currentTool s)
    (toolHistory s) (model s) v (cwd s) (version s) (gitBranch s)
    (tokens s) (estimatedCost s) (messages s) (parentSessionId s)
    (agentId s) (subAgents s) (isSubAgent s) (prompt s) (todos s).
Definition set_cwd (v : option string) (s : t) : t :=
  mk (id s) (startTime s) (lastActivity s) (status s) (currentTool s)
    (toolHistory s) (model s) (modelShort s) v (version s) (gitBranch s)
    (tokens s) (estimatedCost s) (messages s) (parentSessionId s)
    (agentId s) (subAgents s) (isSubAgent s) (prompt s) (todos s).
Definition set_version (v : option string) (s : t) : t :=
  mk (id s) (startTime s) (lastActivity s) (status s) (currentTool s)
    (toolHistory s) (model s) (modelShort s) (cwd s) v (gitBranch s)
    (tokens s) (estimatedCost s) (messages s) (parentSessionId s)
    (agentId s) (subAgents s) (isSubAgent s) (prompt s) (todos s).
Definition set_gitBranch (v : option string) (s : t) : t :=
  mk (id s) (startTime s) (lastActivity s) (status s) (currentTool s)
    (toolHistory s) (model s) (modelShort s) (cwd s) (version s) v
    (tokens s) (estimatedCost s) (messages s) (parentSessionId s)
    (agentId s) (subAgents s) (isSubAgent s) (prompt s) (todos s).
Definition set_tokens (v : Tokens.t) (s : t) : t :=
  mk (id s) (startTime s) (lastActivity s) (status s) (currentTool s)
    (toolHistory s) (model s) (modelShort s) (cwd s) (version s)
    (gitBranch s) v (estimatedCost s) (messages s) (parentSessionId s)
    (agentId s) (subAgents s) (isSubAgent s) (prompt s) (todos s).
Definition set_estimatedCost (v : Cost) (s : t) : t :=
  mk (id s) (startTime s) (lastActivity s) (status s) (currentTool s)
    (toolHistory s) (model s) (modelShort s) (cwd s) (version s)
    (gitBranch s) (tokens s) v (messages s) (parentSessionId s)
    (agentId s) (subAgents s) (isSubAgent s) (prompt s) (todos s).
Definition set_messages (v : list Message.t) (s : t) : t :=
  mk (id s) (startTime s) (lastActivity s) (status s) (currentTool s)
    (toolHistory s) (model s) (modelShort s) (cwd s) (version s)
    (gitBranch s) (tokens s) (estimatedCost s) v (parentSessionId s)
    (agentId s) (subAgents s) (isSubAgent s) (prompt s) (todos s).
Definition set_parentSessionId (v : option string) (s : t) : t :=
  mk (id s) (startTime s) (lastActivity s) (status s) (currentTool s)
    (toolHistory s) (model s) (modelShort s) (cwd s) (version s)
    (gitBranch s) (tokens s) (estimatedCost s) (messages s) v (agentId s)
    (subAgents s) (isSubAgent s) (prompt s) (todos s).
Definition set_agentId (v : option string) (s : t) : t :=
  mk (id s) (startTime s) (lastActivity s) (status s) (currentTool s)
    (toolHistory s) (model s) (modelShort s) (cwd s) (version s)
    (gitBranch s) (tokens s) (estimatedCost s) (messages s)
    (parentSessionId s) v (subAgents s) (isSubAgent s) (prompt s)
    (todos s).
Definition set_subAgents (v : list string) (s : t) : t :=
  mk (id s) (startTime s) (lastActivity s) (status s) (currentTool s)
    (toolHistory s) (model s) (modelShort s) (cwd s) (version s)
    (gitBranch s) (tokens s) (estimatedCost s) (messages s)
    (parentSessionId s) (agentId s) v (isSubAgent s) (prompt s) (todos s).
Definition set_isSubAgent (v : bool) (s : t) : t :=
  mk (id s) (startTime s) (lastActivity s) (status s) (currentTool s)
    (toolHistory s) (model s) (modelShort s) (cwd s) (version s)
    (gitBranch s) (tokens s) (estimatedCost s) (messages s)
    (parentSessionId s) (agentId s) (subAgents s) v (prompt s) (todos s).
Definition set_prompt (v : option string) (s : t) : t :=
  mk (id s) (startTime s) (lastActivity s) (status s) (currentTool s)
    (toolHistory s) (model s) (modelShort s) (cwd s) (version s)
    (gitBranch s) (tokens s) (estimatedCost s) (messages s)
    (parentSessionId s) (agentId s) (subAgents s) (isSubAgent s) v
    (todos s).
Definition set_todos (v : option (list string)) (s : t) : t :=
  mk (id s) (startTime s) (lastActivity s) (status s) (currentTool s)
    (toolHistory s) (model s) (modelShort s) (cwd s) (version s)
    (gitBranch s) (tokens s) (estimatedCost s) (messages s)
    (parentSessionId s) (agentId s) (subAgents s) (isSubAgent s)
    (prompt s) v.
End Session.

(** [message.usage] of an assistant record. *)
Module Usage.
Record t := mk {
  input_tokens : option Z;
  output_tokens : option Z;
  cache_read_input_tokens : option Z;
  cache_creation_input_tokens : option Z
}.
End Usage.

(* ================================================================== *)
(** * Configuration ([sessionManager.js], lines 6-18) *)
(* ================================================================== *)

(** [parseInt(process.env.X) || d]: the default replaces an unset or
    unparsable variable, and also the value 0. *)
Definition env_int (env : option Z) (d : Z) : Z :=
  match env with
  | Some n => if n =? 0 then d else n
  | None => d
  end.

Record Config := mkConfig {
  SESSION_TIMEOUT_MS : Z;
  MAX_TOOL_HISTORY : Z;
  MAX_MESSAGES : Z;
  CLEANUP_INTERVAL_MS : Z;
  IDLE_THRESHOLD_MS : Z
}.

Definition config_of_env (timeout hist msgs cleanup idle : option Z) : Config :=
  mkConfig (env_int timeout 300000) (env_int hist 10) (env_int msgs 20)
           (env_int cleanup 60000) (env_int idle 30000).

Definition default_config : Config :=
  config_of_env None None None None None.

(** The properties that an object literal inherits from
    [Object.prototype]. *)
Definition inherited_property (name : string) : bool :=
  bool_decide
    (name ∈ ["constructor"; "hasOwnProperty"; "isPrototypeOf";
             "propertyIsEnumerable"; "toLocaleString"; "toString";
             "valueOf"; "__proto__"; "__defineGetter__";
             "__defineSetter__"; "__lookupGetter__"; "__lookupSetter__"]).

(** [MODEL_PRICING[modelShort] || MODEL_PRICING['default']]: the rates in
    dollars per million tokens, written in hundredths of a dollar, as
    (input, output).  A short name that is an inherited property finds that
    property, a function or an object without [input] and [output]: there
    are no rates then.  [null] is looked up as the key 'null'. *)
Definition MODEL_PRICING (modelShort : option string) : option (Z * Z) :=
  match modelShort with
  | Some "Opus 4.5" => Some (1500, 7500)
  | Some "Sonnet 4.5" => Some (300, 1500)
  | Some "Haiku 4.5" => Some (25, 125)
  | Some name =>
      if inherited_property name then None else Some (300, 1500)
  | None => Some (300, 1500)
  end.

(* ================================================================== *)
(** * The session store ([sessionManager.js], class SessionManager) *)
(* ================================================================== *)

Module SessionManager.

Record t := mk {
  sessions : gmap string Session.t;
  agentToSession : gmap string string
}.

(** [constructor]. *)
Definition init : t := mk ∅ ∅.

(** Writing a session object back under its key. *)
Definition put (sessionId : string) (session : Session.t) (m : t) : t :=
  mk (<[sessionId := session]> (sessions m)) (agentToSession m).

(** The object literal of [getOrCreateSession]. *)
Definition newSession (sessionId : string) (timestamp : Z) : Session.t :=
  Session.mk sessionId timestamp timestamp "active" None []
             None None None None None Tokens.zero (Dollars 0) []
             None None [] false None None.

Definition getOrCreateSession (now : Z) (sessionId : string)
    (initialTimestamp : option Z) (m : t) : Session.t * t :=
  match sessions m !! sessionId with
  | None =>
      let timestamp :=
        if JS.truthy_num initialTimestamp then JS.or_zero initialTimestamp
        else now in
      let session := newSession sessionId timestamp in
      (session, put sessionId session m)
  | Some session =>
      if JS.truthy_num initialTimestamp then (session, m)
      else
        let session := Session.set_lastActivity now session in
        (session, put sessionId session m)
  end.

Definition parseModelName (model : option string) : option string :=
  match model with
  | None => None
  | Some "" => None
  | Some model =>
      let modelLower := JS.toLowerCase model in
      if JS.includes "opus" modelLower then Some "Opus 4.5"
      else if JS.includes "sonnet" modelLower then Some "Sonnet 4.5"
      else if JS.includes "haiku" modelLower then Some "Haiku 4.5"
      else Some (String.concat " "
                   (JS.slice 1 (Some 3) (JS.split "-" model)))
  end.

Definition updateModelInfo (now : Z) (sessionId : string)
    (model version : option string) (m : t) : t :=
  let '(session, m) := getOrCreateSession now sessionId None m in
  let session :=
    if JS.truthy model && negb (JS.truthy (Session.model session)) then
      Session.set_modelShort (parseModelName model)
        (Session.set_model model session)
    else session in
  let session :=
    if JS.truthy version && negb (JS.truthy (Session.version session)) then
      Session.set_version version session
    else session in
  put sessionId session m.

Definition updateCwd (now : Z) (sessionId : string) (cwd : option string)
    (m : t) : t :=
  let '(session, m) := getOrCreateSession now sessionId None m in
  if JS.truthy cwd && negb (JS.truthy (Session.cwd session)) then
    put sessionId (Session.set_cwd cwd session) m
  else m.

Definition updateGitBranch (now : Z) (sessionId : string)
    (branch : option string) (m : t) : t :=
  let '(session, m) := getOrCreateSession now sessionId None m in
  if JS.truthy branch && negb (JS.truthy (Session.gitBranch session)) then
    put sessionId (Session.set_gitBranch branch session) m
  else m.

(** With rates that are [undefined] the products and the sum are [NaN]. *)
Definition estimateCost (session : Session.t) : Cost :=
  match MODEL_PRICING (Session.modelShort session) with
  | Some rates =>
      Dollars (Tokens.input (Session.tokens session) * fst rates +
               Tokens.output (Session.tokens session) * snd rates)
  | None => NaN
  end.

Definition updateTokenUsage (now : Z) (sessionId : string)
    (usage : option Usage.t) (m : t) : t :=
  match sessions m !! sessionId, usage with
  | Some session, Some usage =>
      let tk := Session.tokens session in
      let input := Tokens.input tk + JS.or_zero (Usage.input_tokens usage) in
      let output :=
        Tokens.output tk + JS.or_zero (Usage.output_tokens usage) in
      let cacheRead :=
        Tokens.cacheRead tk
        + JS.or_zero (Usage.cache_read_input_tokens usage) in
      let cacheCreation :=
        Tokens.cacheCreation tk
        + JS.or_zero (Usage.cache_creation_input_tokens usage) in
      let session :=
        Session.set_tokens
          (Tokens.mk input output cacheRead cacheCreation (input + output))
          session in
      let session :=
        Session.set_estimatedCost (estimateCost session) session in
      put sessionId (Session.set_lastActivity now session) m
  | _, _ => m
  end.

(** [truncate(str, maxLength)]. *)
Definition truncate (str : option string) (maxLength : nat) : string :=
  match str with
  | None => ""
  | Some str =>
      if (String.length str <=? maxLength)%nat then str
      else JS.take_chars maxLength str +:+ "..."
  end.

Definition addMessage (cfg : Config) (now : Z) (sessionId role : string)
    (content : string) (timestamp : option string) (m : t) : t :=
  match sessions m !! sessionId with
  | None => m
  | Some session =>
      if (content =? "")%string then m
      else
        let duplicate :=
          match last (Session.messages session) with
          | Some lastMsg =>
              (Message.content lastMsg =? content)%string
              && (Message.role lastMsg =? role)%string
          | None => false
          end in
        if duplicate then m
        else
          let stamp :=
            match timestamp with
            | Some ts => if JS.truthy timestamp then Stamp ts else IsoOf now
            | None => IsoOf now
            end in
          let messages :=
            Session.messages session
            ++ [Message.mk role (truncate (Some content) 1000) stamp now] in
          let messages :=
            if MAX_MESSAGES cfg <? Z.of_nat (length messages) then
              JS.slice (- MAX_MESSAGES cfg) None messages
            else messages in
          put sessionId
            (Session.set_lastActivity now
               (Session.set_messages messages session)) m
  end.

Definition linkSubAgent (parentSessionId agentId : string) (m : t) : t :=
  match sessions m !! parentSessionId with
  | Some parent =>
      if bool_decide (agentId ∈ Session.subAgents parent) then m
      else
        put parentSessionId
          (Session.set_subAgents (Session.subAgents parent ++ [agentId])
             parent) m
  | None => m
  end.

(** [createSubAgent]; the session it returns is not used by its caller
    and is left out. *)
Definition createSubAgent (now : Z) (agentId parentSessionId : string)
    (m : t) : t :=
  match sessions m !! agentId with
  | Some _ => m
  | None =>
      let '(session, m) := getOrCreateSession now agentId None m in
      let session :=
        Session.set_isSubAgent true
          (Session.set_parentSessionId (Some parentSessionId)
             (Session.set_agentId (Some agentId) session)) in
      let m := put agentId session m in
      let m := mk (sessions m) (<[agentId := agentId]> (agentToSession m)) in
      linkSubAgent parentSessionId agentId m
  end.

Definition getSession (id : string) (m : t) : option Session.t :=
  match sessions m !! id with
  | Some session => Some session
  | None =>
      match agentToSession m !! id with
      | Some sessionId => sessions m !! sessionId
      | None => None
      end
  end.

Definition completeTool (cfg : Config) (now : Z) (sessionId : string)
    (toolName status : string) (details : Details) (m : t) : t :=
  match sessions m !! sessionId with
  | None => m
  | Some session =>
      match Session.currentTool session with
      | None => m
      | Some currentTool =>
          let duration := now - Tool.startTime currentTool in
          let historyEntry :=
            HistoryEntry.mk toolName duration status now details in
          let toolHistory := historyEntry :: Session.toolHistory session in
          let toolHistory :=
            if MAX_TOOL_HISTORY cfg <? Z.of_nat (length toolHistory) then
              JS.slice 0 (Some (MAX_TOOL_HISTORY cfg)) toolHistory
            else toolHistory in
          put sessionId
            (Session.set_lastActivity now
               (Session.set_currentTool None
                  (Session.set_toolHistory toolHistory session))) m
      end
  end.

(** The running tool of a session, as tested by
    [session.currentTool && session.currentTool.status === 'running']. *)
Definition running_tool (session : Session.t) : option Tool.t :=
  match Session.currentTool session with
  | Some tool =>
      if (Tool.status tool =? "running")%string then Some tool else None
  | None => None
  end.

Definition startTool (cfg : Config) (now : Z) (sessionId toolName : string)
    (details : Details) (m : t) : t :=
  let '(session, m) := getOrCreateSession now sessionId None m in
  let m :=
    match running_tool session with
    | Some tool =>
        completeTool cfg now sessionId (Tool.name tool) "completed" [] m
    | None => m
    end in
  (* [session] is the stored object: read it as [completeTool] left it *)
  let session := default session (sessions m !! sessionId) in
  put sessionId
    (Session.set_lastActivity now
       (Session.set_status "active"
          (Session.set_currentTool
             (Some (Tool.mk toolName now "running" details)) session))) m.

Definition completeSession (cfg : Config) (now : Z) (sessionId : string)
    (m : t) : t :=
  match sessions m !! sessionId with
  | None => m
  | Some session =>
      let m :=
        match running_tool session with
        | Some tool =>
            completeTool cfg now sessionId (Tool.name tool) "completed" [] m
        | None => m
        end in
      let session := default session (sessions m !! sessionId) in
      put sessionId
        (Session.set_lastActivity now
           (Session.set_status "completed" session)) m
  end.

Definition updateSessionStatus (now : Z) (sessionId status : string)
    (m : t) : t :=
  match sessions m !! sessionId with
  | None => m
  | Some session =>
      put sessionId
        (Session.set_lastActivity now (Session.set_status status session)) m
  end.

Definition updateSessionPrompt (now : Z) (sessionId prompt : string)
    (m : t) : t :=
  let '(session, m) := getOrCreateSession now sessionId None m in
  put sessionId
    (Session.set_lastActivity now
       (Session.set_prompt (Some prompt) session)) m.

Definition updateTodos (now : Z) (sessionId : string) (todos : list string)
    (m : t) : t :=
  match sessions m !! sessionId with
  | None => m
  | Some session =>
      put sessionId
        (Session.set_lastActivity now
           (Session.set_todos (Some todos) session)) m
  end.

Definition getAllSessions (m : t) : list Session.t :=
  (map_to_list (sessions m)).*2.

Definition getActiveSessions (m : t) : list Session.t :=
  filter (λ s, Session.status s = "active") (getAllSessions m).

(** One iteration of the loop of [cleanupStaleSessions]: [None] when the
    session is deleted. *)
Definition sweep_session (cfg : Config) (now : Z) (session : Session.t)
    : option Session.t :=
  let inactiveTime := now - Session.lastActivity session in
  if SESSION_TIMEOUT_MS cfg <? inactiveTime then None
  else if (Session.status session =? "active")%string
          && negb (bool_decide (is_Some (Session.currentTool session)))
          && (IDLE_THRESHOLD_MS cfg <? inactiveTime)
  then Some (Session.set_status "idle" session)
  else Some session.

Definition cleanupStaleSessions (cfg : Config) (now : Z) (m : t) : t :=
  mk (omap (sweep_session cfg now) (sessions m)) (agentToSession m).

Definition destroy (m : t) : t := mk ∅ (agentToSession m).

End SessionManager.

(* ================================================================== *)
(** * Log records (one decoded line of a session file) *)
(* ================================================================== *)

(** [input] of a tool invocation, with the fields the sources read;
    [todos_length] is [input.todos?.length]. *)
Module ToolInput.
Record t := mk {
  command : option string;
  file_path : option string;
  new_string : option string;
  pattern : option string;
  path : option string;
  description : option string;
  subagent_type : option string;
  url : option string;
  query : option string;
  todos_length : option Z
}.
(** [{}] *)
Definition empty : t :=
  mk None None None None None None None None None None.
End ToolInput.

(** A content block of an assistant message, by its [type]. *)
Inductive Block :=
| TextBlock (text : option string)
| ToolUseBlock (name : string) (id : option string)
    (input : option ToolInput.t)
| OtherBlock.

(** [message.content]: a string, an array of blocks, or anything else.
    Of anything else the sources read only what it prints as:
    [JSON.stringify] of an object, [String] of a number or of [true], and
    nothing ([None]) for a falsy value (missing, [null], 0, [false]). *)
Inductive Content :=
| ContentString (s : string)
| ContentBlocks (blocks : list Block)
| ContentOther (printed : option string).

Module MessageBody.
Record t := mk {
  model : option string;
  usage : option Usage.t;
  content : Content
}.
End MessageBody.

Module LogRecord.
Record t := mk {
  type : option string;
  sessionId : option string;
  agentId : option string;
  timestamp : option string;
  cwd : option string;
  gitBranch : option string;
  version : option string;
  isSidechain : bool;
  message : option MessageBody.t;
  operation : option string;
  is_error : bool
}.
End LogRecord.

(* ================================================================== *)
(** * The file system as the watcher sees it *)
(* ================================================================== *)

Module Stats.
Record t := mk {
  mtimeMs : Z;
  size : Z
}.
End Stats.

(** The four calls of [fs] the watcher makes.  [None] is a thrown
    exception (a missing file, a directory read as a file, ...). *)
Record FileSystem := mkFileSystem {
  existsSync : string → bool;
  readdirSync : string → option (list string);
  statSync : string → option Stats.t;
  readFileSync : string → option string
}.

(** [path.join(dir, file)] for a directory without a trailing slash. *)
Definition join (dir file : string) : string := dir +:+ "/" +:+ file.

(* ================================================================== *)
(** * The file watcher ([fileWatcher.js], class FileWatcher) *)
(* ================================================================== *)

Module FileWatcher.

Definition MAX_FILE_AGE_MS : Z := 10 * 60 * 1000.

Record t := mk {
  sessionManager : SessionManager.t;
  filePositions : gmap string Z;
  sessionFiles : gmap string string;
  fileModTimes : gmap string Z
}.

(** [constructor(sessionManager)]. *)
Definition init (sessionManager : SessionManager.t) : t :=
  mk sessionManager ∅ ∅ ∅.

Definition with_manager (f : SessionManager.t → SessionManager.t)
    (w : t) : t :=
  mk (f (sessionManager w)) (filePositions w) (sessionFiles w)
     (fileModTimes w).

Definition set_filePosition (filePath : string) (pos : Z) (w : t) : t :=
  mk (sessionManager w) (<[filePath := pos]> (filePositions w))
     (sessionFiles w) (fileModTimes w).

Definition set_sessionFile (sessionId filePath : string) (w : t) : t :=
  mk (sessionManager w) (filePositions w)
     (<[sessionId := filePath]> (sessionFiles w)) (fileModTimes w).

Definition set_fileModTime (filePath : string) (mtime : Z) (w : t) : t :=
  mk (sessionManager w) (filePositions w) (sessionFiles w)
     (<[filePath := mtime]> (fileModTimes w)).

Definition truncate (str : option string) (maxLength : nat) : string :=
  match str with
  | None => ""
  | Some str =>
      if (String.length str <=? maxLength)%nat then str
      else JS.take_chars maxLength str +:+ "..."
  end.

Definition extractToolDetails (toolName : string) (input : ToolInput.t)
    : Details :=
  match toolName with
  | "Bash" => [("command", DStr (truncate (ToolInput.command input) 100))]
  | "Read" => [("file", detail_of (ToolInput.file_path input))]
  | "Edit" =>
      [("file", detail_of (ToolInput.file_path input));
       ("preview", DStr (truncate (ToolInput.new_string input) 50))]
  | "Write" => [("file", detail_of (ToolInput.file_path input))]
  | "Glob" | "Grep" =>
      [("pattern", detail_of (ToolInput.pattern input));
       ("path", detail_of (ToolInput.path input))]
  | "Task" =>
      [("description", DStr (truncate (ToolInput.description input) 100));
       ("agentType", detail_of (ToolInput.subagent_type input))]
  | "WebFetch" => [("url", detail_of (ToolInput.url input))]
  | "WebSearch" => [("query", detail_of (ToolInput.query input))]
  | "TodoWrite" =>
      [("count", DNum (JS.or_zero (ToolInput.todos_length input)))]
  | _ =>
      (if JS.truthy (ToolInput.description input)
       then [("description",
              DStr (truncate (ToolInput.description input) 100))]
       else [])
      ++ (if JS.truthy (ToolInput.file_path input)
          then [("file", detail_of (ToolInput.file_path input))]
          else [])
      ++ (if JS.truthy (ToolInput.command input)
          then [("command", DStr (truncate (ToolInput.command input) 100))]
          else [])
  end.

(** The cases of the [switch (type)] of [processMessage]. *)
Inductive RecordType :=
| TUser | TAssistant | TToolResult | TResult | TQueueOperation | TOther.

Definition record_type (type : option string) : RecordType :=
  match type with
  | Some "user" => TUser
  | Some "assistant" => TAssistant
  | Some "tool_result" => TToolResult
  | Some "result" => TResult
  | Some "queue-operation" => TQueueOperation
  | _ => TOther
  end.

Section Reconciler.

Context (cfg : Config).

Definition handleToolUse (now : Z) (sessionId : string)
    (toolName : string) (toolId : option string)
    (input : option ToolInput.t) (timestamp : option string)
    (m : SessionManager.t) : SessionManager.t :=
  let input := default ToolInput.empty input in
  let details := extractToolDetails toolName input in
  SessionManager.startTool cfg now sessionId toolName
    ([("toolId", detail_of toolId); ("timestamp", detail_of timestamp)]
     ++ details) m.

Definition handleToolResult (now : Z) (sessionId : string)
    (data : LogRecord.t) (m : SessionManager.t) : SessionManager.t :=
  match SessionManager.sessions m !! sessionId with
  | Some session =>
      match Session.currentTool session with
      | Some currentTool =>
          let status :=
            if LogRecord.is_error data then "failed" else "completed" in
          SessionManager.completeTool cfg now sessionId
            (Tool.name currentTool) status [] m
      | None => m
      end
  | None => m
  end.

Definition handleUserMessage (now : Z) (sessionId : string)
    (data : LogRecord.t) (m : SessionManager.t) : SessionManager.t :=
  match LogRecord.message data with
  | Some message =>
      match MessageBody.content message with
      | ContentString content =>
          if JS.trim_nonempty content
             && negb (content =? "Warmup")%string
          then
            let m :=
              SessionManager.updateSessionPrompt now sessionId
                (JS.take_chars 200 content) m in
            SessionManager.addMessage cfg now sessionId "user" content
              (LogRecord.timestamp data) m
          else m
      | _ => m
      end
  | None => m
  end.

(** The body of the loop over the content blocks. *)
Definition handleBlock (now : Z) (sessionId : string)
    (timestamp : option string) (m : SessionManager.t) (block : Block)
    : SessionManager.t :=
  match block with
  | TextBlock text =>
      match text with
      | Some text =>
          if JS.truthy (Some text) then
            SessionManager.addMessage cfg now sessionId "assistant" text
              timestamp m
          else m
      | None => m
      end
  | ToolUseBlock name id input =>
      handleToolUse now sessionId name id input timestamp m
  | OtherBlock => m
  end.

Definition handleAssistantMessage (now : Z) (sessionId : string)
    (data : LogRecord.t) (timestamp : option string)
    (m : SessionManager.t) : SessionManager.t :=
  match LogRecord.message data with
  | None => m
  | Some message =>
      let m :=
        if JS.truthy (MessageBody.model message) then
          SessionManager.updateModelInfo now sessionId
            (MessageBody.model message) (LogRecord.version data) m
        else m in
      let m :=
        match MessageBody.usage message with
        | Some usage =>
            SessionManager.updateTokenUsage now sessionId (Some usage) m
        | None => m
        end in
      match MessageBody.content message with
      | ContentBlocks blocks =>
          foldl (handleBlock now sessionId timestamp) m blocks
      | _ => m
      end
  end.

(** The classification at the head of [processMessage]. *)
Definition isSubAgent (data : LogRecord.t) (filePath : string) : bool :=
  JS.includes "/agent-" filePath
  || (JS.truthy (LogRecord.agentId data)
      && JS.truthy (LogRecord.sessionId data)
      && negb (bool_decide
                 (LogRecord.agentId data = LogRecord.sessionId data))).

Definition effectiveSessionId (data : LogRecord.t) (filePath : string)
    : option string :=
  if isSubAgent data filePath then LogRecord.agentId data
  else if JS.truthy (LogRecord.sessionId data)
       then LogRecord.sessionId data
       else LogRecord.agentId data.

(** The [switch (type)] of [processMessage]. *)
Definition dispatch (now : Z) (effectiveSessionId : string)
    (data : LogRecord.t) (m : SessionManager.t) : SessionManager.t :=
  match record_type (LogRecord.type data) with
  | TUser => handleUserMessage now effectiveSessionId data m
  | TAssistant =>
      handleAssistantMessage now effectiveSessionId data
        (LogRecord.timestamp data) m
  | TToolResult => handleToolResult now effectiveSessionId data m
  | TResult =>
      SessionManager.completeSession cfg now effectiveSessionId m
  | TQueueOperation =>
      if bool_decide (LogRecord.operation data = Some "dequeue") then
        snd (SessionManager.getOrCreateSession now effectiveSessionId
               None m)
      else m
  | TOther => m
  end.

Definition processMessage (now : Z) (data : LogRecord.t)
    (filePath : string) (w : t) : t :=
  match effectiveSessionId data filePath with
  | None => w
  | Some effective =>
      if negb (JS.truthy (Some effective)) then w
      else
        let w :=
          match LogRecord.sessionId data, LogRecord.agentId data with
          | Some sessionId, Some agentId =>
              if isSubAgent data filePath
                 && JS.truthy (Some sessionId)
                 && JS.truthy (Some agentId)
              then
                with_manager
                  (SessionManager.createSubAgent now agentId sessionId) w
              else w
          | _, _ => w
          end in
        let w := set_sessionFile effective filePath w in
        let w :=
          if JS.truthy (LogRecord.cwd data) then
            with_manager
              (SessionManager.updateCwd now effective
                 (LogRecord.cwd data)) w
          else w in
        let w :=
          if JS.truthy (LogRecord.gitBranch data) then
            with_manager
              (SessionManager.updateGitBranch now effective
                 (LogRecord.gitBranch data)) w
          else w in
        with_manager (dispatch now effective data) w
  end.

End Reconciler.

(** An entry of [fileStats] in [scanExistingSessions] ([mtime] and
    [mtimeMs] are the same instant). *)
Record FileStat := mkFileStat {
  fs_path : string;
  fs_file : string;
  fs_mtimeMs : Z;
  fs_size : Z
}.

(** [fileStats.sort((a, b) => b.mtimeMs - a.mtimeMs)]: a stable sort,
    most recent first. *)
Fixpoint insert_by_mtime (x : FileStat) (l : list FileStat)
    : list FileStat :=
  match l with
  | [] => [x]
  | y :: l' =>
      if fs_mtimeMs y <=? fs_mtimeMs x then x :: y :: l'
      else y :: insert_by_mtime x l'
  end.

Definition sort_by_mtime_desc (l : list FileStat) : list FileStat :=
  foldr insert_by_mtime [] l.

(** The character class [[a-f0-9-]] of the two file-name patterns. *)
Definition is_id_char (c : ascii) : bool :=
  let n := nat_of_ascii c in
  (((97 <=? n) && (n <=? 102)) || ((48 <=? n) && (n <=? 57))
   || (n =? 45))%nat.

Fixpoint all_id_chars (s : string) : bool :=
  match s with
  | EmptyString => true
  | String c s' => is_id_char c && all_id_chars s'
  end.

(** [filename.match(/^([a-f0-9-]{36})/)]: the captured group. *)
Definition match_uuid (filename : string) : option string :=
  let head := JS.take_chars 36 filename in
  if (String.length head =? 36)%nat && all_id_chars head then Some head
  else None.

(** [filename.match(/^([a-f0-9-]+)/)]: the captured group. *)
Fixpoint id_prefix (s : string) : string :=
  match s with
  | EmptyString => EmptyString
  | String c s' =>
      if is_id_char c then String c (id_prefix s') else EmptyString
  end.

Definition match_id_prefix (filename : string) : option string :=
  let head := id_prefix filename in
  if (head =? "")%string then None else Some head.

(** [filePath.split('/').pop()]. *)
Definition basename (filePath : string) : string :=
  default "" (last (JS.split "/" filePath)).

(** [content.split('\n').filter(line => line.trim())]. *)
Definition lines_of (content : string) : list string :=
  filter (λ line, JS.trim_nonempty line = true)
         (JS.split JS.newline content).

Section Watcher.

Context (cfg : Config).
(** [os.homedir()/.claude/projects]. *)
Context (PROJECTS_DIR : string).
(** [JSON.parse] of a line into a record; [None] when it throws (and for
    a value that is not an object, which [processMessage] rejects in the
    same [try]). *)
Context (JSON_parse : string → option LogRecord.t).
(** [JSON.parse] of a todo file into its list of items. *)
Context (JSON_parse_todos : string → option (list string)).

(** The loop over the new lines in [processNewLines]. *)
Definition processLine (now : Z) (filePath : string) (w : t)
    (line : string) : t :=
  match JSON_parse line with
  | Some data => processMessage cfg now data filePath w
  | None => w
  end.

Definition processNewLines (fs : FileSystem) (now : Z)
    (filePath : string) (w : t) : t :=
  match statSync fs filePath with
  | None => w
  | Some stats =>
      let currentSize := Stats.size stats in
      let lastPosition := JS.or_zero (filePositions w !! filePath) in
      if currentSize <? lastPosition then set_filePosition filePath 0 w
      else if currentSize =? lastPosition then w
      else
        match readFileSync fs filePath with
        | None => w
        | Some content =>
            let newContent := JS.substring_from lastPosition content in
            let w := set_filePosition filePath currentSize w in
            foldl (processLine now filePath) w (lines_of newContent)
        end
  end.

(** The search for an id in the first lines of a file. *)
Fixpoint first_session_id (lines : list string) : option string :=
  match lines with
  | [] => None
  | line :: rest =>
      match JSON_parse line with
      | Some data =>
          let sessionId :=
            if JS.truthy (LogRecord.sessionId data)
            then LogRecord.sessionId data
            else LogRecord.agentId data in
          if JS.truthy sessionId then sessionId
          else first_session_id rest
      | None => first_session_id rest
      end
  end.

Definition extractSessionIdFromFile (fs : FileSystem)
    (filePath : string) : option string :=
  match readFileSync fs filePath with
  | None => None
  | Some content =>
      match first_session_id (JS.slice 0 (Some 10) (lines_of content)) with
      | Some sessionId => Some sessionId
      | None => match_uuid (basename filePath)
      end
  end.

(** [files.map(file => ...)]: the stat of every candidate; the whole
    scan is abandoned when one of them throws. *)
Definition stat_candidate (fs : FileSystem) (file : string)
    : option FileStat :=
  let filePath := join PROJECTS_DIR file in
  match statSync fs filePath with
  | Some stats =>
      Some (mkFileStat filePath file (Stats.mtimeMs stats)
              (Stats.size stats))
  | None => None
  end.

(** The candidates of the startup scan: the entries of the log root
    whose name ends in [.jsonl]. *)
Definition scan_candidates (fs : FileSystem) : option (list string) :=
  if existsSync fs PROJECTS_DIR then
    match readdirSync fs PROJECTS_DIR with
    | Some entries => Some (filter (λ f, JS.endsWith ".jsonl" f = true)
                              entries)
    | None => None
    end
  else None.

Definition scan_fileStats (fs : FileSystem) : option (list FileStat) :=
  match scan_candidates fs with
  | Some files =>
      match mapM (stat_candidate fs) files with
      | Some fileStats => Some (sort_by_mtime_desc fileStats)
      | None => None
      end
  | None => None
  end.

Definition is_recent (now : Z) (f : FileStat) : bool :=
  now - fs_mtimeMs f <? MAX_FILE_AGE_MS.

Definition scan_recentFiles (fs : FileSystem) (now : Z)
    : option (list FileStat) :=
  match scan_fileStats fs with
  | Some fileStats => Some (filter (λ f, is_recent now f = true) fileStats)
  | None => None
  end.

(** The body of the loading loop of [scanExistingSessions]. *)
Definition scan_load (fs : FileSystem) (now : Z)
    (recentFiles : list FileStat) (w : t) (f : FileStat) : t :=
  let w := set_fileModTime (fs_path f) (fs_mtimeMs f) w in
  match extractSessionIdFromFile fs (fs_path f) with
  | Some sessionId =>
      let w := set_sessionFile sessionId (fs_path f) w in
      let '(session, m) :=
        SessionManager.getOrCreateSession now sessionId
          (Some (fs_mtimeMs f)) (sessionManager w) in
      let m :=
        if bool_decide (Some (fs_path f) = fs_path <$> head recentFiles)
           && (0 <? fs_size f)
        then
          SessionManager.put sessionId
            (Session.set_status "active" session) m
        else m in
      let w := with_manager (λ _, m) w in
      let w := set_filePosition (fs_path f) 0 w in
      processNewLines fs now (fs_path f) w
  | None => w
  end.

Definition scanExistingSessions (fs : FileSystem) (now : Z) (w : t)
    : t :=
  match scan_candidates fs with
  | None => w
  | Some [] => w
  | Some _ =>
      match scan_recentFiles fs now with
      | Some recentFiles =>
          foldl (scan_load fs now recentFiles) w recentFiles
      | None => w
      end
  end.

Definition handleFileAdded (fs : FileSystem) (now : Z)
    (filePath : string) (w : t) : t :=
  match statSync fs filePath with
  | None => w
  | Some stats =>
      let fileAge := now - Stats.mtimeMs stats in
      if MAX_FILE_AGE_MS <? fileAge then w
      else processNewLines fs now filePath
             (set_filePosition filePath 0 w)
  end.

Definition handleFileChanged (fs : FileSystem) (now : Z)
    (filePath : string) (w : t) : t :=
  let w :=
    match filePositions w !! filePath with
    | Some _ => w
    | None =>
        match statSync fs filePath with
        | Some stats => set_filePosition filePath (Stats.size stats) w
        | None => set_filePosition filePath 0 w
        end
    end in
  processNewLines fs now filePath w.

Definition handleTodoChanged (fs : FileSystem) (now : Z)
    (filePath : string) (w : t) : t :=
  match readFileSync fs filePath with
  | None => w
  | Some todoContent =>
      match JSON_parse_todos todoContent with
      | None => w
      | Some todos =>
          match match_id_prefix (basename filePath) with
          | Some sessionId =>
              if (0 <? length todos)%nat then
                with_manager
                  (SessionManager.updateTodos now sessionId todos) w
              else w
          | None => w
          end
      end
  end.

(** [stop()]. *)
Definition stop (w : t) : t :=
  mk (sessionManager w) ∅ ∅ (fileModTimes w).

End Watcher.

End FileWatcher.

(* ================================================================== *)
(** * The stream parser ([streamParser.js]) *)
(* ================================================================== *)

Module StreamParser.

(** A chunk of stream-json output, with the fields [parseStreamChunk]
    reads. *)
Record Chunk := mkChunk {
  type : option string;
  session_id : option string;
  sessionId : option string;
  metadata_session_id : option string;
  content : Content;
  tool_use_id : option string;
  is_error : bool
}.

Definition truncateString (str : option string) (maxLength : nat)
    : string :=
  match str with
  | None => ""
  | Some str =>
      if (String.length str <=? maxLength)%nat then str
      else JS.take_chars maxLength str +:+ "..."
  end.

(** [c.text || c] of an element of an array content, as [join] prints
    it. *)
Definition block_text (b : Block) : string :=
  match b with
  | TextBlock (Some text) =>
      if JS.truthy (Some text) then text else "[object Object]"
  | _ => "[object Object]"
  end.

Definition truncateOutput (content : Content) : string :=
  match content with
  | ContentString s => truncateString (Some s) 200
  | ContentBlocks blocks =>
      truncateString
        (Some (String.concat (String JS.newline "") (block_text <$> blocks)))
        200
  | ContentOther printed => truncateString printed 200
  end.

Definition extractToolDetails (toolName : string) (input : ToolInput.t)
    : Details :=
  match toolName with
  | "Bash" =>
      [("command", DStr (truncateString (ToolInput.command input) 100))]
  | "Read" | "Edit" | "Write" =>
      [("file", detail_of (ToolInput.file_path input))]
  | "Glob" | "Grep" => [("pattern", detail_of (ToolInput.pattern input))]
  | "Task" =>
      [("description", detail_of (ToolInput.description input));
       ("agentType", detail_of (ToolInput.subagent_type input))]
  | "WebFetch" => [("url", detail_of (ToolInput.url input))]
  | "WebSearch" => [("query", detail_of (ToolInput.query input))]
  | _ =>
      (if JS.truthy (ToolInput.description input)
       then [("description",
              DStr (truncateString (ToolInput.description input) 100))]
       else [])
      ++ (if JS.truthy (ToolInput.file_path input)
          then [("file", detail_of (ToolInput.file_path input))]
          else [])
      ++ (if JS.truthy (ToolInput.command input)
          then [("command",
                 DStr (truncateString (ToolInput.command input) 100))]
          else [])
  end.

(** The cases of the [switch (type)] of [parseStreamChunk]. *)
Inductive ChunkType :=
| CInit | CUser | CAssistant | CToolResult | CResult | CError | CDefault.

Definition chunk_type (type : option string) : ChunkType :=
  match type with
  | Some "init" => CInit
  | Some "user" => CUser
  | Some "assistant" => CAssistant
  | Some "tool_result" => CToolResult
  | Some "result" => CResult
  | Some "error" => CError
  | _ => CDefault
  end.

Section Parser.

Context (cfg : Config).

Definition handleToolUse (now : Z) (sessionId : string) (block : Block)
    (m : SessionManager.t) : SessionManager.t :=
  match block with
  | ToolUseBlock toolName toolId input =>
      let input := default ToolInput.empty input in
      let details := extractToolDetails toolName input in
      SessionManager.startTool cfg now sessionId toolName
        (("toolId", detail_of toolId) :: details) m
  | _ => m
  end.

Definition handleToolResult (now : Z) (sessionId : string)
    (result : Chunk) (m : SessionManager.t) : SessionManager.t :=
  let status := if is_error result then "failed" else "completed" in
  let toolName :=
    match SessionManager.sessions m !! sessionId with
    | Some session =>
        match Session.currentTool session with
        | Some tool =>
            if JS.truthy (Some (Tool.name tool)) then Tool.name tool
            else "Unknown"
        | None => "Unknown"
        end
    | None => "Unknown"
    end in
  SessionManager.completeTool cfg now sessionId toolName status
    [("toolId", detail_of (tool_use_id result));
     ("output", DStr (truncateOutput (content result)))] m.

(** [session_id || sessionId || metadata?.session_id || 'unknown']. *)
Definition chunk_session (jsonData : Chunk) : string :=
  if JS.truthy (session_id jsonData) then default "" (session_id jsonData)
  else if JS.truthy (sessionId jsonData)
  then default "" (sessionId jsonData)
  else if JS.truthy (metadata_session_id jsonData)
  then default "" (metadata_session_id jsonData)
  else "unknown".

Definition parseStreamChunk (now : Z) (jsonData : Chunk)
    (m : SessionManager.t) : SessionManager.t :=
  let sessionId := chunk_session jsonData in
  match chunk_type (type jsonData) with
  | CInit => snd (SessionManager.getOrCreateSession now sessionId None m)
  | CUser => SessionManager.updateSessionStatus now sessionId "active" m
  | CAssistant =>
      match content jsonData with
      | ContentBlocks blocks =>
          foldl (λ m block, handleToolUse now sessionId block m) m blocks
      | _ => m
      end
  | CToolResult => handleToolResult now sessionId jsonData m
  | CResult => SessionManager.completeSession cfg now sessionId m
  | CError => SessionManager.updateSessionStatus now sessionId "error" m
  | CDefault =>
      snd (SessionManager.getOrCreateSession now sessionId None m)
  end.

End Parser.

End StreamParser.

(* ================================================================== *)
(** * Reachable stores *)
(* ================================================================== *)

(** A call of a public method of the store, or one of the two writes the
    watcher makes on a session object directly. *)
Inductive Call :=
| GetOrCreateSession (sessionId : string) (initialTimestamp : option Z)
| UpdateModelInfo (sessionId : string) (model version : option string)
| UpdateCwd (sessionId : string) (cwd : option string)
| UpdateGitBranch (sessionId : string) (branch : option string)
| UpdateTokenUsage (sessionId : string) (usage : option Usage.t)
| AddMessage (sessionId role content : string) (timestamp : option string)
| CreateSubAgent (agentId parentSessionId : string)
| LinkSubAgent (parentSessionId agentId : string)
| StartTool (sessionId toolName : string) (details : Details)
| CompleteTool (sessionId toolName status : string) (details : Details)
| CompleteSession (sessionId : string)
| UpdateSessionStatus (sessionId status : string)
| UpdateSessionPrompt (sessionId prompt : string)
| UpdateTodos (sessionId : string) (todos : list string)
| CleanupStaleSessions
| Destroy
| MarkActive (sessionId : string).

(** [session.status = 'active'] of [scanExistingSessions]. *)
Definition markActive (sessionId : string) (m : SessionManager.t)
    : SessionManager.t :=
  match SessionManager.sessions m !! sessionId with
  | Some session =>
      SessionManager.put sessionId (Session.set_status "active" session) m
  | None => m
  end.

Definition perform (cfg : Config) (now : Z) (c : Call)
    (m : SessionManager.t) : SessionManager.t :=
  match c with
  | GetOrCreateSession sessionId ts =>
      snd (SessionManager.getOrCreateSession now sessionId ts m)
  | UpdateModelInfo sessionId model version =>
      SessionManager.updateModelInfo now sessionId model version m
  | UpdateCwd sessionId cwd => SessionManager.updateCwd now sessionId cwd m
  | UpdateGitBranch sessionId branch =>
      SessionManager.updateGitBranch now sessionId branch m
  | UpdateTokenUsage sessionId usage =>
      SessionManager.updateTokenUsage now sessionId usage m
  | AddMessage sessionId role content timestamp =>
      SessionManager.addMessage cfg now sessionId role content timestamp m
  | CreateSubAgent agentId parentSessionId =>
      SessionManager.createSubAgent now agentId parentSessionId m
  | LinkSubAgent parentSessionId agentId =>
      SessionManager.linkSubAgent parentSessionId agentId m
  | StartTool sessionId toolName details =>
      SessionManager.startTool cfg now sessionId toolName details m
  | CompleteTool sessionId toolName status details =>
      SessionManager.completeTool cfg now sessionId toolName status details m
  | CompleteSession sessionId =>
      SessionManager.completeSession cfg now sessionId m
  | UpdateSessionStatus sessionId status =>
      SessionManager.updateSessionStatus now sessionId status m
  | UpdateSessionPrompt sessionId prompt =>
      SessionManager.updateSessionPrompt now sessionId prompt m
  | UpdateTodos sessionId todos =>
      SessionManager.updateTodos now sessionId todos m
  | CleanupStaleSessions => SessionManager.cleanupStaleSessions cfg now m
  | Destroy => SessionManager.destroy m
  | MarkActive sessionId => markActive sessionId m
  end.

(** The stores that a run of the program can hold: the empty store of the
    constructor, changed by any sequence of calls at any clock readings. *)
Inductive reachable (cfg : Config) : SessionManager.t → Prop :=
| reachable_init : reachable cfg SessionManager.init
| reachable_perform now c m :
    reachable cfg m → reachable cfg (perform cfg now c m).

(** The elementary writes the store makes on one session object. *)
Inductive session_step (cfg : Config) : Session.t → Session.t → Prop :=
| step_lastActivity s v : session_step cfg s (Session.set_lastActivity v s)
| step_status s v : session_step cfg s (Session.set_status v s)
| step_tool_start s toolName now details :
    session_step cfg s
      (Session.set_currentTool
         (Some (Tool.mk toolName now "running" details)) s)
| step_tool_clear s : session_step cfg s (Session.set_currentTool None s)
| step_toolHistory s entry :
    session_step cfg s
      (Session.set_toolHistory
         (if MAX_TOOL_HISTORY cfg
             <? Z.of_nat (length (entry :: Session.toolHistory s))
          then JS.slice 0 (Some (MAX_TOOL_HISTORY cfg))
                 (entry :: Session.toolHistory s)
          else entry :: Session.toolHistory s) s)
| step_model s v : session_step cfg s (Session.set_model v s)
| step_modelShort s v : session_step cfg s (Session.set_modelShort v s)
| step_cwd s v : session_step cfg s (Session.set_cwd v s)
| step_version s v : session_step cfg s (Session.set_version v s)
| step_gitBranch s v : session_step cfg s (Session.set_gitBranch v s)
| step_tokens s usage :
    session_step cfg s
      (Session.set_tokens
         (Tokens.mk
            (Tokens.input (Session.tokens s)
             + JS.or_zero (Usage.input_tokens usage))
            (Tokens.output (Session.tokens s)
             + JS.or_zero (Usage.output_tokens usage))
            (Tokens.cacheRead (Session.tokens s)
             + JS.or_zero (Usage.cache_read_input_tokens usage))
            (Tokens.cacheCreation (Session.tokens s)
             + JS.or_zero (Usage.cache_creation_input_tokens usage))
            (Tokens.input (Session.tokens s)
             + JS.or_zero (Usage.input_tokens usage)
             + (Tokens.output (Session.tokens s)
                + JS.or_zero (Usage.output_tokens usage)))) s)
| step_estimatedCost s v : session_step cfg s (Session.set_estimatedCost v s)
| step_messages s msg :
    session_step cfg s
      (Session.set_messages
         (if MAX_MESSAGES cfg
             <? Z.of_nat (length (Session.messages s ++ [msg]))
          then JS.slice (- MAX_MESSAGES cfg) None (Session.messages s ++ [msg])
          else Session.messages s ++ [msg]) s)
| step_parentSessionId s v :
    session_step cfg s (Session.set_parentSessionId v s)
| step_agentId s v : session_step cfg s (Session.set_agentId v s)
| step_subAgents s agentId :
    agentId ∉ Session.subAgents s →
    session_step cfg s
      (Session.set_subAgents (Session.subAgents s ++ [agentId]) s)
| step_isSubAgent s v : session_step cfg s (Session.set_isSubAgent v s)
| step_prompt s v : session_step cfg s (Session.set_prompt v s)
| step_todos s v : session_step cfg s (Session.set_todos v s).

(** A session object as some sequence of writes leaves it. *)
Definition evolves (cfg : Config) : Session.t → Session.t → Prop :=
  rtc (session_step cfg).

(** Every session of [m'] is a session of [m] after some writes, or was
    created since. *)
Definition follows (cfg : Config) (m m' : SessionManager.t) : Prop :=
  ∀ id s', SessionManager.sessions m' !! id = Some s' →
    (∃ s, SessionManager.sessions m !! id = Some s ∧ evolves cfg s s')
    ∨ (∃ ts, evolves cfg (SessionManager.newSession id ts) s').

(* ================================================================== *)
(** * The part of a session that a replay leaves alone *)
(* ================================================================== *)

(** The identity, the first-writer-wins attributes and the sub-agent
    linkage of a session. *)
Module View.
Record t := mk {
  id : string;
  model : option string;
  modelShort : option string;
  cwd : option string;
  version : option string;
  gitBranch : option string;
  parentSessionId : option string;
  agentId : option string;
  subAgents : list string;
  isSubAgent : bool
}.

Definition of_session (s : Session.t) : t :=
  mk (Session.id s) (Session.model s) (Session.modelShort s)
     (Session.cwd s) (Session.version s) (Session.gitBranch s)
     (Session.parentSessionId s) (Session.agentId s)
     (Session.subAgents s) (Session.isSubAgent s).

Definition fresh (sessionId : string) : t :=
  mk sessionId None None None None None None None [] false.

Definition set_model (model modelShort : option string) (x : t) : t :=
  mk (id x) model modelShort (cwd x) (version x) (gitBranch x)
     (parentSessionId x) (agentId x) (subAgents x) (isSubAgent x).
Definition set_cwd (v : option string) (x : t) : t :=
  mk (id x) (model x) (modelShort x) v (version x) (gitBranch x)
     (parentSessionId x) (agentId x) (subAgents x) (isSubAgent x).
Definition set_version (v : option string) (x : t) : t :=
  mk (id x) (model x) (modelShort x) (cwd x) v (gitBranch x)
     (parentSessionId x) (agentId x) (subAgents x) (isSubAgent x).
Definition set_gitBranch (v : option string) (x : t) : t :=
  mk (id x) (model x) (modelShort x) (cwd x) (version x) v
     (parentSessionId x) (agentId x) (subAgents x) (isSubAgent x).
Definition set_subAgents (v : list string) (x : t) : t :=
  mk (id x) (model x) (modelShort x) (cwd x) (version x) (gitBranch x)
     (parentSessionId x) (agentId x) v (isSubAgent x).
Definition as_subAgent (agent parent : string) (x : t) : t :=
  mk (id x) (model x) (modelShort x) (cwd x) (version x) (gitBranch x)
     (Some parent) (Some agent) (subAgents x) true.
End View.

Definition views (m : SessionManager.t) : gmap string View.t :=
  View.of_session <$> SessionManager.sessions m.

(** What a record asks of the views: that a session exist, a
    first-writer-wins write, or the registration of a sub-agent. *)
Inductive Touch :=
| Ensure (sessionId : string)
| SetCwd (sessionId : string) (cwd : option string)
| SetGitBranch (sessionId : string) (branch : option string)
| SetModel (sessionId : string) (model version : option string)
| SubAgent (agentId parentSessionId : string).

Definition ensure (sessionId : string) (v : gmap string View.t)
    : gmap string View.t :=
  match v !! sessionId with
  | Some _ => v
  | None => <[sessionId := View.fresh sessionId]> v
  end.

(** A first-writer-wins write of one attribute of an existing view. *)
Definition write_once (sessionId : string) (f : View.t → View.t)
    (v : gmap string View.t) : gmap string View.t :=
  match v !! sessionId with
  | Some x => <[sessionId := f x]> v
  | None => v
  end.

Definition once_model (model : option string) (x : View.t) : View.t :=
  if JS.truthy model && negb (JS.truthy (View.model x))
  then View.set_model model (SessionManager.parseModelName model) x
  else x.

Definition once_version (version : option string) (x : View.t) : View.t :=
  if JS.truthy version && negb (JS.truthy (View.version x))
  then View.set_version version x
  else x.

Definition once_cwd (cwd : option string) (x : View.t) : View.t :=
  if JS.truthy cwd && negb (JS.truthy (View.cwd x))
  then View.set_cwd cwd x
  else x.

Definition once_gitBranch (branch : option string) (x : View.t) : View.t :=
  if JS.truthy branch && negb (JS.truthy (View.gitBranch x))
  then View.set_gitBranch branch x
  else x.

Definition link (parentSessionId agentId : string) (x : View.t) : View.t :=
  if bool_decide (agentId ∈ View.subAgents x) then x
  else View.set_subAgents (View.subAgents x ++ [agentId]) x.

Definition touch (a : Touch) (v : gmap string View.t)
    : gmap string View.t :=
  match a with
  | Ensure sessionId => ensure sessionId v
  | SetCwd sessionId cwd =>
      write_once sessionId (once_cwd cwd) (ensure sessionId v)
  | SetGitBranch sessionId branch =>
      write_once sessionId (once_gitBranch branch) (ensure sessionId v)
  | SetModel sessionId model version =>
      write_once sessionId
        (λ x, once_version version (once_model model x))
        (ensure sessionId v)
  | SubAgent agentId parentSessionId =>
      match v !! agentId with
      | Some _ => v
      | None =>
          write_once parentSessionId (link parentSessionId agentId)
            (<[agentId :=
                 View.as_subAgent agentId parentSessionId
                   (View.fresh agentId)]> v)
      end
  end.

Definition touch_all (l : list Touch) (v : gmap string View.t)
    : gmap string View.t :=
  foldl (λ v a, touch a v) v l.

(** The touches of one record, in the order [processMessage] makes them. *)
Definition block_touches (effective : string) (b : Block) : list Touch :=
  match b with
  | ToolUseBlock _ _ _ => [Ensure effective]
  | _ => []
  end.

Definition dispatch_touches (effective : string) (data : LogRecord.t)
    : list Touch :=
  match FileWatcher.record_type (LogRecord.type data) with
  | FileWatcher.TUser =>
      match LogRecord.message data with
      | Some message =>
          match MessageBody.content message with
          | ContentString content =>
              if JS.trim_nonempty content
                 && negb (content =? "Warmup")%string
              then [Ensure effective] else []
          | _ => []
          end
      | None => []
      end
  | FileWatcher.TAssistant =>
      match LogRecord.message data with
      | Some message =>
          (if JS.truthy (MessageBody.model message)
           then [SetModel effective (MessageBody.model message)
                   (LogRecord.version data)]
           else [])
          ++ match MessageBody.content message with
             | ContentBlocks blocks =>
                 concat (block_touches effective <$> blocks)
             | _ => []
             end
      | None => []
      end
  | FileWatcher.TQueueOperation =>
      if bool_decide (LogRecord.operation data = Some "dequeue")
      then [Ensure effective] else []
  | _ => []
  end.

Definition record_touches (data : LogRecord.t) (filePath : string)
    : list Touch :=
  match FileWatcher.effectiveSessionId data filePath with
  | None => []
  | Some effective =>
      if negb (JS.truthy (Some effective)) then []
      else
        match LogRecord.sessionId data, LogRecord.agentId data with
        | Some sessionId, Some agentId =>
            if FileWatcher.isSubAgent data filePath
               && JS.truthy (Some sessionId) && JS.truthy (Some agentId)
            then [SubAgent agentId sessionId] else []
        | _, _ => []
        end
        ++ (if JS.truthy (LogRecord.cwd data)
            then [SetCwd effective (LogRecord.cwd data)] else [])
        ++ (if JS.truthy (LogRecord.gitBranch data)
            then [SetGitBranch effective (LogRecord.gitBranch data)] else [])
        ++ dispatch_touches effective data
  end.




(** The whole of a poll's new records, one after the other. *)
Definition processRecords (cfg : Config) (now : Z) (filePath : string)
    (records : list LogRecord.t) (w : FileWatcher.t) : FileWatcher.t :=
  foldl (λ w data, FileWatcher.processMessage cfg now data filePath w)
        w records.

(** Two sessions that differ at most in [lastActivity]. *)
Definition same_but_lastActivity (s s' : Session.t) : Prop :=
  Session.set_lastActivity 0 s = Session.set_lastActivity 0 s'.

(** The two caps of a session. *)
Definition within_caps (cfg : Config) (s : Session.t) : Prop :=
  Z.of_nat (length (Session.toolHistory s)) ≤ MAX_TOOL_HISTORY cfg
  ∧ Z.of_nat (length (Session.messages s)) ≤ MAX_MESSAGES cfg.




(* ================================================================== *)
(** * The origin of a session and its open tool *)
(* ================================================================== *)

(** What a session is born with, what it was asked and what it is doing:
    the start time, the prompt, the todos, and the open tool without the
    clock reading at which it was opened. *)
Module Origin.
Record t := mk {
  startTime : Z;
  prompt : option string;
  todos : option (list string);
  tool : option (string * string * Details)
}.

Definition open_tool (tool : Tool.t) : string * string * Details :=
  (Tool.name tool, Tool.status tool, Tool.details tool).

Definition of_session (s : Session.t) : t :=
  mk (Session.startTime s) (Session.prompt s) (Session.todos s)
     (open_tool <$> Session.currentTool s).

Definition fresh (now : Z) : t := mk now None None None.

Definition set_prompt (v : option string) (x : t) : t :=
  mk (startTime x) v (todos x) (tool x).


(** Closing the tool if it is running. *)
Definition end_running (v : option (string * string * Details))
    : option (string * string * Details) :=
  match v with
  | Some (name, status, details) =>
      if (status =? "running")%string then None else v
  | None => None
  end.

End Origin.










(** What a list of marks comes to for one session: whether it makes the
    session, the prompt asked last, and what becomes of the open tool. *)
Inductive ToolShape :=
| Keep
| EndRunning
| Put (tool : option (string * string * Details)).

Module Shape.
Record t := mk {
  made : bool;
  asked : option string;
  tool : ToolShape
}.


Definition apply_tool (ts : ToolShape)
    (v : option (string * string * Details))
    : option (string * string * Details) :=
  match ts with
  | Keep => v
  | EndRunning => Origin.end_running v
  | Put tool => tool
  end.



Definition fields (sh : t) (x : Origin.t) : Origin.t :=
  Origin.mk (Origin.startTime x)
    (match asked sh with
     | Some prompt => Some prompt
     | None => Origin.prompt x
     end)
    (Origin.todos x) (apply_tool (tool sh) (Origin.tool x)).

Definition apply (now : Z) (sh : t) (e : option Origin.t)
    : option Origin.t :=
  match e with
  | Some x => Some (fields sh x)
  | None => if made sh then Some (fields sh (Origin.fresh now)) else None
  end.



End Shape.

(* ================================================================== *)
(** * Notions of the specification about file discovery *)
(* ================================================================== *)

(** Most recent first. *)
Definition mtime_desc (a b : FileWatcher.FileStat) : Prop :=
  FileWatcher.fs_mtimeMs b ≤ FileWatcher.fs_mtimeMs a.

(** A path below the log root, at any depth. *)
Definition under_root (root path : string) : bool :=
  JS.startsWith (root +:+ "/") path.

(** A candidate log file in the sense of the specification: an existing
    file with the log suffix anywhere below the root. *)
Definition candidate_log_file (fs : FileSystem) (root path : string)
    : Prop :=
  under_root root path = true
  ∧ JS.endsWith ".jsonl" path = true
  ∧ is_Some (statSync fs path).

(** The files the startup scan has started to track. *)
Definition loaded (w : FileWatcher.t) (path : string) : Prop :=
  is_Some (FileWatcher.filePositions w !! path).

(* ================================================================== *)
(** * Example stores and records *)
(* ================================================================== *)

Module Examples.

Definition usage_10_5 : Usage.t := Usage.mk (Some 10) (Some 5) None (Some 2).

(** A session "S", created at time 1000, that received one usage. *)
Definition store_with_tokens : SessionManager.t :=
  perform default_config 2000 (UpdateTokenUsage "S" (Some usage_10_5))
    (perform default_config 1000 (GetOrCreateSession "S" None)
       SessionManager.init).

(** [n] tool invocations in a row in session "S", each one closing the
    one before. *)
Fixpoint tool_run (n : nat) : SessionManager.t :=
  match n with
  | O => SessionManager.init
  | S n' =>
      perform default_config (Z.of_nat n') (StartTool "S" "Bash" [])
        (tool_run n')
  end.

Definition full_history_session : Session.t :=
  Eval vm_compute in
    default (SessionManager.newSession "S" 0)
      (SessionManager.sessions (tool_run 12) !! "S").

(** [n] messages in session "S", the roles alternating. *)
Fixpoint message_run (n : nat) : SessionManager.t :=
  match n with
  | O =>
      perform default_config 0 (GetOrCreateSession "S" None)
        SessionManager.init
  | S n' =>
      perform default_config (Z.of_nat n')
        (AddMessage "S" (if Nat.even n' then "user" else "assistant")
           "hi" None)
        (message_run n')
  end.

Definition full_messages_session : Session.t :=
  Eval vm_compute in
    default (SessionManager.newSession "S" 0)
      (SessionManager.sessions (message_run 20) !! "S").

(** A session "S" created at time 0 and not touched since. *)
Definition quiet_store : SessionManager.t :=
  perform default_config 0 (GetOrCreateSession "S" None)
    SessionManager.init.

(** A session "S" that ran a tool and was then completed. *)
Definition completed_store : SessionManager.t :=
  perform default_config 30 (CompleteSession "S")
    (perform default_config 10 (StartTool "S" "Bash" [])
       SessionManager.init).

(** A session "S" with the tool "Bash" open since time 10. *)
Definition tool_open_store : SessionManager.t :=
  perform default_config 10 (StartTool "S" "Bash" []) SessionManager.init.

Definition error_chunk : StreamParser.Chunk :=
  StreamParser.mkChunk (Some "error") (Some "S") None None (ContentOther None)
    None false.

Fixpoint repeat_char (c : ascii) (n : nat) : string :=
  match n with
  | O => EmptyString
  | S n' => String c (repeat_char c n')
  end.

(** A message of 1001 characters, one more than [addMessage] stores. *)
Definition long_content : string := repeat_char "a" 1001.

(** A decoder that knows two lines. *)
Definition dequeue_S : LogRecord.t :=
  LogRecord.mk (Some "queue-operation") (Some "S") None None None None
    None false None (Some "dequeue") false.

Definition result_S : LogRecord.t :=
  LogRecord.mk (Some "result") (Some "S") None None None None
    None false None None false.

Definition parse_line (line : string) : option LogRecord.t :=
  if (line =? "dequeue S")%string then Some dequeue_S
  else if (line =? "result S")%string then Some result_S
  else None.

Definition log_path : string := "/home/u/.claude/projects/p/s.jsonl".

(** The file after a truncation to zero bytes, and after it grew again. *)
Definition fs_truncated : FileSystem :=
  mkFileSystem (λ _, true) (λ _, None)
    (λ path, if (path =? log_path)%string then Some (Stats.mk 500 0)
             else None)
    (λ path, if (path =? log_path)%string then Some "" else None).

Definition fs_regrown : FileSystem :=
  mkFileSystem (λ _, true) (λ _, None)
    (λ path, if (path =? log_path)%string then Some (Stats.mk 600 10)
             else None)
    (λ path, if (path =? log_path)%string
             then Some (String.append "dequeue S" (String JS.newline ""))
             else None).

(** A watcher that had read 120 bytes of the file. *)
Definition watcher_at_120 : FileWatcher.t :=
  FileWatcher.set_filePosition log_path 120
    (FileWatcher.init SessionManager.init).

Definition log_root : string := "/home/u/.claude/projects".

(** A log root whose only session file lies in a project directory. *)
Definition fs_nested : FileSystem :=
mkFileSystem (λ _, true)
  (λ dir, if (dir =? log_root)%string then Some ["p"]
          else if (dir =? join log_root "p")%string then Some ["s.jsonl"]
          else None)
  (λ path, if (path =? log_path)%string then Some (Stats.mk 9000 100)
           else if (path =? join log_root "p")%string
           then Some (Stats.mk 9000 0)
           else None)
  (λ path, if (path =? log_path)%string
           then Some (String.append "dequeue S" (String JS.newline ""))
           else None).

(** A log root with three session files and another file; [old.jsonl] was
    last written more than ten minutes before time 700000. *)
Definition fs_flat : FileSystem :=
mkFileSystem (λ _, true)
  (λ dir, if (dir =? log_root)%string
          then Some ["a.jsonl"; "notes.txt"; "old.jsonl"; "b.jsonl"]
          else None)
  (λ path, if (path =? join log_root "a.jsonl")%string
           then Some (Stats.mk 690000 10)
           else if (path =? join log_root "b.jsonl")%string
           then Some (Stats.mk 695000 9)
           else if (path =? join log_root "old.jsonl")%string
           then Some (Stats.mk 1000 10)
           else if (path =? join log_root "notes.txt")%string
           then Some (Stats.mk 699000 3)
           else None)
  (λ path, if (path =? join log_root "a.jsonl")%string
           then Some (String.append "dequeue S" (String JS.newline ""))
           else if (path =? join log_root "b.jsonl")%string
           then Some (String.append "result S" (String JS.newline ""))
           else if (path =? join log_root "old.jsonl")%string
           then Some (String.append "dequeue S" (String JS.newline ""))
           else None).




Definition empty_watcher : FileWatcher.t :=
FileWatcher.init SessionManager.init.

(** A record of the sub-agent "A" of session "P". *)
Definition subagent_record : LogRecord.t :=
LogRecord.mk (Some "assistant") (Some "P") (Some "A") None None None None
  false
  (Some (MessageBody.mk (Some "claude-opus-4-5") (Some usage_10_5)
           (ContentBlocks [])))
  None false.

(** A watcher whose store holds the session "P" only. *)
Definition parent_watcher : FileWatcher.t :=
FileWatcher.init
  (perform default_config 0 (GetOrCreateSession "P" None)
     SessionManager.init).

End Examples.

(** What later records may not change in a view: the identity, the linkage
    to a parent, an attribute that has been written; the list of
    sub-agents may only grow at its end. *)
Definition view_kept (x y : View.t) : Prop :=
  View.id y = View.id x
  ∧ (JS.truthy (View.model x) = true →
     View.model y = View.model x ∧ View.modelShort y = View.modelShort x)
  ∧ (JS.truthy (View.version x) = true → View.version y = View.version x)
  ∧ (JS.truthy (View.cwd x) = true → View.cwd y = View.cwd x)
  ∧ (JS.truthy (View.gitBranch x) = true →
     View.gitBranch y = View.gitBranch x)
  ∧ View.parentSessionId y = View.parentSessionId x
  ∧ View.agentId y = View.agentId x
  ∧ View.isSubAgent y = View.isSubAgent x
  ∧ View.subAgents x `prefix_of` View.subAgents y.

Definition views_kept (v v' : gmap string View.t) : Prop :=
  ∀ id x, v !! id = Some x → ∃ y, v' !! id = Some y ∧ view_kept x y.

(** Counters and two usages that [updateTokenUsage] adds exactly: they are
    non-negative, and the sums, [total] included, do not exceed
    [Number.MAX_SAFE_INTEGER]. *)
Definition non_negative (usage : Usage.t) : Prop :=
  0 ≤ JS.or_zero (Usage.input_tokens usage)
  ∧ 0 ≤ JS.or_zero (Usage.output_tokens usage)
  ∧ 0 ≤ JS.or_zero (Usage.cache_read_input_tokens usage)
  ∧ 0 ≤ JS.or_zero (Usage.cache_creation_input_tokens usage).

Definition exact_sums (tk : Tokens.t) (u1 u2 : Usage.t) : Prop :=
  (0 ≤ Tokens.input tk ∧ 0 ≤ Tokens.output tk
   ∧ 0 ≤ Tokens.cacheRead tk ∧ 0 ≤ Tokens.cacheCreation tk)
  ∧ non_negative u1 ∧ non_negative u2
  ∧ Tokens.input tk + JS.or_zero (Usage.input_tokens u1)
    + JS.or_zero (Usage.input_tokens u2)
    + (Tokens.output tk + JS.or_zero (Usage.output_tokens u1)
       + JS.or_zero (Usage.output_tokens u2)) ≤ JS.MAX_SAFE_INTEGER
  ∧ Tokens.cacheRead tk + JS.or_zero (Usage.cache_read_input_tokens u1)
    + JS.or_zero (Usage.cache_read_input_tokens u2) ≤ JS.MAX_SAFE_INTEGER
  ∧ Tokens.cacheCreation tk
    + JS.or_zero (Usage.cache_creation_input_tokens u1)
    + JS.or_zero (Usage.cache_creation_input_tokens u2)
    ≤ JS.MAX_SAFE_INTEGER.

(** The session that [updateTokenUsage] writes, field by field. *)
Definition usage_applied (now : Z) (usage : Usage.t) (s : Session.t)
    : Session.t :=
  let input :=
    Tokens.input (Session.tokens s) + JS.or_zero (Usage.input_tokens usage) in
  let output :=
    Tokens.output (Session.tokens s)
    + JS.or_zero (Usage.output_tokens usage) in
  Session.mk (Session.id s) (Session.startTime s) now (Session.status s)
    (Session.currentTool s) (Session.toolHistory s) (Session.model s)
    (Session.modelShort s) (Session.cwd s) (Session.version s)
    (Session.gitBranch s)
    (Tokens.mk input output
       (Tokens.cacheRead (Session.tokens s)
        + JS.or_zero (Usage.cache_read_input_tokens usage))
       (Tokens.cacheCreation (Session.tokens s)
        + JS.or_zero (Usage.cache_creation_input_tokens usage))
       (input + output))
    match MODEL_PRICING (Session.modelShort s) with
    | Some rates => Dollars (input * fst rates + output * snd rates)
    | None => NaN
    end
    (Session.messages s) (Session.parentSessionId s) (Session.agentId s)
    (Session.subAgents s) (Session.isSubAgent s) (Session.prompt s)
    (Session.todos s).

(* ================================================================== *)
(** * More sample inputs *)
(* ================================================================== *)

Module Samples.

(** A log root with a readable session file and one that has vanished
    between the listing and the stat. *)
Definition fs_broken : FileSystem :=
mkFileSystem (λ _, true)
  (λ dir, if (dir =? Examples.log_root)%string
          then Some ["a.jsonl"; "gone.jsonl"] else None)
  (λ path, if (path =? join Examples.log_root "a.jsonl")%string
           then Some (Stats.mk 690000 10) else None)
  (λ path, if (path =? join Examples.log_root "a.jsonl")%string
           then Some (String.append "dequeue S" (String JS.newline ""))
           else None).



(** A record without any id, and a record of an agent file without agent
    id. *)
Definition anonymous_record : LogRecord.t :=
LogRecord.mk (Some "user") None None None (Some "/tmp") None None false
  None None false.

Definition agent_path : string :=
"/home/u/.claude/projects/p/agent-7.jsonl".

Definition parent_only_record : LogRecord.t :=
LogRecord.mk (Some "user") (Some "P") None None (Some "/tmp") None None
  false None None false.

(** A user record with a prompt. *)
Definition user_record : LogRecord.t :=
LogRecord.mk (Some "user") (Some "S") None None None None None false
  (Some (MessageBody.mk None None (ContentString "fix the bug")))
  None false.

(** A user record whose content is a tabulation and a no-break space. *)
Definition blank_content : string :=
  String (ascii_of_nat 9) (String (ascii_of_nat 160) "").

Definition blank_record : LogRecord.t :=
LogRecord.mk (Some "user") (Some "S") None None None None None false
  (Some (MessageBody.mk None None (ContentString blank_content)))
  None false.


End Samples.

(* ================================================================== *)
(** * Properties *)
(* ================================================================== *)

Import SessionManager.

#[local] Arguments estimateCost : simpl never.
#[local] Arguments parseModelName : simpl never.
#[local] Arguments JS.slice : simpl never.
#[local] Arguments truncate : simpl never.

(** ** Reading the store after a write *)

Lemma sessions_put id s m : sessions (put id s m) = <[id := s]> (sessions m).
Proof. reflexivity. Qed.

Lemma lookup_put id s m : sessions (put id s m) !! id = Some s.
Proof. apply lookup_insert_eq. Qed.

Lemma lookup_put_ne id id' s m :
  id ≠ id' → sessions (put id s m) !! id' = sessions m !! id'.
Proof. intros. by apply lookup_insert_ne. Qed.

Lemma getOrCreateSession_lookup now id ts m :
  sessions (getOrCreateSession now id ts m).2 !! id
  = Some (getOrCreateSession now id ts m).1.
Proof.
  unfold getOrCreateSession.
  destruct (sessions m !! id) eqn:E; [destruct (JS.truthy_num ts)|];
    simpl; rewrite ?lookup_insert_eq; done.
Qed.

Lemma getOrCreateSession_lookup_ne now id id' ts m :
  id ≠ id' →
  sessions (getOrCreateSession now id ts m).2 !! id' = sessions m !! id'.
Proof.
  intros. unfold getOrCreateSession.
  destruct (sessions m !! id); [destruct (JS.truthy_num ts)|];
    simpl; rewrite ?lookup_insert_ne; done.
Qed.

Lemma getOrCreateSession_agents now id ts m :
  agentToSession (getOrCreateSession now id ts m).2 = agentToSession m.
Proof.
  unfold getOrCreateSession.
  destruct (sessions m !! id); [destruct (JS.truthy_num ts)|]; reflexivity.
Qed.

(** ** Every session of a store is a fresh session after some writes *)

Section Follows.

Context (cfg : Config).

Lemma evolves_step s s' s'' :
  evolves cfg s s' → session_step cfg s' s'' → evolves cfg s s''.
Proof. intros. eapply rtc_r; eauto. Qed.

Lemma follows_refl m : follows cfg m m.
Proof. intros id s Hs. left. exists s. split; [done | apply rtc_refl]. Qed.

Lemma follows_trans m1 m2 m3 :
  follows cfg m1 m2 → follows cfg m2 m3 → follows cfg m1 m3.
Proof.
  intros H12 H23 id s3 Hs3.
  destruct (H23 id s3 Hs3) as [(s2 & Hs2 & E23) | (ts & E)].
  - destruct (H12 id s2 Hs2) as [(s1 & Hs1 & E12) | (ts & E)].
    + left. exists s1. split; [done | by etrans].
    + right. exists ts. by etrans.
  - right. by exists ts.
Qed.

Lemma follows_put id s s1 m :
  sessions m !! id = Some s → evolves cfg s s1 →
  follows cfg m (put id s1 m).
Proof.
  intros Hs E id' s' Hs'. rewrite sessions_put in Hs'.
  destruct (decide (id = id')) as [<- | Hne].
  - rewrite lookup_insert_eq in Hs'. injection Hs' as <-.
    left. by exists s.
  - rewrite lookup_insert_ne in Hs' by done.
    left. exists s'. split; [done | apply rtc_refl].
Qed.

Lemma follows_create id ts s1 m :
  evolves cfg (newSession id ts) s1 → follows cfg m (put id s1 m).
Proof.
  intros E id' s' Hs'. rewrite sessions_put in Hs'.
  destruct (decide (id = id')) as [<- | Hne].
  - rewrite lookup_insert_eq in Hs'. injection Hs' as <-.
    right. by exists ts.
  - rewrite lookup_insert_ne in Hs' by done.
    left. exists s'. split; [done | apply rtc_refl].
Qed.

Lemma follows_same_sessions m m' :
  sessions m' = sessions m → follows cfg m m'.
Proof.
  intros E id s Hs. rewrite E in Hs. left. exists s.
  split; [done | apply rtc_refl].
Qed.

End Follows.

(** Closes a goal [evolves cfg s (set_a _ (set_b _ ... s))]. *)
Ltac evolve :=
  repeat first
    [ apply rtc_refl
    | eapply evolves_step; [ | solve [ econstructor; eauto ] ] ].

Section Follows_calls.

Context (cfg : Config).

Lemma getOrCreateSession_follows now id ts m :
  follows cfg m (getOrCreateSession now id ts m).2.
Proof.
  unfold getOrCreateSession.
  destruct (sessions m !! id) as [s|] eqn:E.
  - destruct (JS.truthy_num ts); simpl.
    + apply follows_refl.
    + eapply follows_put; [done | evolve].
  - simpl. eapply follows_create. apply rtc_refl.
Qed.

(** A write on the session that [getOrCreateSession] returned. *)
Lemma follows_after_getOrCreate now id ts m s1 :
  evolves cfg (getOrCreateSession now id ts m).1 s1 →
  follows cfg m (put id s1 (getOrCreateSession now id ts m).2).
Proof.
  intros E. eapply follows_trans; [apply getOrCreateSession_follows|].
  eapply follows_put; [apply getOrCreateSession_lookup | done].
Qed.

Lemma updateModelInfo_follows now id model version m :
  follows cfg m (updateModelInfo now id model version m).
Proof.
  unfold updateModelInfo.
  destruct (getOrCreateSession now id None m) as [s m1] eqn:E.
  pose proof (follows_after_getOrCreate now id None m) as H.
  rewrite E in H. simpl in H. apply H.
  repeat case_match; evolve.
Qed.

Lemma updateCwd_follows now id cwd m :
  follows cfg m (updateCwd now id cwd m).
Proof.
  unfold updateCwd.
  destruct (getOrCreateSession now id None m) as [s m1] eqn:E.
  pose proof (follows_after_getOrCreate now id None m) as H.
  pose proof (getOrCreateSession_follows now id None m) as H'.
  rewrite E in H, H'. simpl in H, H'.
  case_match; [apply H; evolve | done].
Qed.

Lemma updateGitBranch_follows now id branch m :
  follows cfg m (updateGitBranch now id branch m).
Proof.
  unfold updateGitBranch.
  destruct (getOrCreateSession now id None m) as [s m1] eqn:E.
  pose proof (follows_after_getOrCreate now id None m) as H.
  pose proof (getOrCreateSession_follows now id None m) as H'.
  rewrite E in H, H'. simpl in H, H'.
  case_match; [apply H; evolve | done].
Qed.

Lemma updateTokenUsage_follows now id usage m :
  follows cfg m (updateTokenUsage now id usage m).
Proof.
  unfold updateTokenUsage.
  destruct (sessions m !! id) as [s|] eqn:E; [|apply follows_refl].
  destruct usage as [u|]; [|apply follows_refl].
  eapply follows_put; [done | evolve].
Qed.

Lemma addMessage_follows now id role content timestamp m :
  follows cfg m (addMessage cfg now id role content timestamp m).
Proof.
  unfold addMessage.
  destruct (sessions m !! id) as [s|] eqn:E; [|apply follows_refl].
  destruct (content =? "")%string; [apply follows_refl|].
  destruct (last (Session.messages s)) as [lastMsg|];
    [destruct (_ && _); [apply follows_refl|]|];
    (eapply follows_put; [done | cbv zeta; evolve]).
Qed.

Lemma linkSubAgent_follows parent agent m :
  follows cfg m (linkSubAgent parent agent m).
Proof.
  unfold linkSubAgent.
  destruct (sessions m !! parent) as [s|] eqn:E; [|apply follows_refl].
  case_bool_decide; [apply follows_refl|].
  eapply follows_put; [done | evolve].
Qed.

Lemma createSubAgent_follows now agent parent m :
  follows cfg m (createSubAgent now agent parent m).
Proof.
  unfold createSubAgent.
  destruct (sessions m !! agent) as [s|] eqn:E; [apply follows_refl|].
  destruct (getOrCreateSession now agent None m) as [s m1] eqn:E1.
  pose proof (follows_after_getOrCreate now agent None m) as H.
  rewrite E1 in H. simpl in H.
  eapply follows_trans; [|apply linkSubAgent_follows].
  eapply follows_trans;
    [apply (H (Session.set_isSubAgent true
                 (Session.set_parentSessionId (Some parent)
                    (Session.set_agentId (Some agent) s)))); evolve|].
  apply follows_same_sessions. reflexivity.
Qed.

Lemma completeTool_follows now id name status details m :
  follows cfg m (completeTool cfg now id name status details m).
Proof.
  unfold completeTool.
  destruct (sessions m !! id) as [s|] eqn:E; [|apply follows_refl].
  destruct (Session.currentTool s); [|apply follows_refl].
  eapply follows_put; [done | evolve].
Qed.

(** A write on the stored session, read back after some call. *)
Lemma follows_put_default id s0 s1 m :
  is_Some (sessions m !! id) →
  evolves cfg (default s0 (sessions m !! id)) s1 →
  follows cfg m (put id s1 m).
Proof.
  intros [s Hs] E. rewrite Hs in E. simpl in E. by eapply follows_put.
Qed.

Lemma completeTool_keeps now id id' name status details m :
  is_Some (sessions m !! id') →
  is_Some (sessions (completeTool cfg now id name status details m) !! id').
Proof.
  unfold completeTool. intros H.
  destruct (sessions m !! id) as [s|] eqn:E; [|done].
  destruct (Session.currentTool s); [|done].
  rewrite sessions_put.
  destruct (decide (id = id')) as [-> | Hne];
    [rewrite lookup_insert_eq; eauto | by rewrite lookup_insert_ne].
Qed.

Lemma startTool_follows now id name details m :
  follows cfg m (startTool cfg now id name details m).
Proof.
  unfold startTool.
  destruct (getOrCreateSession now id None m) as [s m1] eqn:E1.
  pose proof (getOrCreateSession_follows now id None m) as H.
  pose proof (getOrCreateSession_lookup now id None m) as L.
  rewrite E1 in H, L. simpl in H, L.
  eapply follows_trans; [apply H|].
  destruct (running_tool s) as [tool|].
  - eapply follows_trans; [apply completeTool_follows|].
    eapply follows_put_default; [apply completeTool_keeps; eauto | evolve].
  - eapply follows_put_default; [eauto | evolve].
Qed.

Lemma completeSession_follows now id m :
  follows cfg m (completeSession cfg now id m).
Proof.
  unfold completeSession.
  destruct (sessions m !! id) as [s|] eqn:E; [|apply follows_refl].
  destruct (running_tool s) as [tool|].
  - eapply follows_trans; [apply completeTool_follows|].
    eapply follows_put_default; [apply completeTool_keeps; eauto | evolve].
  - eapply follows_put_default; [eauto | evolve].
Qed.

Lemma updateSessionStatus_follows now id status m :
  follows cfg m (updateSessionStatus now id status m).
Proof.
  unfold updateSessionStatus.
  destruct (sessions m !! id) as [s|] eqn:E; [|apply follows_refl].
  eapply follows_put; [done | evolve].
Qed.

Lemma updateSessionPrompt_follows now id prompt m :
  follows cfg m (updateSessionPrompt now id prompt m).
Proof.
  unfold updateSessionPrompt.
  destruct (getOrCreateSession now id None m) as [s m1] eqn:E.
  pose proof (follows_after_getOrCreate now id None m) as H.
  rewrite E in H. simpl in H. apply H. evolve.
Qed.

Lemma updateTodos_follows now id todos m :
  follows cfg m (updateTodos now id todos m).
Proof.
  unfold updateTodos.
  destruct (sessions m !! id) as [s|] eqn:E; [|apply follows_refl].
  eapply follows_put; [done | evolve].
Qed.

Lemma markActive_follows id m : follows cfg m (markActive id m).
Proof.
  unfold markActive.
  destruct (sessions m !! id) as [s|] eqn:E; [|apply follows_refl].
  eapply follows_put; [done | evolve].
Qed.

Lemma cleanupStaleSessions_follows now m :
  follows cfg m (cleanupStaleSessions cfg now m).
Proof.
  intros id s' Hs'. unfold cleanupStaleSessions in Hs'. simpl in Hs'.
  rewrite lookup_omap in Hs'.
  destruct (sessions m !! id) as [s|] eqn:E; [|done].
  simpl in Hs'. left. exists s. split; [done|].
  unfold sweep_session in Hs'.
  repeat case_match; simplify_eq; evolve.
Qed.

Lemma perform_follows now c m : follows cfg m (perform cfg now c m).
Proof.
  destruct c; simpl;
    auto using getOrCreateSession_follows, updateModelInfo_follows,
      updateCwd_follows, updateGitBranch_follows, updateTokenUsage_follows,
      addMessage_follows, createSubAgent_follows, linkSubAgent_follows,
      startTool_follows, completeTool_follows, completeSession_follows,
      updateSessionStatus_follows, updateSessionPrompt_follows,
      updateTodos_follows, cleanupStaleSessions_follows, markActive_follows.
  intros id s Hs. simpl in Hs. by rewrite lookup_empty in Hs.
Qed.

Lemma reachable_evolves m :
  reachable cfg m →
  ∀ id s, sessions m !! id = Some s →
    ∃ ts, evolves cfg (newSession id ts) s.
Proof.
  induction 1 as [| now c m Hm IH]; intros id s Hs.
  - simpl in Hs. by rewrite lookup_empty in Hs.
  - destruct (perform_follows now c m id s Hs) as [(s0 & Hs0 & E) | H].
    + destruct (IH id s0 Hs0) as [ts E0]. exists ts. by etrans.
    + done.
Qed.

(** A property of fresh sessions that every write keeps holds of every
    session of every reachable store. *)
Lemma reachable_invariant (P : Session.t → Prop) :
  (∀ id ts, P (newSession id ts)) →
  (∀ s s', P s → session_step cfg s s' → P s') →
  ∀ m, reachable cfg m →
    ∀ id s, sessions m !! id = Some s → P s.
Proof.
  intros Hnew Hstep m Hm id s Hs.
  destruct (reachable_evolves m Hm id s Hs) as [ts E].
  eapply (rtc_ind_r P); [apply Hnew | | exact E].
  intros y z _ Hyz Py. eauto.
Qed.

End Follows_calls.

(** ** The reconciler and the stream parser only make calls of the store *)

Create HintDb reach.

Section Reachable_calls.

Context (cfg : Config).

Local Abbreviation R := (reachable cfg).

Lemma getOrCreateSession_reachable now id ts m :
  R m → R (getOrCreateSession now id ts m).2.
Proof. exact (reachable_perform cfg now (GetOrCreateSession id ts) m). Qed.

Lemma updateModelInfo_reachable now id model version m :
  R m → R (updateModelInfo now id model version m).
Proof.
  exact (reachable_perform cfg now (UpdateModelInfo id model version) m).
Qed.

Lemma updateCwd_reachable now id cwd m : R m → R (updateCwd now id cwd m).
Proof. exact (reachable_perform cfg now (UpdateCwd id cwd) m). Qed.

Lemma updateGitBranch_reachable now id branch m :
  R m → R (updateGitBranch now id branch m).
Proof. exact (reachable_perform cfg now (UpdateGitBranch id branch) m). Qed.

Lemma updateTokenUsage_reachable now id usage m :
  R m → R (updateTokenUsage now id usage m).
Proof. exact (reachable_perform cfg now (UpdateTokenUsage id usage) m). Qed.

Lemma addMessage_reachable now id role content ts m :
  R m → R (addMessage cfg now id role content ts m).
Proof.
  exact (reachable_perform cfg now (AddMessage id role content ts) m).
Qed.

Lemma createSubAgent_reachable now agent parent m :
  R m → R (createSubAgent now agent parent m).
Proof. exact (reachable_perform cfg now (CreateSubAgent agent parent) m). Qed.

Lemma startTool_reachable now id name details m :
  R m → R (startTool cfg now id name details m).
Proof. exact (reachable_perform cfg now (StartTool id name details) m). Qed.

Lemma completeTool_reachable now id name status details m :
  R m → R (completeTool cfg now id name status details m).
Proof.
  exact (reachable_perform cfg now (CompleteTool id name status details) m).
Qed.

Lemma completeSession_reachable now id m :
  R m → R (completeSession cfg now id m).
Proof. exact (reachable_perform cfg now (CompleteSession id) m). Qed.

Lemma updateSessionStatus_reachable now id status m :
  R m → R (updateSessionStatus now id status m).
Proof. exact (reachable_perform cfg now (UpdateSessionStatus id status) m). Qed.

Lemma updateSessionPrompt_reachable now id prompt m :
  R m → R (updateSessionPrompt now id prompt m).
Proof. exact (reachable_perform cfg now (UpdateSessionPrompt id prompt) m). Qed.

Lemma updateTodos_reachable now id todos m :
  R m → R (updateTodos now id todos m).
Proof. exact (reachable_perform cfg now (UpdateTodos id todos) m). Qed.

Lemma markActive_reachable id m : R m → R (markActive id m).
Proof. exact (reachable_perform cfg 0 (MarkActive id) m). Qed.

#[local] Hint Resolve getOrCreateSession_reachable updateModelInfo_reachable
  updateCwd_reachable updateGitBranch_reachable updateTokenUsage_reachable
  addMessage_reachable createSubAgent_reachable startTool_reachable
  completeTool_reachable completeSession_reachable
  updateSessionStatus_reachable updateSessionPrompt_reachable
  updateTodos_reachable markActive_reachable : reach.

Lemma foldl_reachable {A} (f : SessionManager.t → A → SessionManager.t)
    (l : list A) :
  (∀ m a, R m → R (f m a)) → ∀ m, R m → R (foldl f m l).
Proof. intros Hf. induction l as [|a l IH]; simpl; auto. Qed.

Lemma dispatch_reachable now id data m :
  R m → R (FileWatcher.dispatch cfg now id data m).
Proof.
  intros Hm. unfold FileWatcher.dispatch.
  destruct (FileWatcher.record_type _).
  - unfold FileWatcher.handleUserMessage.
    repeat case_match; auto with reach.
  - unfold FileWatcher.handleAssistantMessage.
    destruct (LogRecord.message data) as [message|]; [|done].
    assert (R (if JS.truthy (MessageBody.model message)
               then updateModelInfo now id (MessageBody.model message)
                      (LogRecord.version data) m
               else m)) as H1 by (case_match; auto with reach).
    revert H1. generalize (if JS.truthy (MessageBody.model message)
               then updateModelInfo now id (MessageBody.model message)
                      (LogRecord.version data) m
               else m). intros m1 H1.
    assert (R (match MessageBody.usage message with
               | Some usage => updateTokenUsage now id (Some usage) m1
               | None => m1
               end)) as H2 by (case_match; auto with reach).
    revert H2. generalize (match MessageBody.usage message with
               | Some usage => updateTokenUsage now id (Some usage) m1
               | None => m1
               end). intros m2 H2.
    destruct (MessageBody.content message); try done.
    apply foldl_reachable; [|done].
    intros m' b Hm'. unfold FileWatcher.handleBlock, FileWatcher.handleToolUse.
    repeat case_match; auto with reach.
  - unfold FileWatcher.handleToolResult.
    repeat case_match; auto with reach.
  - auto with reach.
  - case_match; auto with reach.
  - done.
Qed.

Lemma processMessage_reachable now data filePath w :
  R (FileWatcher.sessionManager w) →
  R (FileWatcher.sessionManager
       (FileWatcher.processMessage cfg now data filePath w)).
Proof.
  intros Hw. unfold FileWatcher.processMessage.
  destruct (FileWatcher.effectiveSessionId data filePath) as [eff|]; [|done].
  destruct (negb (JS.truthy (Some eff))); [done|].
  simpl. apply dispatch_reachable.
  repeat case_match; simpl; auto with reach.
Qed.

Lemma parseStreamChunk_reachable now jsonData m :
  R m → R (StreamParser.parseStreamChunk cfg now jsonData m).
Proof.
  intros Hm. unfold StreamParser.parseStreamChunk.
  destruct (StreamParser.chunk_type _); auto with reach.
  - destruct (StreamParser.content jsonData); try done.
    apply foldl_reachable; [|done].
    intros m' b Hm'. unfold StreamParser.handleToolUse.
    case_match; auto with reach.
  - unfold StreamParser.handleToolResult. auto with reach.
Qed.

End Reachable_calls.

(** ** The watcher only makes calls of the store *)

Section Reachable_watcher.

Context (cfg : Config) (PROJECTS_DIR : string).
Context (JSON_parse : string → option LogRecord.t).
Context (JSON_parse_todos : string → option (list string)).

Lemma foldl_watcher_reachable {A}
    (f : FileWatcher.t → A → FileWatcher.t) (l : list A) :
  (∀ w a, reachable cfg (FileWatcher.sessionManager w) →
          reachable cfg (FileWatcher.sessionManager (f w a))) →
  ∀ w, reachable cfg (FileWatcher.sessionManager w) →
       reachable cfg (FileWatcher.sessionManager (foldl f w l)).
Proof. intros Hf. induction l as [|a l IH]; simpl; auto. Qed.

Lemma processNewLines_reachable fs now filePath w :
  reachable cfg (FileWatcher.sessionManager w) →
  reachable cfg
    (FileWatcher.sessionManager
       (FileWatcher.processNewLines cfg JSON_parse fs now filePath w)).
Proof.
  intros Hw. unfold FileWatcher.processNewLines.
  repeat case_match; try done.
  apply foldl_watcher_reachable; [|done].
  intros w' line Hw'. unfold FileWatcher.processLine.
  case_match; [by apply processMessage_reachable | done].
Qed.

Lemma scan_load_reachable fs now recentFiles w f :
  reachable cfg (FileWatcher.sessionManager w) →
  reachable cfg
    (FileWatcher.sessionManager
       (FileWatcher.scan_load cfg JSON_parse fs now recentFiles w f)).
Proof.
  intros Hw. unfold FileWatcher.scan_load.
  destruct (FileWatcher.extractSessionIdFromFile _ _ _) as [sessionId|];
    [|done].
  simpl FileWatcher.sessionManager.
  pose proof (getOrCreateSession_reachable cfg now sessionId
                (Some (FileWatcher.fs_mtimeMs f))
                (FileWatcher.sessionManager w) Hw) as H1.
  pose proof (getOrCreateSession_lookup now sessionId
                (Some (FileWatcher.fs_mtimeMs f))
                (FileWatcher.sessionManager w)) as L.
  destruct (getOrCreateSession _ _ _ _) as [session m1].
  simpl in H1, L.
  apply processNewLines_reachable. simpl.
  destruct (_ && _); [|done].
  assert (put sessionId (Session.set_status "active" session) m1
          = markActive sessionId m1) as ->
    by (unfold markActive; by rewrite L).
  by apply markActive_reachable.
Qed.

Lemma scanExistingSessions_reachable fs now w :
  reachable cfg (FileWatcher.sessionManager w) →
  reachable cfg
    (FileWatcher.sessionManager
       (FileWatcher.scanExistingSessions cfg PROJECTS_DIR JSON_parse fs now
          w)).
Proof.
  intros Hw. unfold FileWatcher.scanExistingSessions.
  repeat case_match; try done.
  apply foldl_watcher_reachable; [|done].
  intros. by apply scan_load_reachable.
Qed.

Lemma handleFileAdded_reachable fs now filePath w :
  reachable cfg (FileWatcher.sessionManager w) →
  reachable cfg
    (FileWatcher.sessionManager
       (FileWatcher.handleFileAdded cfg JSON_parse fs now filePath w)).
Proof.
  intros Hw. unfold FileWatcher.handleFileAdded.
  repeat case_match; try done. by apply processNewLines_reachable.
Qed.

Lemma handleFileChanged_reachable fs now filePath w :
  reachable cfg (FileWatcher.sessionManager w) →
  reachable cfg
    (FileWatcher.sessionManager
       (FileWatcher.handleFileChanged cfg JSON_parse fs now filePath w)).
Proof.
  intros Hw. unfold FileWatcher.handleFileChanged.
  apply processNewLines_reachable. repeat case_match; done.
Qed.

Lemma handleTodoChanged_reachable fs now filePath w :
  reachable cfg (FileWatcher.sessionManager w) →
  reachable cfg
    (FileWatcher.sessionManager
       (FileWatcher.handleTodoChanged JSON_parse_todos fs now filePath w)).
Proof.
  intros Hw. unfold FileWatcher.handleTodoChanged.
  repeat case_match; try done. simpl. by apply updateTodos_reachable.
Qed.

End Reachable_watcher.

(** ** Token counters *)



(** [updateTokenUsage] establishes the equation on the session it writes,
    whatever the store it starts from. *)
Lemma updateTokenUsage_total now id usage m s :
  sessions m !! id = Some s →
  ∃ s', sessions (updateTokenUsage now id (Some usage) m) !! id = Some s'
        ∧ Tokens.total (Session.tokens s')
          = Tokens.input (Session.tokens s')
            + Tokens.output (Session.tokens s')
        ∧ Tokens.input (Session.tokens s')
          = Tokens.input (Session.tokens s)
            + JS.or_zero (Usage.input_tokens usage).
Proof.
  intros Hs. unfold updateTokenUsage. rewrite Hs.
  eexists. split; [apply lookup_put|]. simpl. done.
Qed.

(** ** Bounded histories *)

Lemma slice_prefix {A} (n : Z) (l : list A) :
  0 ≤ n → JS.slice 0 (Some n) l = take (Z.to_nat n) l.
Proof.
  intros Hn. unfold JS.slice, JS.slice_index. simpl.
  destruct (n <? 0) eqn:E; [lia|].
  rewrite (Z.min_l 0) by lia. rewrite Z.sub_0_r.
  change (Z.to_nat 0) with 0%nat. rewrite drop_0.
  destruct (decide (n ≤ Z.of_nat (length l))).
  - by rewrite Z.min_l by lia.
  - rewrite Z.min_r by lia. rewrite Nat2Z.id.
    rewrite !take_ge by lia. done.
Qed.

Lemma slice_suffix {A} (n : Z) (l : list A) :
  0 < n → JS.slice (- n) None l = drop (length l - Z.to_nat n) l.
Proof.
  intros Hn. unfold JS.slice, JS.slice_index.
  destruct (- n <? 0) eqn:E; [|lia].
  replace (Z.to_nat (Z.max (Z.of_nat (length l) + - n) 0))
    with (length l - Z.to_nat n)%nat by lia.
  apply take_ge. rewrite length_drop. lia.
Qed.

Lemma take_cons_removelast {A} (x : A) (l : list A) :
  l ≠ [] → take (length l) (x :: l) = x :: removelast l.
Proof.
  revert x. induction l as [|y l IH]; intros x Hl; [done|].
  simpl length. rewrite firstn_cons.
  destruct l as [|z l]; [done|].
  rewrite IH by done. done.
Qed.

Lemma session_step_within_caps cfg s s' :
  0 < MAX_TOOL_HISTORY cfg → 0 < MAX_MESSAGES cfg →
  within_caps cfg s → session_step cfg s s' → within_caps cfg s'.
Proof.
  intros Hh Hm [H1 H2] Hstep. unfold within_caps.
  destruct Hstep; simpl; try done.
  - split; [|done].
    match goal with |- context [if ?c then _ else _] => destruct c eqn:E end.
    + rewrite slice_prefix by lia. rewrite length_take. lia.
    + apply Z.ltb_ge in E. done.
  - split; [done|].
    match goal with |- context [if ?c then _ else _] => destruct c eqn:E end.
    + rewrite slice_suffix by lia. rewrite length_drop. lia.
    + apply Z.ltb_ge in E. done.
Qed.

Lemma drop_one_snoc {A} (l : list A) (x : A) :
  l ≠ [] → drop 1 (l ++ [x]) = tail l ++ [x].
Proof. destruct l; done. Qed.

(** C6.  With positive caps, in every reachable store [toolHistory] and
    [messages] stay within [MAX_TOOL_HISTORY] and [MAX_MESSAGES]; and a
    completion (resp. an append) on a list that is full drops the oldest
    entry: the last one of the newest-first [toolHistory], the first one of
    the oldest-first [messages]. *)
Theorem history_caps cfg :
  0 < MAX_TOOL_HISTORY cfg → 0 < MAX_MESSAGES cfg →
  (∀ m, reachable cfg m →
     ∀ id s, sessions m !! id = Some s → within_caps cfg s)
  ∧ (∀ now id name status details m s tool,
       sessions m !! id = Some s →
       Session.currentTool s = Some tool →
       Z.of_nat (length (Session.toolHistory s)) = MAX_TOOL_HISTORY cfg →
       ∃ s',
         sessions (completeTool cfg now id name status details m) !! id
         = Some s'
         ∧ Session.toolHistory s'
           = HistoryEntry.mk name (now - Tool.startTime tool) status now
               details
             :: removelast (Session.toolHistory s))
  ∧ (∀ now id role content timestamp m s,
       sessions m !! id = Some s →
       content ≠ "" →
       (∀ lastMsg, last (Session.messages s) = Some lastMsg →
          ¬ (Message.content lastMsg = content
             ∧ Message.role lastMsg = role)) →
       Z.of_nat (length (Session.messages s)) = MAX_MESSAGES cfg →
       ∃ s' msg,
         sessions (addMessage cfg now id role content timestamp m) !! id
         = Some s'
         ∧ Session.messages s' = tail (Session.messages s) ++ [msg]
         ∧ Message.role msg = role
         ∧ Message.content msg = truncate (Some content) 1000).
Proof.
  intros Hh Hm. split; [|split].
  - apply (reachable_invariant cfg (within_caps cfg)).
    + intros id ts. unfold within_caps. simpl. lia.
    + intros s s' Hs Hstep. by eapply session_step_within_caps.
  - intros now id name status details m s tool Hs Htool Hlen.
    unfold completeTool. rewrite Hs, Htool.
    eexists. split; [apply lookup_put|]. simpl Session.toolHistory.
    assert (Session.toolHistory s ≠ []) as Hne
      by (intros E; rewrite E in Hlen; simpl in Hlen; lia).
    destruct (MAX_TOOL_HISTORY cfg <? _) eqn:E.
    + rewrite slice_prefix by lia. rewrite <- Hlen, Nat2Z.id.
      by apply take_cons_removelast.
    + apply Z.ltb_ge in E. simpl length in E. lia.
  - intros now id role content timestamp m s Hs Hc Hdup Hlen.
    unfold addMessage. rewrite Hs.
    destruct (content =? "")%string eqn:Ec;
      [by apply String.eqb_eq in Ec|].
    assert (match last (Session.messages s) with
            | Some lastMsg =>
                (Message.content lastMsg =? content)%string
                && (Message.role lastMsg =? role)%string
            | None => false
            end = false) as ->.
    { destruct (last (Session.messages s)) as [lastMsg|] eqn:El; [|done].
      apply andb_false_iff.
      destruct (Message.content lastMsg =? content)%string eqn:E1; [|by left].
      destruct (Message.role lastMsg =? role)%string eqn:E2; [|by right].
      apply String.eqb_eq in E1, E2. by destruct (Hdup lastMsg). }
    cbv zeta.
    assert (Session.messages s ≠ []) as Hne
      by (intros E; rewrite E in Hlen; simpl in Hlen; lia).
    eexists. eexists. split; [apply lookup_put|]. simpl Session.messages.
    destruct (MAX_MESSAGES cfg <? _) eqn:E.
    + rewrite slice_suffix by lia. rewrite length_app. simpl length.
      replace (length (Session.messages s) + 1 - Z.to_nat (MAX_MESSAGES cfg))%nat
        with 1%nat by lia.
      rewrite drop_one_snoc by done. split; [reflexivity|]. done.
    + apply Z.ltb_ge in E. rewrite length_app in E. simpl length in E. lia.
Qed.

(** The caps at the default configuration: twelve tool invocations leave
    ten entries of history, and the eleventh completion and the
    twenty-first message each drop the oldest entry. *)
Lemma history_caps_witness :
  within_caps default_config Examples.full_history_session
  ∧ length (Session.toolHistory Examples.full_history_session) = 10%nat
  ∧ (∃ s',
       sessions (completeTool default_config 99 "S" "Bash" "failed" []
                   (Examples.tool_run 12)) !! "S" = Some s'
       ∧ Session.toolHistory s'
         = HistoryEntry.mk "Bash" 88 "failed" 99 []
           :: removelast (Session.toolHistory Examples.full_history_session))
  ∧ (∃ s' msg,
       sessions (addMessage default_config 99 "S" "user" "bye" None
                   (Examples.message_run 20)) !! "S" = Some s'
       ∧ Session.messages s'
         = tail (Session.messages Examples.full_messages_session) ++ [msg]
       ∧ Message.role msg = "user"
       ∧ Message.content msg = "bye").
Proof.
  assert (0 < MAX_TOOL_HISTORY default_config) as Hh by (vm_compute; done).
  assert (0 < MAX_MESSAGES default_config) as Hm by (vm_compute; done).
  destruct (history_caps default_config Hh Hm) as (Hcaps & Hhist & Hmsgs).
  split; [|split; [|split]].
  - apply (Hcaps (Examples.tool_run 12)) with (id := "S").
    + repeat constructor.
    + vm_compute; reflexivity.
  - reflexivity.
  - apply (Hhist 99 "S" "Bash" "failed" [] (Examples.tool_run 12)
             Examples.full_history_session
             (Tool.mk "Bash" 11 "running" [])).
    + vm_compute; reflexivity.
    + reflexivity.
    + reflexivity.
  - apply (Hmsgs 99 "S" "user" "bye" None (Examples.message_run 20)
             Examples.full_messages_session).
    + vm_compute; reflexivity.
    + discriminate.
    + intros lastMsg Hl. vm_compute in Hl. injection Hl as <-.
      intros [H _]. discriminate H.
    + reflexivity.
Defined.

(** ** Tool executions and the status of a session *)

Lemma completeTool_lookup_same cfg now id name status details m s :
  sessions m !! id = Some s →
  ∃ s',
    sessions (completeTool cfg now id name status details m) !! id = Some s'
    ∧ Session.id s' = Session.id s
    ∧ Session.startTime s' = Session.startTime s.
Proof.
  intros Hs. unfold completeTool. rewrite Hs.
  destruct (Session.currentTool s); [|eauto].
  eexists. split; [apply lookup_put | done].
Qed.

(** C10.  [startTool] on an existing session leaves it with status
    ['active'], [lastActivity] at the clock reading and the new tool
    running, whatever its status was before; the session keeps its identity
    and start time.  So a session that was ['completed'], ['error'] or
    ['idle'] is active again. *)
Theorem startTool_reactivates cfg now id toolName details m s :
  sessions m !! id = Some s →
  ∃ s',
    sessions (startTool cfg now id toolName details m) !! id = Some s'
    ∧ Session.status s' = "active"
    ∧ Session.lastActivity s' = now
    ∧ Session.currentTool s' = Some (Tool.mk toolName now "running" details)
    ∧ Session.id s' = Session.id s
    ∧ Session.startTime s' = Session.startTime s.
Proof.
  intros Hs. unfold startTool, getOrCreateSession. rewrite Hs. simpl.
  set (s0 := Session.set_lastActivity now s). set (m1 := put id s0 m).
  assert (sessions m1 !! id = Some s0) as L by apply lookup_put.
  assert (∃ s1,
            sessions
              match running_tool s0 with
              | Some tool =>
                  completeTool cfg now id (Tool.name tool) "completed" [] m1
              | None => m1
              end !! id = Some s1
            ∧ Session.id s1 = Session.id s
            ∧ Session.startTime s1 = Session.startTime s)
    as (s1 & L1 & I1 & I2).
  { destruct (running_tool s0) as [tool|].
    - destruct (completeTool_lookup_same cfg now id (Tool.name tool)
                  "completed" [] m1 s0 L) as (s' & ? & ? & ?).
      exists s'. auto.
    - exists s0. auto. }
  eexists. split; [apply lookup_put|]. rewrite L1. simpl. done.
Qed.

(** A completed session is active again after [startTool]. *)
Lemma startTool_reactivates_witness :
  (∃ s, sessions Examples.completed_store !! "S" = Some s
        ∧ Session.status s = "completed")
  ∧ ∃ s',
      sessions (startTool default_config 50 "S" "Read" []
                  Examples.completed_store) !! "S" = Some s'
      ∧ Session.status s' = "active"
      ∧ Session.lastActivity s' = 50.
Proof.
  split; [eexists; split; vm_compute; reflexivity|].
  destruct (startTool_reactivates default_config 50 "S" "Read" []
              Examples.completed_store
              (default (newSession "S" 0)
                 (sessions Examples.completed_store !! "S")))
    as (s' & H1 & H2 & H3 & _).
  - vm_compute; reflexivity.
  - exists s'. auto.
Defined.

(** ** The staleness sweep *)

Lemma cleanupStaleSessions_lookup cfg now m id :
  sessions (cleanupStaleSessions cfg now m) !! id
  = sessions m !! id ≫= sweep_session cfg now.
Proof. unfold cleanupStaleSessions. simpl. apply lookup_omap. Qed.

(** C4, as the code has it.  For a session with status ['active'] and no
    open tool: the sweep turns it idle when its inactivity is strictly
    above the idle threshold (and not above the removal timeout); at the
    threshold exactly, or below it, the sweep never turns it idle: the
    session is left as it is (or removed, if the removal timeout is
    exceeded). *)
Theorem sweep_idle_threshold cfg now m id s :
  sessions m !! id = Some s →
  Session.status s = "active" →
  Session.currentTool s = None →
  (IDLE_THRESHOLD_MS cfg < now - Session.lastActivity s
                         ≤ SESSION_TIMEOUT_MS cfg →
   sessions (cleanupStaleSessions cfg now m) !! id
   = Some (Session.set_status "idle" s))
  ∧ (now - Session.lastActivity s ≤ IDLE_THRESHOLD_MS cfg →
     now - Session.lastActivity s ≤ SESSION_TIMEOUT_MS cfg →
     sessions (cleanupStaleSessions cfg now m) !! id = Some s)
  ∧ (now - Session.lastActivity s ≤ IDLE_THRESHOLD_MS cfg →
     ∀ s', sessions (cleanupStaleSessions cfg now m) !! id = Some s' →
           s' = s).
Proof.
  intros Hs Hactive Htool.
  rewrite cleanupStaleSessions_lookup, Hs. simpl.
  unfold sweep_session. rewrite Hactive, Htool. simpl.
  split; [|split].
  - intros [H1 H2].
    destruct (SESSION_TIMEOUT_MS cfg <? _) eqn:E1; [lia|].
    destruct (IDLE_THRESHOLD_MS cfg <? _) eqn:E2; [done|lia].
  - intros H1 H2.
    destruct (SESSION_TIMEOUT_MS cfg <? _) eqn:E1; [lia|].
    destruct (IDLE_THRESHOLD_MS cfg <? _) eqn:E2; [lia|done].
  - intros H1 s'.
    destruct (SESSION_TIMEOUT_MS cfg <? _) eqn:E1; [done|].
    destruct (IDLE_THRESHOLD_MS cfg <? _) eqn:E2; [lia|].
    by intros [= <-].
Qed.

(** With the default threshold of 30000 ms: idle at 30001 ms of
    inactivity, unchanged at 30000 ms. *)
Lemma sweep_idle_threshold_witness :
  sessions (cleanupStaleSessions default_config 30001 Examples.quiet_store)
    !! "S"
  = Some (Session.set_status "idle" (newSession "S" 0))
  ∧ sessions (cleanupStaleSessions default_config 30000 Examples.quiet_store)
      !! "S"
    = Some (newSession "S" 0).
Proof.
  split.
  - apply (sweep_idle_threshold default_config 30001 Examples.quiet_store
             "S" (newSession "S" 0)).
    + vm_compute; reflexivity.
    + reflexivity.
    + reflexivity.
    + vm_compute. split; [reflexivity | discriminate].
  - apply (sweep_idle_threshold default_config 30000 Examples.quiet_store
             "S" (newSession "S" 0)).
    + vm_compute; reflexivity.
    + reflexivity.
    + reflexivity.
    + vm_compute; discriminate.
    + vm_compute; discriminate.
Defined.

(** C4, as stated, fails: a session that is active, has no open tool and
    has been inactive for exactly [IDLE_THRESHOLD_MS] is still active after
    the sweep. *)
Lemma sweep_at_threshold_counterexample :
  ∃ s,
    sessions Examples.quiet_store !! "S" = Some s
    ∧ Session.status s = "active"
    ∧ Session.currentTool s = None
    ∧ 30000 - Session.lastActivity s = IDLE_THRESHOLD_MS default_config
    ∧ ∃ s',
        sessions (cleanupStaleSessions default_config 30000
                    Examples.quiet_store) !! "S" = Some s'
        ∧ Session.status s' = "active"
        ∧ Session.status s' ≠ "idle".
Proof.
  exists (newSession "S" 0).
  repeat split; try (vm_compute; reflexivity).
  exists (newSession "S" 0).
  repeat split; try (vm_compute; reflexivity).
  discriminate.
Qed.

(** ** Consecutive duplicate messages *)

Lemma last_trimmed_snoc {A} (n : Z) (l : list A) (x : A) :
  0 < n →
  last (if n <? Z.of_nat (length (l ++ [x]))
        then JS.slice (- n) None (l ++ [x]) else l ++ [x]) = Some x.
Proof.
  intros Hn. destruct (n <? _); [|apply last_snoc].
  rewrite slice_suffix by done. rewrite length_app. simpl length.
  rewrite drop_app_le by lia. apply last_snoc.
Qed.

Lemma truncate_short content n :
  (String.length content ≤ n)%nat → truncate (Some content) n = content.
Proof.
  intros H. unfold truncate.
  destruct (String.length content <=? n)%nat eqn:E; [done|].
  apply Nat.leb_gt in E. lia.
Qed.

(** The suppression works for a message that is stored whole: with a
    positive cap, a second [addMessage] of the same role and of the same
    content of at most 1000 characters changes nothing. *)
Lemma addMessage_twice_short cfg now1 now2 id role content ts1 ts2 m :
  0 < MAX_MESSAGES cfg →
  (String.length content ≤ 1000)%nat →
  addMessage cfg now2 id role content ts2
    (addMessage cfg now1 id role content ts1 m)
  = addMessage cfg now1 id role content ts1 m.
Proof.
  intros Hcap Hlen.
  unfold addMessage at 2.
  destruct (sessions m !! id) as [s|] eqn:Hs;
    [|by unfold addMessage; rewrite Hs].
  destruct (content =? "")%string eqn:Ec;
    [by unfold addMessage; rewrite Hs, Ec|].
  destruct (match last (Session.messages s) with
            | Some lastMsg =>
                (Message.content lastMsg =? content)%string
                && (Message.role lastMsg =? role)%string
            | None => false
            end) eqn:Hd.
  - unfold addMessage. by rewrite Hs, Ec, Hd.
  - cbv zeta. unfold addMessage. rewrite lookup_put, Hs.
    cbv beta iota zeta. rewrite Ec, Hd.
    simpl Session.messages. rewrite last_trimmed_snoc by done.
    simpl. rewrite truncate_short by done.
    rewrite !String.eqb_refl. reflexivity.
Qed.

(** C7 at a content of 1001 characters: the stored content is the first
    1000 characters followed by an ellipsis, the second call compares it
    with the whole content, finds them different and stores the message
    again.  The session holds two entries after the two calls. *)
Theorem addMessage_long_duplicate_stored_twice :
  let m1 :=
    addMessage default_config 10 "S" "user" Examples.long_content None
      Examples.quiet_store in
  let m2 :=
    addMessage default_config 20 "S" "user" Examples.long_content None m1 in
  (∃ s, sessions m1 !! "S" = Some s
        ∧ length (Session.messages s) = 1%nat)
  ∧ (∃ s, sessions m2 !! "S" = Some s
          ∧ length (Session.messages s) = 2%nat
          ∧ Message.content <$> Session.messages s
            = [truncate (Some Examples.long_content) 1000;
               truncate (Some Examples.long_content) 1000]
          ∧ Message.role <$> Session.messages s = ["user"; "user"]).
Proof.
  split; eexists; (split; [vm_compute; reflexivity|]);
    repeat split; vm_compute; reflexivity.
Qed.

(** ** Status and open tool *)

Lemma updateSessionStatus_lookup now id status m s :
  sessions m !! id = Some s →
  sessions (updateSessionStatus now id status m) !! id
  = Some (Session.set_lastActivity now (Session.set_status status s)).
Proof.
  intros Hs. unfold updateSessionStatus. rewrite Hs. apply lookup_put.
Qed.

(** [updateSessionStatus] writes the status and the activity time and
    nothing else: an open tool stays open. *)
Lemma updateSessionStatus_keeps_tool now id status m s :
  sessions m !! id = Some s →
  ∃ s', sessions (updateSessionStatus now id status m) !! id = Some s'
        ∧ Session.status s' = status
        ∧ Session.currentTool s' = Session.currentTool s.
Proof.
  intros Hs. eexists. split; [by apply updateSessionStatus_lookup | done].
Qed.

(** In a reachable store an open tool has status ['running']. *)
Lemma reachable_tool_running cfg m :
  reachable cfg m →
  ∀ id s tool, sessions m !! id = Some s →
    Session.currentTool s = Some tool → Tool.status tool = "running".
Proof.
  intros Hm id s tool Hs.
  revert tool.
  apply (reachable_invariant cfg
           (λ s, ∀ tool, Session.currentTool s = Some tool
                         → Tool.status tool = "running")) with m id;
    [| |done..].
  - intros ? ? tool. discriminate.
  - intros s1 s2 H1 Hstep. destruct Hstep; simpl; auto.
    + intros tool [= <-]. done.
    + discriminate.
Qed.

(** [completeSession] closes the open tool of a session of a reachable
    store before it writes the status. *)
Lemma completeSession_closes_tool cfg now id m s :
  reachable cfg m →
  sessions m !! id = Some s →
  ∃ s', sessions (completeSession cfg now id m) !! id = Some s'
        ∧ Session.status s' = "completed"
        ∧ Session.currentTool s' = None.
Proof.
  intros Hm Hs. unfold completeSession. rewrite Hs.
  eexists. split; [apply lookup_put|]. simpl. split; [done|].
  unfold running_tool.
  destruct (Session.currentTool s) as [tool|] eqn:Ht.
  - rewrite (reachable_tool_running cfg m Hm id s tool Hs Ht). simpl.
    unfold completeTool. rewrite Hs, Ht. by rewrite lookup_put.
  - by rewrite Hs.
Qed.

(** C5 on the error path.  With the tool "Bash" open in session "S", the
    chunk [{type: 'error', session_id: 'S'}] leaves the session with status
    ['error'] and the tool still open; the completion path closes it. *)
Theorem error_status_keeps_tool_open :
  (∃ s, sessions Examples.tool_open_store !! "S" = Some s
        ∧ Session.currentTool s = Some (Tool.mk "Bash" 10 "running" []))
  ∧ (∃ s',
       sessions (StreamParser.parseStreamChunk default_config 20
                   Examples.error_chunk Examples.tool_open_store) !! "S"
       = Some s'
       ∧ Session.status s' = "error"
       ∧ Session.currentTool s' = Some (Tool.mk "Bash" 10 "running" []))
  ∧ (∃ s',
       sessions (completeSession default_config 20 "S"
                   Examples.tool_open_store) !! "S" = Some s'
       ∧ Session.status s' = "completed"
       ∧ Session.currentTool s' = None).
Proof.
  split; [|split]; eexists; (split; [vm_compute; reflexivity|]);
    repeat split; vm_compute; reflexivity.
Qed.

(** ** The offset tracker *)

Lemma substring_from_0 s : JS.substring_from 0 s = s.
Proof. reflexivity. Qed.

(** A failing [statSync] or [readFileSync] is caught: the poll leaves the
    watcher as it was. *)
Lemma processNewLines_stat_throws cfg JSON_parse fs now filePath w :
  statSync fs filePath = None →
  FileWatcher.processNewLines cfg JSON_parse fs now filePath w = w.
Proof. intros H. unfold FileWatcher.processNewLines. by rewrite H. Qed.

(** C8.  When a poll finds the file smaller than the tracked offset, it
    sets the offset to 0 and does nothing else: no record is processed and
    the call returns.  At the next poll in which the file is not empty, the
    whole content is read from offset 0, every line of it is processed, and
    the offset is the size then found. *)
Theorem truncation_resets_offset cfg JSON_parse fs now filePath w stats :
  statSync fs filePath = Some stats →
  Stats.size stats < JS.or_zero (FileWatcher.filePositions w !! filePath) →
  let w1 := FileWatcher.processNewLines cfg JSON_parse fs now filePath w in
  w1 = FileWatcher.set_filePosition filePath 0 w
  ∧ FileWatcher.filePositions w1 !! filePath = Some 0
  ∧ FileWatcher.sessionManager w1 = FileWatcher.sessionManager w
  ∧ ∀ fs' now' stats' content',
      statSync fs' filePath = Some stats' →
      readFileSync fs' filePath = Some content' →
      0 < Stats.size stats' →
      FileWatcher.processNewLines cfg JSON_parse fs' now' filePath w1
      = foldl (FileWatcher.processLine cfg JSON_parse now' filePath)
          (FileWatcher.set_filePosition filePath (Stats.size stats') w1)
          (FileWatcher.lines_of content').
Proof.
  intros Hstat Hlt w1.
  assert (w1 = FileWatcher.set_filePosition filePath 0 w) as E.
  { subst w1. unfold FileWatcher.processNewLines. rewrite Hstat.
    destruct (Stats.size stats <? _) eqn:El; [done|lia]. }
  rewrite E. split; [done|]. split; [apply lookup_insert_eq|].
  split; [done|].
  intros fs' now' stats' content' Hstat' Hread' Hpos.
  unfold FileWatcher.processNewLines at 1. rewrite Hstat'.
  simpl FileWatcher.filePositions. rewrite lookup_insert_eq. simpl JS.or_zero.
  destruct (Stats.size stats' <? 0) eqn:E1; [lia|].
  destruct (Stats.size stats' =? 0) eqn:E2; [lia|].
  rewrite Hread'. by rewrite substring_from_0.
Qed.

(** A file read up to byte 120 is truncated to zero bytes and then grows to
    one line of ten bytes. *)
Lemma truncation_resets_offset_witness :
  let w1 :=
    FileWatcher.processNewLines default_config Examples.parse_line
      Examples.fs_truncated 1000 Examples.log_path Examples.watcher_at_120 in
  let w2 :=
    FileWatcher.processNewLines default_config Examples.parse_line
      Examples.fs_regrown 2000 Examples.log_path w1 in
  FileWatcher.filePositions w1 !! Examples.log_path = Some 0
  ∧ FileWatcher.sessionManager w1 = SessionManager.init
  ∧ FileWatcher.filePositions w2 !! Examples.log_path = Some 10
  ∧ sessions (FileWatcher.sessionManager w2) !! "S"
    = Some (newSession "S" 2000).
Proof.
  intros w1 w2.
  destruct (truncation_resets_offset default_config Examples.parse_line
              Examples.fs_truncated 1000 Examples.log_path
              Examples.watcher_at_120 (Stats.mk 500 0))
    as (E & Hpos & Hmgr & Hnext).
  - reflexivity.
  - vm_compute; reflexivity.
  - split; [exact Hpos|]. split; [exact Hmgr|].
    subst w2 w1.
    rewrite (Hnext Examples.fs_regrown 2000 (Stats.mk 600 10)
               (String.append "dequeue S" (String JS.newline "")));
      [ | reflexivity | reflexivity | reflexivity ].
    split; vm_compute; reflexivity.
Defined.

(** ** File discovery at startup *)

Import FileWatcher.

Lemma insert_by_mtime_perm x l : insert_by_mtime x l ≡ₚ x :: l.
Proof.
  induction l as [|y l IH]; simpl; [done|].
  destruct (fs_mtimeMs y <=? fs_mtimeMs x); [done|].
  rewrite IH. apply Permutation_swap.
Qed.

Lemma sort_by_mtime_desc_perm l : sort_by_mtime_desc l ≡ₚ l.
Proof.
  induction l as [|x l IH]; simpl; [done|].
  rewrite insert_by_mtime_perm. by rewrite IH.
Qed.

Lemma insert_by_mtime_sorted x l :
  StronglySorted mtime_desc l →
  StronglySorted mtime_desc (insert_by_mtime x l).
Proof.
  induction 1 as [|y l Hl IH Hy]; simpl.
  - repeat constructor.
  - destruct (fs_mtimeMs y <=? fs_mtimeMs x) eqn:E.
    + apply Z.leb_le in E. constructor; [by constructor|].
      constructor; [done|].
      eapply Forall_impl; [exact Hy|]. unfold mtime_desc. intros; lia.
    + apply Z.leb_gt in E. constructor; [done|].
      rewrite insert_by_mtime_perm. constructor; [|done].
      unfold mtime_desc. lia.
Qed.

Lemma sort_by_mtime_desc_sorted l :
  StronglySorted mtime_desc (sort_by_mtime_desc l).
Proof.
  induction l as [|x l IH]; simpl; [constructor|].
  by apply insert_by_mtime_sorted.
Qed.

Lemma StronglySorted_filter_keep {A} (R : relation A) (P : A → Prop)
    `{!∀ x, Decision (P x)} (l : list A) :
  StronglySorted R l → StronglySorted R (filter P l).
Proof.
  induction 1 as [|x l Hl IH Hx]; [constructor|].
  rewrite filter_cons. case_decide; [|done].
  constructor; [done|].
  rewrite Forall_forall in Hx. apply Forall_forall.
  intros y [_ Hy]%list_elem_of_filter. auto.
Qed.

Lemma mapM_elem_of {A B} (f : A → option B) (l : list A) (k : list B) :
  mapM f l = Some k →
  ∀ y, y ∈ k ↔ ∃ x, x ∈ l ∧ f x = Some y.
Proof.
  intros H%mapM_Some_1.
  induction H as [|x y l k Hxy H IH]; intros z.
  - split; [by intros ?%elem_of_nil | by intros (? & ?%elem_of_nil & _)].
  - rewrite elem_of_cons, IH. split.
    + intros [-> | (x' & Hx' & E)].
      * exists x. split; [left|]; done.
      * exists x'. split; [by right | done].
    + intros (x' & [-> | Hx']%elem_of_cons & E).
      * left. congruence.
      * right. eauto.
Qed.

(** The watcher's bookkeeping of offsets is written by [processNewLines]
    for its own file only. *)
Lemma processMessage_filePositions cfg now data filePath w :
  filePositions (processMessage cfg now data filePath w) = filePositions w.
Proof.
  unfold processMessage. repeat case_match; reflexivity.
Qed.

Lemma processLines_filePositions cfg JSON_parse now filePath lines w :
  filePositions (foldl (processLine cfg JSON_parse now filePath) w lines)
  = filePositions w.
Proof.
  revert w. induction lines as [|line lines IH]; intros w; simpl; [done|].
  rewrite IH. unfold processLine.
  destruct (JSON_parse line); [apply processMessage_filePositions | done].
Qed.

Lemma processNewLines_loaded cfg JSON_parse fs now filePath w path :
  loaded (processNewLines cfg JSON_parse fs now filePath w) path →
  loaded w path ∨ path = filePath.
Proof.
  unfold loaded, processNewLines.
  destruct (statSync fs filePath) as [stats|]; [|auto].
  destruct (Stats.size stats <? _).
  { simpl. rewrite lookup_insert. case_decide; auto. }
  destruct (Stats.size stats =? _); [auto|].
  destruct (readFileSync fs filePath) as [content|]; [|auto].
  rewrite processLines_filePositions. simpl.
  rewrite lookup_insert. case_decide; auto.
Qed.

Lemma scan_load_loaded cfg JSON_parse fs now recentFiles w f path :
  loaded (scan_load cfg JSON_parse fs now recentFiles w f) path →
  loaded w path ∨ path = fs_path f.
Proof.
  unfold scan_load.
  destruct (extractSessionIdFromFile JSON_parse fs (fs_path f));
    [|by left].
  destruct (getOrCreateSession _ _ _ _) as [session m'].
  intros [H | H]%processNewLines_loaded; [|by right].
  unfold loaded in H. simpl in H.
  rewrite lookup_insert in H. case_decide; auto.
Qed.

Lemma scan_loop_loaded cfg JSON_parse fs now recentFiles l w path :
  loaded (foldl (scan_load cfg JSON_parse fs now recentFiles) w l) path →
  loaded w path ∨ ∃ f, f ∈ l ∧ fs_path f = path.
Proof.
  revert w. induction l as [|f l IH]; intros w; simpl; [auto|].
  intros [[H | ->]%scan_load_loaded | (f' & Hf' & E)]%IH.
  - by left.
  - right. exists f. split; [left|]; done.
  - right. exists f'. split; [by right | done].
Qed.

Lemma append_inj_r s a b : s +:+ a = s +:+ b → a = b.
Proof. induction s as [|c s IH]; simpl; [done|]. intros [= H]. auto. Qed.

Lemma join_inj dir a b : join dir a = join dir b → a = b.
Proof.
  unfold join. intros H%append_inj_r. simpl in H. by injection H.
Qed.

Lemma stat_candidate_path root fs file f :
  stat_candidate root fs file = Some f →
  fs_path f = join root file
  ∧ ∃ stats, statSync fs (join root file) = Some stats
             ∧ fs_mtimeMs f = Stats.mtimeMs stats.
Proof.
  unfold stat_candidate.
  destruct (statSync fs (join root file)) as [stats|]; [|done].
  intros [= <-]. simpl. eauto.
Qed.

(** What the startup scan does: it takes as candidates the entries of the
    log root itself whose name ends in [.jsonl], stats each of them, orders
    them by modification time, most recent first, and keeps those whose age
    is strictly below the age window; only these are loaded: no file whose
    age reaches or exceeds the window is tracked after the scan. *)
Lemma startup_scan_flat cfg root JSON_parse fs now entries stats0 m :
  existsSync fs root = true →
  readdirSync fs root = Some entries →
  mapM (stat_candidate root fs)
       (filter (λ f, JS.endsWith ".jsonl" f = true) entries) = Some stats0 →
  ∃ fileStats recentFiles,
    scan_fileStats root fs = Some fileStats
    ∧ scan_recentFiles root fs now = Some recentFiles
    ∧ (∀ f, f ∈ fileStats ↔
            ∃ file, file ∈ entries ∧ JS.endsWith ".jsonl" file = true
                    ∧ stat_candidate root fs file = Some f)
    ∧ StronglySorted mtime_desc fileStats
    ∧ (∀ f, f ∈ recentFiles ↔
            f ∈ fileStats ∧ now - fs_mtimeMs f < MAX_FILE_AGE_MS)
    ∧ StronglySorted mtime_desc recentFiles
    ∧ (∀ path,
         loaded (scanExistingSessions cfg root JSON_parse fs now (init m))
                path →
         ∃ f, f ∈ recentFiles ∧ fs_path f = path)
    ∧ (∀ f, f ∈ fileStats → MAX_FILE_AGE_MS ≤ now - fs_mtimeMs f →
            ¬ loaded (scanExistingSessions cfg root JSON_parse fs now
                        (init m)) (fs_path f)).
Proof.
  intros Hex Hdir Hstats.
  assert (scan_candidates root fs
          = Some (filter (λ f, JS.endsWith ".jsonl" f = true) entries))
    as Hcand by (unfold scan_candidates; by rewrite Hex, Hdir).
  assert (scan_fileStats root fs = Some (sort_by_mtime_desc stats0))
    as HfileStats by (unfold scan_fileStats; by rewrite Hcand, Hstats).
  assert (scan_recentFiles root fs now
          = Some (filter (λ f, is_recent now f = true)
                    (sort_by_mtime_desc stats0)))
    as Hrecent by (unfold scan_recentFiles; by rewrite HfileStats).
  set (fileStats := sort_by_mtime_desc stats0) in *.
  set (recentFiles := filter (λ f, is_recent now f = true) fileStats) in *.
  assert (∀ f, f ∈ fileStats ↔
            ∃ file, file ∈ entries ∧ JS.endsWith ".jsonl" file = true
                    ∧ stat_candidate root fs file = Some f) as Hmem.
  { intros f. unfold fileStats. rewrite sort_by_mtime_desc_perm.
    rewrite (mapM_elem_of _ _ _ Hstats). split.
    - intros (file & [Hs Hin]%list_elem_of_filter & E). eauto.
    - intros (file & Hin & Hs & E). exists file.
      split; [by apply list_elem_of_filter | done]. }
  assert (∀ f, f ∈ recentFiles ↔
            f ∈ fileStats ∧ now - fs_mtimeMs f < MAX_FILE_AGE_MS) as Hrec.
  { intros f. unfold recentFiles. rewrite list_elem_of_filter.
    unfold is_recent. rewrite Z.ltb_lt. tauto. }
  assert (∀ path,
            loaded (scanExistingSessions cfg root JSON_parse fs now (init m))
                   path →
            ∃ f, f ∈ recentFiles ∧ fs_path f = path) as Hload.
  { intros path. unfold scanExistingSessions. rewrite Hcand, Hrecent.
    intros H.
    assert (loaded (init m) path
            ∨ ∃ f, f ∈ recentFiles ∧ fs_path f = path) as [H0 | H0].
    { destruct (filter _ entries); [by left|].
      by apply scan_loop_loaded in H. }
    - unfold loaded in H0. simpl in H0. rewrite lookup_empty in H0.
      by destruct H0.
    - done. }
  exists fileStats, recentFiles.
  split; [done|]. split; [done|]. split; [exact Hmem|].
  split; [apply sort_by_mtime_desc_sorted|]. split; [exact Hrec|].
  split; [apply StronglySorted_filter_keep, sort_by_mtime_desc_sorted|].
  split; [exact Hload|].
  intros f Hf Hold Hl. destruct (Hload _ Hl) as (f' & Hf' & Hpath).
  apply Hrec in Hf' as [Hf' Hage].
  apply Hmem in Hf as (file & _ & _ & E).
  apply Hmem in Hf' as (file' & _ & _ & E').
  apply stat_candidate_path in E as (P & stats & S & M).
  apply stat_candidate_path in E' as (P' & stats' & S' & M').
  rewrite P, P' in Hpath. apply join_inj in Hpath. subst file'.
  rewrite S in S'. injection S' as <-. lia.
Qed.

(** A log root with three session files, one of them too old. *)
Lemma startup_scan_flat_witness :
  ∃ fileStats recentFiles,
    scan_fileStats Examples.log_root Examples.fs_flat = Some fileStats
    ∧ scan_recentFiles Examples.log_root Examples.fs_flat 700000
      = Some recentFiles
    ∧ fs_file <$> fileStats = ["b.jsonl"; "a.jsonl"; "old.jsonl"]
    ∧ fs_file <$> recentFiles = ["b.jsonl"; "a.jsonl"]
    ∧ ¬ loaded (scanExistingSessions default_config Examples.log_root
                  Examples.parse_line Examples.fs_flat 700000
                  (init SessionManager.init))
               (join Examples.log_root "old.jsonl").
Proof.
  destruct (startup_scan_flat default_config Examples.log_root
              Examples.parse_line Examples.fs_flat 700000
              ["a.jsonl"; "notes.txt"; "old.jsonl"; "b.jsonl"]
              [mkFileStat (join Examples.log_root "a.jsonl") "a.jsonl"
                 690000 10;
               mkFileStat (join Examples.log_root "old.jsonl") "old.jsonl"
                 1000 10;
               mkFileStat (join Examples.log_root "b.jsonl") "b.jsonl"
                 695000 9]
              SessionManager.init)
    as (fileStats & recentFiles & E1 & E2 & _ & _ & _ & _ & _ & Hold).
  - reflexivity.
  - reflexivity.
  - vm_compute; reflexivity.
  - exists fileStats, recentFiles.
    split; [exact E1|]. split; [exact E2|].
    vm_compute in E1. injection E1 as <-.
    vm_compute in E2. injection E2 as <-.
    split; [reflexivity|]. split; [reflexivity|].
    apply (Hold (mkFileStat (join Examples.log_root "old.jsonl")
                   "old.jsonl" 1000 10)).
    + right. right. left.
    + vm_compute; discriminate.
Defined.

(** C9 on a nested file.  A fresh session file in a project directory of
    the log root is a candidate under the root, and the watcher's own glob
    covers it; the startup scan lists the root only, so it neither considers
    nor loads the file. *)
Theorem startup_scan_misses_nested :
  candidate_log_file Examples.fs_nested Examples.log_root Examples.log_path
  ∧ statSync Examples.fs_nested Examples.log_path = Some (Stats.mk 9000 100)
  ∧ 10000 - 9000 < MAX_FILE_AGE_MS
  ∧ scan_fileStats Examples.log_root Examples.fs_nested = Some []
  ∧ scan_recentFiles Examples.log_root Examples.fs_nested 10000 = Some []
  ∧ scanExistingSessions default_config Examples.log_root
      Examples.parse_line Examples.fs_nested 10000
      (init SessionManager.init)
    = init SessionManager.init
  ∧ ¬ loaded (scanExistingSessions default_config Examples.log_root
                Examples.parse_line Examples.fs_nested 10000
                (init SessionManager.init))
             Examples.log_path.
Proof.
  split; [|split; [|split; [|split; [|split; [|split]]]]].
  - unfold candidate_log_file. split; [|split]; [reflexivity..|].
    by exists (Stats.mk 9000 100).
  - reflexivity.
  - reflexivity.
  - reflexivity.
  - reflexivity.
  - reflexivity.
  - intros [pos H]. vm_compute in H. discriminate.
Qed.

(** ** Replaying a sequence of writes that only ever add *)

Section Replay.

Context {S A : Type}.
Variable apply : A → S → S.
Variable done_in : A → S → Prop.

Hypothesis done_fix : ∀ a s, done_in a s → apply a s = s.
Hypothesis done_after : ∀ a s, done_in a (apply a s).
Hypothesis done_mono : ∀ a b s, done_in a s → done_in a (apply b s).






End Replay.

(** ** The views under the touches *)








Lemma write_once_fix id f v x :
  v !! id = Some x → f x = x → write_once id f v = v.
Proof.
  intros Hx Hf. unfold write_once. rewrite Hx, Hf. by apply insert_id.
Qed.













(** ** What the calls of the store do to the views *)

Lemma views_lookup m id :
  views m !! id = View.of_session <$> sessions m !! id.
Proof. apply lookup_fmap. Qed.

Lemma views_put id s m :
  views (put id s m) = <[id := View.of_session s]> (views m).
Proof. apply fmap_insert. Qed.

Lemma views_put_keep id s s' m :
  sessions m !! id = Some s →
  View.of_session s' = View.of_session s →
  views (put id s' m) = views m.
Proof.
  intros Hs E. rewrite views_put, E. apply insert_id.
  by rewrite views_lookup, Hs.
Qed.

Lemma views_put_write id s s' f m :
  sessions m !! id = Some s →
  View.of_session s' = f (View.of_session s) →
  views (put id s' m) = write_once id f (views m).
Proof.
  intros Hs E. rewrite views_put, E. unfold write_once.
  by rewrite views_lookup, Hs.
Qed.

Lemma getOrCreateSession_views now id ts m s m1 :
  getOrCreateSession now id ts m = (s, m1) →
  sessions m1 !! id = Some s ∧ views m1 = ensure id (views m).
Proof.
  intros E.
  pose proof (getOrCreateSession_lookup now id ts m) as L.
  rewrite E in L. simpl in L. split; [done|].
  revert E. unfold getOrCreateSession, ensure. rewrite views_lookup.
  destruct (sessions m !! id) as [s0|] eqn:Hs; simpl.
  - destruct (JS.truthy_num ts); intros [= <- <-]; [done|].
    by apply views_put_keep with s0.
  - intros [= <- <-]. apply views_put.
Qed.

Lemma views_updateCwd now id cwd m :
  views (updateCwd now id cwd m) = touch (SetCwd id cwd) (views m).
Proof.
  unfold updateCwd. simpl.
  destruct (getOrCreateSession now id None m) as [s m1] eqn:E.
  apply getOrCreateSession_views in E as [Hs <-].
  destruct (JS.truthy cwd && negb (JS.truthy (Session.cwd s))) eqn:C.
  - apply views_put_write with s; [done|].
    unfold once_cwd. simpl. by rewrite C.
  - symmetry. apply write_once_fix with (View.of_session s).
    + by rewrite views_lookup, Hs.
    + unfold once_cwd. simpl. by rewrite C.
Qed.

Lemma views_updateGitBranch now id branch m :
  views (updateGitBranch now id branch m)
  = touch (SetGitBranch id branch) (views m).
Proof.
  unfold updateGitBranch. simpl.
  destruct (getOrCreateSession now id None m) as [s m1] eqn:E.
  apply getOrCreateSession_views in E as [Hs <-].
  destruct (JS.truthy branch && negb (JS.truthy (Session.gitBranch s)))
    eqn:C.
  - apply views_put_write with s; [done|].
    unfold once_gitBranch. simpl. by rewrite C.
  - symmetry. apply write_once_fix with (View.of_session s).
    + by rewrite views_lookup, Hs.
    + unfold once_gitBranch. simpl. by rewrite C.
Qed.

Lemma views_updateModelInfo now id model version m :
  views (updateModelInfo now id model version m)
  = touch (SetModel id model version) (views m).
Proof.
  unfold updateModelInfo. simpl.
  destruct (getOrCreateSession now id None m) as [s m1] eqn:E.
  apply getOrCreateSession_views in E as [Hs <-].
  apply views_put_write with s; [done|].
  unfold once_version, once_model. simpl.
  destruct (JS.truthy model && negb (JS.truthy (Session.model s)));
    simpl;
    destruct (JS.truthy version && negb (JS.truthy (Session.version s)));
    reflexivity.
Qed.

Lemma views_updateTokenUsage now id usage m :
  views (updateTokenUsage now id usage m) = views m.
Proof.
  unfold updateTokenUsage.
  destruct (sessions m !! id) as [s|] eqn:Hs; [|done].
  destruct usage; [|done]. by apply views_put_keep with s.
Qed.

Lemma views_addMessage cfg now id role content ts m :
  views (addMessage cfg now id role content ts m) = views m.
Proof.
  unfold addMessage.
  destruct (sessions m !! id) as [s|] eqn:Hs; [|done].
  destruct (content =? "")%string; [done|].
  destruct (match last (Session.messages s) with
            | Some _ => _ | None => _ end); [done|].
  by apply views_put_keep with s.
Qed.

Lemma views_completeTool cfg now id name status details m :
  views (completeTool cfg now id name status details m) = views m.
Proof.
  unfold completeTool.
  destruct (sessions m !! id) as [s|] eqn:Hs; [|done].
  destruct (Session.currentTool s); [|done].
  by apply views_put_keep with s.
Qed.

(** Closing the running tool, if any, as [startTool] and [completeSession]
    do. *)
Lemma views_close_running cfg now id s0 m :
  views match running_tool s0 with
        | Some tool =>
            completeTool cfg now id (Tool.name tool) "completed" [] m
        | None => m
        end = views m.
Proof. destruct (running_tool s0); [apply views_completeTool | done]. Qed.

Lemma close_running_keeps cfg now id s0 m :
  is_Some (sessions m !! id) →
  is_Some (sessions match running_tool s0 with
                    | Some tool =>
                        completeTool cfg now id (Tool.name tool)
                          "completed" [] m
                    | None => m
                    end !! id).
Proof. destruct (running_tool s0); [apply completeTool_keeps | done]. Qed.

Lemma views_startTool cfg now id name details m :
  views (startTool cfg now id name details m) = ensure id (views m).
Proof.
  unfold startTool.
  destruct (getOrCreateSession now id None m) as [s m1] eqn:E.
  apply getOrCreateSession_views in E as [Hs <-].
  destruct (close_running_keeps cfg now id s m1) as [s1 Hs1]; [eauto|].
  rewrite Hs1. simpl default.
  rewrite views_put_keep with (s := s1); [|done..].
  apply views_close_running.
Qed.

Lemma views_completeSession cfg now id m :
  views (completeSession cfg now id m) = views m.
Proof.
  unfold completeSession.
  destruct (sessions m !! id) as [s|] eqn:Hs; [|done].
  destruct (close_running_keeps cfg now id s m) as [s1 Hs1]; [eauto|].
  rewrite Hs1. simpl default.
  rewrite views_put_keep with (s := s1); [|done..].
  apply views_close_running.
Qed.

Lemma views_updateSessionPrompt now id prompt m :
  views (updateSessionPrompt now id prompt m) = ensure id (views m).
Proof.
  unfold updateSessionPrompt.
  destruct (getOrCreateSession now id None m) as [s m1] eqn:E.
  apply getOrCreateSession_views in E as [Hs <-].
  by apply views_put_keep with s.
Qed.

Lemma views_linkSubAgent parent agent m :
  views (linkSubAgent parent agent m)
  = write_once parent (link parent agent) (views m).
Proof.
  unfold linkSubAgent.
  destruct (sessions m !! parent) as [s|] eqn:Hs.
  - destruct (bool_decide (agent ∈ Session.subAgents s)) eqn:C.
    + symmetry. apply write_once_fix with (View.of_session s).
      * by rewrite views_lookup, Hs.
      * unfold link. simpl. by rewrite C.
    + apply views_put_write with s; [done|].
      unfold link. simpl. by rewrite C.
  - unfold write_once. by rewrite views_lookup, Hs.
Qed.

Lemma views_createSubAgent now agent parent m :
  views (createSubAgent now agent parent m)
  = touch (SubAgent agent parent) (views m).
Proof.
  unfold createSubAgent. simpl. rewrite views_lookup.
  destruct (sessions m !! agent) as [s|] eqn:Hs; [done|]. simpl.
  unfold getOrCreateSession. rewrite Hs. simpl.
  rewrite views_linkSubAgent. f_equal.
  unfold views. simpl. rewrite !fmap_insert.
  by rewrite insert_insert_eq.
Qed.

(** ** What a record does to the views *)

Lemma touch_all_app l1 l2 v :
  touch_all (l1 ++ l2) v = touch_all l2 (touch_all l1 v).
Proof. apply foldl_app. Qed.

Lemma views_handleBlock cfg now id timestamp m block :
  views (handleBlock cfg now id timestamp m block)
  = touch_all (block_touches id block) (views m).
Proof.
  destruct block as [text | name toolId input |]; simpl.
  - destruct text as [text|]; [|done].
    destruct (negb (text =? "")%string); [apply views_addMessage | done].
  - unfold handleToolUse. apply views_startTool.
  - done.
Qed.

Lemma views_handleBlocks cfg now id timestamp blocks m :
  views (foldl (handleBlock cfg now id timestamp) m blocks)
  = touch_all (concat (block_touches id <$> blocks)) (views m).
Proof.
  revert m. induction blocks as [|b blocks IH]; intros m; simpl; [done|].
  rewrite IH, views_handleBlock, touch_all_app. done.
Qed.

Lemma views_dispatch cfg now id data m :
  views (dispatch cfg now id data m)
  = touch_all (dispatch_touches id data) (views m).
Proof.
  unfold dispatch, dispatch_touches.
  destruct (record_type (LogRecord.type data)).
  - unfold handleUserMessage.
    destruct (LogRecord.message data) as [message|]; [|done].
    destruct (MessageBody.content message) as [content | |]; try done.
    destruct (JS.trim_nonempty content && _); [|done].
    rewrite views_addMessage. apply views_updateSessionPrompt.
  - unfold handleAssistantMessage.
    destruct (LogRecord.message data) as [message|]; [|done].
    rewrite touch_all_app.
    assert (views (if JS.truthy (MessageBody.model message)
                   then updateModelInfo now id (MessageBody.model message)
                          (LogRecord.version data) m
                   else m)
            = touch_all
                (if JS.truthy (MessageBody.model message)
                 then [SetModel id (MessageBody.model message)
                         (LogRecord.version data)]
                 else []) (views m)) as <-.
    { destruct (JS.truthy (MessageBody.model message));
        [apply views_updateModelInfo | done]. }
    generalize (if JS.truthy (MessageBody.model message)
                then updateModelInfo now id (MessageBody.model message)
                       (LogRecord.version data) m
                else m). intros m1.
    assert (views match MessageBody.usage message with
                  | Some usage => updateTokenUsage now id (Some usage) m1
                  | None => m1
                  end = views m1) as <-.
    { destruct (MessageBody.usage message);
        [apply views_updateTokenUsage | done]. }
    generalize (match MessageBody.usage message with
                | Some usage => updateTokenUsage now id (Some usage) m1
                | None => m1
                end). intros m2.
    destruct (MessageBody.content message); try done.
    apply views_handleBlocks.
  - unfold handleToolResult.
    destruct (sessions m !! id) as [s|]; [|done].
    destruct (Session.currentTool s); [apply views_completeTool | done].
  - apply views_completeSession.
  - destruct (bool_decide _); [|done]. simpl.
    destruct (getOrCreateSession now id None m) as [s m1] eqn:E.
    by apply getOrCreateSession_views in E as [_ E'].
  - done.
Qed.

Lemma views_processMessage cfg now data filePath w :
  views (sessionManager (processMessage cfg now data filePath w))
  = touch_all (record_touches data filePath) (views (sessionManager w)).
Proof.
  unfold processMessage, record_touches.
  destruct (effectiveSessionId data filePath) as [eff|]; [|done].
  destruct (negb (JS.truthy (Some eff))); [done|].
  rewrite !touch_all_app. simpl sessionManager.
  rewrite views_dispatch. f_equal.
  assert (∀ w', views (sessionManager
                  (if JS.truthy (LogRecord.gitBranch data)
                   then with_manager
                          (updateGitBranch now eff (LogRecord.gitBranch data))
                          w'
                   else w'))
                = touch_all
                    (if JS.truthy (LogRecord.gitBranch data)
                     then [SetGitBranch eff (LogRecord.gitBranch data)]
                     else []) (views (sessionManager w'))) as ->.
  { intros w'. destruct (JS.truthy (LogRecord.gitBranch data)); [|done].
    apply views_updateGitBranch. }
  f_equal.
  assert (∀ w', views (sessionManager
                  (if JS.truthy (LogRecord.cwd data)
                   then with_manager
                          (updateCwd now eff (LogRecord.cwd data)) w'
                   else w'))
                = touch_all
                    (if JS.truthy (LogRecord.cwd data)
                     then [SetCwd eff (LogRecord.cwd data)]
                     else []) (views (sessionManager w'))) as ->.
  { intros w'. destruct (JS.truthy (LogRecord.cwd data)); [|done].
    apply views_updateCwd. }
  f_equal. simpl sessionManager.
  destruct (LogRecord.sessionId data) as [sessionId|]; [|done].
  destruct (LogRecord.agentId data) as [agentId|]; [|done].
  destruct (isSubAgent data filePath && _ && _); [|done].
  apply views_createSubAgent.
Qed.

Lemma views_processRecords cfg now filePath records w :
  views (sessionManager (processRecords cfg now filePath records w))
  = touch_all (concat ((λ data, record_touches data filePath) <$> records))
      (views (sessionManager w)).
Proof.
  revert w. unfold processRecords.
  induction records as [|data records IH]; intros w; simpl; [done|].
  rewrite IH, views_processMessage, touch_all_app. done.
Qed.

(** ** The origins under the marks *)





















(** ** What the calls of the store do to the origins *)



















(** ** What a record does to the origins *)






(** ** Replay of a log file *)



(** ** Registration of a sub-agent *)

Lemma reachable_subAgents_NoDup cfg m :
  reachable cfg m →
  ∀ id s, sessions m !! id = Some s → NoDup (Session.subAgents s).
Proof.
  apply (reachable_invariant cfg (λ s, NoDup (Session.subAgents s))).
  - intros. constructor.
  - intros s s' Hs Hstep. destruct Hstep; simpl; try done.
    apply NoDup_app. split; [done|]. split; [|apply NoDup_singleton].
    intros x Hx ->%list_elem_of_singleton. done.
Qed.






Lemma ensure_other id id' v : id ≠ id' → ensure id v !! id' = v !! id'.
Proof.
  intros Hne. unfold ensure. destruct (v !! id); [done|].
  by rewrite lookup_insert_ne.
Qed.




Lemma truthy_Some s : s ≠ "" → JS.truthy (Some s) = true.
Proof.
  intros H. unfold JS.truthy. apply negb_true_iff.
  by apply String.eqb_neq.
Qed.


Lemma views_lookup_Some m id x :
  views m !! id = Some x →
  ∃ s, sessions m !! id = Some s ∧ View.of_session s = x.
Proof.
  rewrite views_lookup. intros (s & Hs & ->)%fmap_Some. eauto.
Qed.




(* ================================================================== *)
(** * Further properties of the session store *)
(* ================================================================== *)

(** ** Get-or-create *)

(** X1.  A repeated [getOrCreateSession] never re-initialises the session:
    after a first call (which may have created it), a second call at any
    clock reading finds the same session and changes at most its
    [lastActivity]; with a historical time stamp it changes nothing. *)
Theorem getOrCreateSession_again now now' id ts ts' m :
  let r1 := getOrCreateSession now id ts m in
  let r2 := getOrCreateSession now' id ts' r1.2 in
  sessions r1.2 !! id = Some r1.1
  ∧ sessions r2.2 !! id = Some r2.1
  ∧ same_but_lastActivity r1.1 r2.1
  ∧ (∀ id', id ≠ id' → sessions r2.2 !! id' = sessions m !! id')
  ∧ (JS.truthy_num ts' = true → r2 = r1).
Proof.
  intros r1 r2.
  pose proof (getOrCreateSession_lookup now id ts m) as L1.
  fold r1 in L1.
  split; [done|]. split; [apply getOrCreateSession_lookup|].
  assert (r2 = if JS.truthy_num ts' then r1
               else (Session.set_lastActivity now' r1.1,
                     put id (Session.set_lastActivity now' r1.1) r1.2))
    as E.
  { unfold r2, getOrCreateSession at 1. rewrite L1.
    destruct (JS.truthy_num ts'); [by destruct r1 | done]. }
  split; [|split].
  - rewrite E. by destruct (JS.truthy_num ts').
  - intros id' Hne. unfold r2, r1.
    by rewrite !getOrCreateSession_lookup_ne.
  - intros Hts. by rewrite E, Hts.
Qed.

(** ** Shape of the reachable stores *)

(** X2.  In every reachable store a session is filed under its own id:
    the key of the map and the [id] field agree (ids are unique). *)
Theorem session_id_is_key cfg m :
  reachable cfg m →
  ∀ id s, sessions m !! id = Some s → Session.id s = id.
Proof.
  intros Hm id s Hs.
  destruct (reachable_evolves cfg m Hm id s Hs) as [ts E].
  eapply (rtc_ind_r (λ s, Session.id s = id)); [ | | exact E].
  - reflexivity.
  - intros y z _ Hstep Hy. by destruct Hstep.
Qed.

(** At the session "S" of a store with one usage. *)
Lemma session_id_is_key_witness :
  ∃ s, sessions Examples.store_with_tokens !! "S" = Some s
       ∧ Session.id s = "S".
Proof.
  eexists. split; [vm_compute; reflexivity|].
  apply (session_id_is_key default_config Examples.store_with_tokens)
    with (id := "S").
  - repeat constructor.
  - vm_compute; reflexivity.
Defined.

(** X3.  In every reachable store an open tool has status ['running'], and
    the list of sub-agents of a session holds no
    id twice. *)
Theorem reachable_store_shape cfg m :
  reachable cfg m →
  ∀ id s, sessions m !! id = Some s →
    (∀ tool, Session.currentTool s = Some tool
             → Tool.status tool = "running")
    ∧ NoDup (Session.subAgents s).
Proof.
  intros Hm id s Hs. split.
  - intros tool. by eapply reachable_tool_running.
  - by eapply reachable_subAgents_NoDup.
Qed.

(** At the session "S" with the tool "Bash" open. *)
Lemma reachable_store_shape_witness :
  ∃ s tool, sessions Examples.tool_open_store !! "S" = Some s
            ∧ Session.currentTool s = Some tool
            ∧ Tool.status tool = "running"
            ∧ NoDup (Session.subAgents s).
Proof.
  destruct (reachable_store_shape default_config Examples.tool_open_store)
    with (id := "S")
         (s := default (newSession "S" 0)
                 (sessions Examples.tool_open_store !! "S"))
    as [Htool Hnd].
  - repeat constructor.
  - vm_compute; reflexivity.
  - eexists. exists (Tool.mk "Bash" 10 "running" []).
    split; [vm_compute; reflexivity|]. split; [reflexivity|].
    split; [by apply Htool | exact Hnd].
Defined.

(** ** First writer wins *)

(** The value of a first-writer-wins attribute after a write of [new]. *)
Lemma once_value_cases (old new : option string) :
  (if JS.truthy new && negb (JS.truthy old) then new else old)
  = if JS.truthy old then old else if JS.truthy new then new else old.
Proof. by destruct (JS.truthy new), (JS.truthy old). Qed.


(** ** Token usage *)

#[local] Arguments MODEL_PRICING : simpl never.

Lemma updateTokenUsage_applied now id usage m s :
  sessions m !! id = Some s →
  updateTokenUsage now id (Some usage) m
  = put id (usage_applied now usage s) m.
Proof. intros Hs. unfold updateTokenUsage. rewrite Hs. reflexivity. Qed.

(** X5.  Token usage is additive as long as the sums are exact, that is
    for non-negative counters and usages whose sums do not exceed
    [Number.MAX_SAFE_INTEGER]: two updates leave each counter at its old
    value plus both usages and [total] at the sum of the new input and
    output, the cost is the one [estimateCost] gives for the new counters,
    and the order of the two usages does not matter for the store that
    results. *)
Theorem token_usage_accumulates now1 now2 id u1 u2 m s :
  sessions m !! id = Some s →
  exact_sums (Session.tokens s) u1 u2 →
  let m12 :=
    updateTokenUsage now2 id (Some u2)
      (updateTokenUsage now1 id (Some u1) m) in
  let m21 :=
    updateTokenUsage now2 id (Some u1)
      (updateTokenUsage now1 id (Some u2) m) in
  m12 = m21
  ∧ ∃ s', sessions m12 !! id = Some s'
          ∧ Tokens.input (Session.tokens s')
            = Tokens.input (Session.tokens s)
              + JS.or_zero (Usage.input_tokens u1)
              + JS.or_zero (Usage.input_tokens u2)
          ∧ Tokens.output (Session.tokens s')
            = Tokens.output (Session.tokens s)
              + JS.or_zero (Usage.output_tokens u1)
              + JS.or_zero (Usage.output_tokens u2)
          ∧ Tokens.cacheRead (Session.tokens s')
            = Tokens.cacheRead (Session.tokens s)
              + JS.or_zero (Usage.cache_read_input_tokens u1)
              + JS.or_zero (Usage.cache_read_input_tokens u2)
          ∧ Tokens.cacheCreation (Session.tokens s')
            = Tokens.cacheCreation (Session.tokens s)
              + JS.or_zero (Usage.cache_creation_input_tokens u1)
              + JS.or_zero (Usage.cache_creation_input_tokens u2)
          ∧ Tokens.total (Session.tokens s')
            = Tokens.input (Session.tokens s')
              + Tokens.output (Session.tokens s')
          ∧ Session.estimatedCost s' = estimateCost s'
          ∧ Session.lastActivity s' = now2.
Proof.
  intros Hs _ m12 m21. unfold m12, m21.
  rewrite (updateTokenUsage_applied now1 id u1 m s Hs).
  rewrite (updateTokenUsage_applied now1 id u2 m s Hs).
  rewrite !(updateTokenUsage_applied now2 id _ _ _ (lookup_put _ _ _)).
  split.
  - unfold put. simpl. rewrite !insert_insert_eq. f_equal. f_equal.
    unfold usage_applied. simpl.
    destruct (MODEL_PRICING (Session.modelShort s)) as [rates|];
      f_equal; f_equal; lia.
  - eexists. split; [apply lookup_put|].
    unfold usage_applied, estimateCost. simpl.
    repeat split; try lia.
Qed.

(** Two usages on the session "S". *)
Lemma token_usage_accumulates_witness :
  ∃ s', sessions
          (updateTokenUsage 4000 "S" (Some Examples.usage_10_5)
             (updateTokenUsage 3000 "S" (Some Examples.usage_10_5)
                Examples.quiet_store)) !! "S" = Some s'
        ∧ Tokens.input (Session.tokens s') = 20
        ∧ Tokens.total (Session.tokens s') = 30.
Proof.
  destruct (token_usage_accumulates 3000 4000 "S" Examples.usage_10_5
              Examples.usage_10_5 Examples.quiet_store (newSession "S" 0))
    as (_ & s' & H & Hin & _).
  - vm_compute; reflexivity.
  - unfold exact_sums, non_negative. simpl.
    repeat split; vm_compute; discriminate.
  - exists s'. split; [exact H|]. split; [exact Hin|].
    vm_compute in H. injection H as <-. reflexivity.
Defined.

(** A model named "x-constructor" has the short name "constructor", which
    [MODEL_PRICING] inherits: the cost of its usage is [NaN]. *)
Lemma cost_of_inherited_model_name :
  Session.estimatedCost
  <$> sessions
        (updateTokenUsage 30 "S" (Some Examples.usage_10_5)
           (updateModelInfo 20 "S" (Some "x-constructor") None
              Examples.quiet_store)) !! "S"
  = Some NaN.
Proof. vm_compute. reflexivity. Qed.


(** ** Unknown sessions *)

(** X6.  The mutators that do not create sessions ignore an unknown
    session id: the store comes back unchanged. *)
Theorem unknown_session_ignored cfg now id m :
  sessions m !! id = None →
  (∀ usage, updateTokenUsage now id usage m = m)
  ∧ (∀ role content ts, addMessage cfg now id role content ts m = m)
  ∧ (∀ name status details,
       completeTool cfg now id name status details m = m)
  ∧ completeSession cfg now id m = m
  ∧ (∀ status, updateSessionStatus now id status m = m)
  ∧ (∀ todos, updateTodos now id todos m = m)
  ∧ (∀ agent, linkSubAgent id agent m = m)
  ∧ (∀ data, handleToolResult cfg now id data m = m).
Proof.
  intros Hs.
  unfold updateTokenUsage, addMessage, completeTool, completeSession,
    updateSessionStatus, updateTodos, linkSubAgent, handleToolResult.
  rewrite !Hs. repeat split; done.
Qed.

(** A [result] for a session that was never seen. *)
Lemma unknown_session_ignored_witness :
  completeSession default_config 50 "nobody" Examples.quiet_store
  = Examples.quiet_store.
Proof.
  apply (unknown_session_ignored default_config 50 "nobody"
           Examples.quiet_store).
  vm_compute; reflexivity.
Defined.

(** ** Deletion *)

Lemma put_keeps id s m id' :
  is_Some (sessions m !! id') → is_Some (sessions (put id s m) !! id').
Proof.
  intros H. rewrite sessions_put.
  destruct (decide (id = id')) as [<- | Hne];
    [rewrite lookup_insert_eq; eauto | by rewrite lookup_insert_ne].
Qed.

Lemma getOrCreateSession_keeps now id ts m id' :
  is_Some (sessions m !! id') →
  is_Some (sessions (getOrCreateSession now id ts m).2 !! id').
Proof.
  intros H. unfold getOrCreateSession.
  destruct (sessions m !! id); [destruct (JS.truthy_num ts)|]; cbn [snd];
    auto using put_keeps.
Qed.

Lemma linkSubAgent_keeps parent agent m id' :
  is_Some (sessions m !! id') →
  is_Some (sessions (linkSubAgent parent agent m) !! id').
Proof.
  intros H. unfold linkSubAgent.
  destruct (sessions m !! parent); [|done].
  case_bool_decide; auto using put_keeps.
Qed.

(** X7.  Only the staleness sweep (and [destroy]) removes sessions: after
    any other call of the store every session that was there is still
    there. *)
Theorem only_sweep_deletes cfg now c m id :
  c ≠ CleanupStaleSessions → c ≠ Destroy →
  is_Some (sessions m !! id) →
  is_Some (sessions (perform cfg now c m) !! id).
Proof.
  intros Hc1 Hc2 H. destruct c; try done; simpl.
  - by apply getOrCreateSession_keeps.
  - unfold updateModelInfo.
    pose proof (getOrCreateSession_keeps now sessionId None m id H) as K.
    destruct (getOrCreateSession now sessionId None m) as [s m1].
    by apply put_keeps.
  - unfold updateCwd.
    pose proof (getOrCreateSession_keeps now sessionId None m id H) as K.
    destruct (getOrCreateSession now sessionId None m) as [s m1].
    destruct (_ && _); [by apply put_keeps | done].
  - unfold updateGitBranch.
    pose proof (getOrCreateSession_keeps now sessionId None m id H) as K.
    destruct (getOrCreateSession now sessionId None m) as [s m1].
    destruct (_ && _); [by apply put_keeps | done].
  - unfold updateTokenUsage.
    destruct (sessions m !! sessionId); [|done].
    destruct usage; [by apply put_keeps | done].
  - unfold addMessage.
    destruct (sessions m !! sessionId) as [s|]; [|done].
    destruct (content =? "")%string; [done|].
    destruct (match last (Session.messages s) with
              | Some _ => _ | None => _ end); [done|].
    by apply put_keeps.
  - unfold createSubAgent.
    destruct (sessions m !! agentId); [done|].
    pose proof (getOrCreateSession_keeps now agentId None m id H) as K.
    destruct (getOrCreateSession now agentId None m) as [s m1].
    apply linkSubAgent_keeps. simpl. by apply put_keeps.
  - by apply linkSubAgent_keeps.
  - unfold startTool.
    pose proof (getOrCreateSession_keeps now sessionId None m id H) as K.
    destruct (getOrCreateSession now sessionId None m) as [s m1].
    apply put_keeps.
    destruct (running_tool s); [by apply completeTool_keeps | done].
  - by apply completeTool_keeps.
  - unfold completeSession.
    destruct (sessions m !! sessionId) as [s|]; [|done].
    apply put_keeps.
    destruct (running_tool s); [by apply completeTool_keeps | done].
  - unfold updateSessionStatus.
    destruct (sessions m !! sessionId); [by apply put_keeps | done].
  - unfold updateSessionPrompt.
    pose proof (getOrCreateSession_keeps now sessionId None m id H) as K.
    destruct (getOrCreateSession now sessionId None m) as [s m1].
    by apply put_keeps.
  - unfold updateTodos.
    destruct (sessions m !! sessionId); [by apply put_keeps | done].
  - unfold markActive.
    destruct (sessions m !! sessionId); [by apply put_keeps | done].
Qed.

(** Completing the session "S" keeps it in the store. *)
Lemma only_sweep_deletes_witness :
  is_Some (sessions (perform default_config 99 (CompleteSession "S")
                       Examples.tool_open_store) !! "S").
Proof.
  apply only_sweep_deletes.
  - discriminate.
  - discriminate.
  - vm_compute. eauto.
Defined.

(** ** The sweep *)

(** X8.  After a sweep a session is absent exactly when it was absent
    before or its inactivity exceeded the removal timeout; so no session
    that the store lists after a sweep at [now] has been inactive for more
    than the timeout. *)
Theorem sweep_removes_stale cfg now m :
  (∀ id,
     sessions (cleanupStaleSessions cfg now m) !! id = None ↔
     sessions m !! id = None
     ∨ ∃ s, sessions m !! id = Some s
            ∧ SESSION_TIMEOUT_MS cfg < now - Session.lastActivity s)
  ∧ ∀ s', s' ∈ getAllSessions (cleanupStaleSessions cfg now m) →
          now - Session.lastActivity s' ≤ SESSION_TIMEOUT_MS cfg.
Proof.
  split.
  - intros id. rewrite cleanupStaleSessions_lookup.
    destruct (sessions m !! id) as [s|] eqn:Hs; simpl.
    + unfold sweep_session.
      destruct (SESSION_TIMEOUT_MS cfg <? _) eqn:E.
      * apply Z.ltb_lt in E. split; [|done]. intros _. right. eauto.
      * apply Z.ltb_ge in E. split.
        -- by destruct (_ && _).
        -- intros [? | (s0 & [= <-] & ?)]; [done | lia].
    + split; [by left | done].
  - intros s' Hs'. unfold getAllSessions in Hs'.
    apply list_elem_of_fmap in Hs' as ([id s0] & -> & Hin).
    apply elem_of_map_to_list in Hin. simpl.
    rewrite cleanupStaleSessions_lookup in Hin.
    destruct (sessions m !! id) as [s|]; [|done]. simpl in Hin.
    unfold sweep_session in Hin.
    destruct (SESSION_TIMEOUT_MS cfg <? _) eqn:E; [done|].
    apply Z.ltb_ge in E.
    destruct (_ && _); injection Hin as <-; simpl; lia.
Qed.

(** X9.  A session that survives a sweep is the session as it was, or the
    session turned idle; it is turned idle only if it was active with no
    open tool and inactive for more than the idle threshold.  In
    particular a session with an open tool is never idled. *)
Theorem sweep_survivors cfg now m id s' :
  sessions (cleanupStaleSessions cfg now m) !! id = Some s' →
  ∃ s, sessions m !! id = Some s
       ∧ now - Session.lastActivity s ≤ SESSION_TIMEOUT_MS cfg
       ∧ (s' = s
          ∨ (s' = Session.set_status "idle" s
             ∧ Session.status s = "active"
             ∧ Session.currentTool s = None
             ∧ IDLE_THRESHOLD_MS cfg < now - Session.lastActivity s))
       ∧ (is_Some (Session.currentTool s) → s' = s).
Proof.
  rewrite cleanupStaleSessions_lookup.
  destruct (sessions m !! id) as [s|]; [|done]. simpl.
  unfold sweep_session.
  destruct (SESSION_TIMEOUT_MS cfg <? _) eqn:E; [done|].
  apply Z.ltb_ge in E.
  destruct (Session.status s =? "active")%string eqn:Ea; simpl.
  - destruct (bool_decide (is_Some (Session.currentTool s))) eqn:Et; simpl.
    + intros [= <-]. exists s. repeat split; auto.
    + apply bool_decide_eq_false in Et.
      destruct (IDLE_THRESHOLD_MS cfg <? _) eqn:Ei; intros [= <-];
        exists s; (split; [done|]); (split; [done|]).
      * apply Z.ltb_lt in Ei. apply String.eqb_eq in Ea.
        split; [|done]. right. repeat split; try done.
        destruct (Session.currentTool s); [|done]. destruct Et. eauto.
      * split; [by left | done].
  - intros [= <-]. exists s. repeat split; auto.
Qed.

(** The session "S" with the tool "Bash" open, swept after 31 s. *)
Lemma sweep_survivors_witness :
  ∃ s, sessions Examples.tool_open_store !! "S" = Some s
       ∧ sessions (cleanupStaleSessions default_config 31010
                     Examples.tool_open_store) !! "S" = Some s.
Proof.
  destruct (sweep_survivors default_config 31010 Examples.tool_open_store
              "S"
              (default (newSession "S" 0)
                 (sessions Examples.tool_open_store !! "S")))
    as (s & Hs & _ & _ & Hopen).
  - vm_compute; reflexivity.
  - exists s. split; [exact Hs|].
    rewrite <- Hopen.
    + vm_compute; reflexivity.
    + vm_compute in Hs. injection Hs as <-. simpl. eauto.
Defined.

(** X10.  The sweep is idempotent: a second sweep at the same clock
    reading changes nothing. *)
Theorem sweep_idempotent cfg now m :
  cleanupStaleSessions cfg now (cleanupStaleSessions cfg now m)
  = cleanupStaleSessions cfg now m.
Proof.
  unfold cleanupStaleSessions. simpl. f_equal.
  apply map_eq. intros id. rewrite !lookup_omap.
  destruct (sessions m !! id) as [s|]; [|done]. simpl.
  unfold sweep_session.
  destruct (SESSION_TIMEOUT_MS cfg <? _) eqn:E; [done|].
  destruct (_ && _) eqn:C; simpl.
  - by rewrite E.
  - by rewrite E, C.
Qed.

(** ** Tool executions *)

Lemma trimmed_head {A} (n : Z) (x : A) (l : list A) :
  0 < n →
  head (if n <? Z.of_nat (length (x :: l))
        then JS.slice 0 (Some n) (x :: l) else x :: l) = Some x.
Proof.
  intros Hn. destruct (n <? _); [|done].
  rewrite slice_prefix by lia.
  destruct (Z.to_nat n) eqn:E; [lia | done].
Qed.

(** X11.  Starting a tool while another one is running first files the
    running one in the history as ['completed'], under its own name and
    with the time it ran, and then opens the new one. *)
Theorem startTool_closes_previous cfg now id toolName details m s tool :
  0 < MAX_TOOL_HISTORY cfg →
  sessions m !! id = Some s →
  Session.currentTool s = Some tool →
  Tool.status tool = "running" →
  ∃ s',
    sessions (startTool cfg now id toolName details m) !! id = Some s'
    ∧ head (Session.toolHistory s')
      = Some (HistoryEntry.mk (Tool.name tool) (now - Tool.startTime tool)
                "completed" now [])
    ∧ Session.currentTool s' = Some (Tool.mk toolName now "running" details)
    ∧ Z.of_nat (length (Session.toolHistory s'))
      ≤ Z.of_nat (length (Session.toolHistory s)) + 1.
Proof.
  intros Hcap Hs Htool Hrun.
  unfold startTool, getOrCreateSession. rewrite Hs. simpl.
  unfold running_tool. simpl. rewrite Htool, Hrun. simpl.
  unfold completeTool. rewrite lookup_put. simpl. rewrite Htool.
  rewrite lookup_put. simpl.
  eexists. split; [apply lookup_insert_eq|]. simpl.
  split; [by apply (trimmed_head _ _ (Session.toolHistory s))|].
  split; [done|].
  destruct (MAX_TOOL_HISTORY cfg <? _) eqn:E.
  - rewrite slice_prefix by lia. rewrite length_take. simpl length. lia.
  - simpl length. lia.
Qed.

(** "Read" started while "Bash" runs. *)
Lemma startTool_closes_previous_witness :
  ∃ s',
    sessions (startTool default_config 25 "S" "Read" []
                Examples.tool_open_store) !! "S" = Some s'
    ∧ head (Session.toolHistory s')
      = Some (HistoryEntry.mk "Bash" 15 "completed" 25 []).
Proof.
  destruct (startTool_closes_previous default_config 25 "S" "Read" []
              Examples.tool_open_store
              (default (newSession "S" 0)
                 (sessions Examples.tool_open_store !! "S"))
              (Tool.mk "Bash" 10 "running" []))
    as (s' & H1 & H2 & _).
  - vm_compute; reflexivity.
  - vm_compute; reflexivity.
  - reflexivity.
  - reflexivity.
  - exists s'. split; [exact H1 | exact H2].
Defined.

(** X12.  A tool-result record closes the tool that [startTool] opened:
    the history gets an entry under the name of that tool, with status
    ['failed'] if the record carries the error flag and ['completed']
    otherwise, and no tool is open afterwards.  With no tool open the
    record is ignored. *)
Theorem tool_result_closes_tool cfg now1 now2 id toolName details data m :
  0 < MAX_TOOL_HISTORY cfg →
  (∃ s',
     sessions (handleToolResult cfg now2 id data
                 (startTool cfg now1 id toolName details m)) !! id
     = Some s'
     ∧ head (Session.toolHistory s')
       = Some (HistoryEntry.mk toolName (now2 - now1)
                 (if LogRecord.is_error data then "failed" else "completed")
                 now2 [])
     ∧ Session.currentTool s' = None
     ∧ Session.status s' = "active"
     ∧ Session.lastActivity s' = now2)
  ∧ (∀ s, sessions m !! id = Some s → Session.currentTool s = None →
          handleToolResult cfg now2 id data m = m).
Proof.
  intros Hcap. split.
  - unfold handleToolResult, startTool.
    destruct (getOrCreateSession now1 id None m) as [s0 m0].
    rewrite lookup_put. simpl.
    unfold completeTool. rewrite lookup_put. simpl.
    eexists. split; [apply lookup_insert_eq|]. simpl.
    split; [|done]. by apply trimmed_head.
  - intros s Hs Htool. unfold handleToolResult. by rewrite Hs, Htool.
Qed.

(** A failed "Bash" in a fresh session. *)
Lemma tool_result_closes_tool_witness :
  ∃ s',
    sessions (handleToolResult default_config 40 "S"
                (LogRecord.mk (Some "tool_result") (Some "S") None None None
                   None None false None None true)
                Examples.tool_open_store) !! "S" = Some s'
    ∧ head (Session.toolHistory s')
      = Some (HistoryEntry.mk "Bash" 30 "failed" 40 [])
    ∧ Session.currentTool s' = None.
Proof.
  destruct (tool_result_closes_tool default_config 10 40 "S" "Bash" []
              (LogRecord.mk (Some "tool_result") (Some "S") None None None
                 None None false None None true)
              SessionManager.init)
    as ((s' & H1 & H2 & H3 & _) & _).
  - vm_compute; reflexivity.
  - exists s'. split; [exact H1|]. split; [exact H2 | exact H3].
Defined.

(** X13.  In a reachable store, completing a session whose tool is open
    files that tool in the history as ['completed'] and leaves the session
    with status ['completed'] and no open tool; with no tool open only the
    status and the activity time change. *)
Theorem completeSession_files_tool cfg now id m s :
  0 < MAX_TOOL_HISTORY cfg →
  reachable cfg m →
  sessions m !! id = Some s →
  ∃ s',
    sessions (completeSession cfg now id m) !! id = Some s'
    ∧ Session.status s' = "completed"
    ∧ Session.currentTool s' = None
    ∧ Session.lastActivity s' = now
    ∧ match Session.currentTool s with
      | Some tool =>
          head (Session.toolHistory s')
          = Some (HistoryEntry.mk (Tool.name tool)
                    (now - Tool.startTime tool) "completed" now [])
      | None => Session.toolHistory s' = Session.toolHistory s
      end.
Proof.
  intros Hcap Hm Hs. unfold completeSession. rewrite Hs.
  eexists. split; [apply lookup_insert_eq|]. simpl.
  unfold running_tool.
  destruct (Session.currentTool s) as [tool|] eqn:Ht.
  - rewrite (reachable_tool_running cfg m Hm id s tool Hs Ht). simpl.
    unfold completeTool. rewrite Hs, Ht. rewrite lookup_put. simpl.
    repeat split. by apply (trimmed_head _ _ (Session.toolHistory s)).
  - rewrite Hs. simpl. by rewrite Ht.
Qed.

(** The session "S" with "Bash" open since time 10, completed at 50. *)
Lemma completeSession_files_tool_witness :
  ∃ s',
    sessions (completeSession default_config 50 "S"
                Examples.tool_open_store) !! "S" = Some s'
    ∧ Session.status s' = "completed"
    ∧ Session.currentTool s' = None
    ∧ head (Session.toolHistory s')
      = Some (HistoryEntry.mk "Bash" 40 "completed" 50 []).
Proof.
  destruct (completeSession_files_tool default_config 50 "S"
              Examples.tool_open_store
              (default (newSession "S" 0)
                 (sessions Examples.tool_open_store !! "S")))
    as (s' & H1 & H2 & H3 & _ & H5).
  - vm_compute; reflexivity.
  - repeat constructor.
  - vm_compute; reflexivity.
  - exists s'. repeat split; [exact H1 | exact H2 | exact H3 | exact H5].
Defined.

(** ** Truncation and model names *)

Lemma length_take_chars n s :
  String.length (JS.take_chars n s) = (n `min` String.length s)%nat.
Proof.
  revert s. induction n as [|n IH]; intros [|c s]; simpl; auto.
Qed.

Lemma length_string_app s1 s2 :
  String.length (s1 +:+ s2) = (String.length s1 + String.length s2)%nat.
Proof. induction s1 as [|c s1 IH]; simpl; auto. Qed.

(** X14.  [truncate] returns a short string as it is and cuts a longer one
    to its first [maxLength] characters followed by three dots, so the
    result never has more than [maxLength + 3] characters; a missing value
    gives the empty string.  The helpers of the watcher and of the stream
    parser are the same function. *)
Theorem truncate_bound str n :
  (String.length (SessionManager.truncate str n) ≤ n + 3)%nat
  ∧ SessionManager.truncate None n = ""
  ∧ (∀ s, (String.length s ≤ n)%nat →
          SessionManager.truncate (Some s) n = s)
  ∧ (∀ s, (n < String.length s)%nat →
          SessionManager.truncate (Some s) n = JS.take_chars n s +:+ "..."
          ∧ String.length (SessionManager.truncate (Some s) n)
            = (n + 3)%nat)
  ∧ FileWatcher.truncate str n = SessionManager.truncate str n
  ∧ StreamParser.truncateString str n = SessionManager.truncate str n.
Proof.
  assert (∀ s, (n < String.length s)%nat →
            SessionManager.truncate (Some s) n
            = JS.take_chars n s +:+ "..."
            ∧ String.length (SessionManager.truncate (Some s) n)
              = (n + 3)%nat) as Hlong.
  { intros s Hs. unfold SessionManager.truncate.
    destruct (String.length s <=? n)%nat eqn:E;
      [apply Nat.leb_le in E; lia|].
    split; [done|].
    rewrite length_string_app, length_take_chars. simpl. lia. }
  split; [|split; [done|split; [|split; [exact Hlong | done]]]].
  - destruct str as [s|]; [|simpl; unfold SessionManager.truncate; simpl; lia].
    destruct (decide (String.length s ≤ n)%nat).
    + rewrite truncate_short by done. lia.
    + destruct (Hlong s) as [_ ->]; lia.
  - intros s Hs. by apply truncate_short.
Qed.

(** X15.  [parseModelName] gives no short name exactly for a missing or
    empty model; the families are recognised whatever the case of the
    letters, "opus" before "sonnet" before "haiku". *)
Theorem parseModelName_families model :
  (parseModelName model = None ↔ JS.truthy model = false)
  ∧ ∀ name, model = Some name →
      (JS.includes "opus" (JS.toLowerCase name) = true →
       parseModelName model = Some "Opus 4.5")
      ∧ (JS.includes "opus" (JS.toLowerCase name) = false →
         JS.includes "sonnet" (JS.toLowerCase name) = true →
         parseModelName model = Some "Sonnet 4.5")
      ∧ (JS.includes "opus" (JS.toLowerCase name) = false →
         JS.includes "sonnet" (JS.toLowerCase name) = false →
         JS.includes "haiku" (JS.toLowerCase name) = true →
         parseModelName model = Some "Haiku 4.5").
Proof.
  split.
  - unfold parseModelName, JS.truthy.
    destruct model as [[|c name]|]; cbv beta iota zeta; [done| |done].
    split; [|done]. by repeat case_match.
  - intros name ->. unfold parseModelName.
    destruct name as [|c name]; [repeat split; intros; discriminate|].
    split; [|split].
    + intros H1. by rewrite H1.
    + intros H1 H2. by rewrite H1, H2.
    + intros H1 H2 H3. by rewrite H1, H2, H3.
Qed.

(* ================================================================== *)
(** * Further properties of the file watcher *)
(* ================================================================== *)

(** ** Lines of a file *)

Lemma split_nonempty sep s : JS.split sep s ≠ [].
Proof.
  destruct s as [|c s]; simpl; [done|].
  destruct (Ascii.eqb c sep); [done|]. by destruct (JS.split sep s).
Qed.

Lemma concat_cons_nonempty sep x l :
  l ≠ [] → String.concat sep (x :: l) = x +:+ sep +:+ String.concat sep l.
Proof. by destruct l. Qed.

(** X16.  [split] and [join] are inverse: joining the pieces of a string
    with the separator gives the string back, and no piece contains the
    separator. *)
Theorem split_join sep s :
  String.concat (String sep "") (JS.split sep s) = s
  ∧ ∀ piece, piece ∈ JS.split sep s →
             JS.includes (String sep "") piece = false.
Proof.
  induction s as [|c s [IH1 IH2]]; simpl.
  - split; [done|]. by intros piece ->%list_elem_of_singleton.
  - destruct (Ascii.eqb c sep) eqn:E.
    + apply Ascii.eqb_eq in E as ->. split.
      * rewrite concat_cons_nonempty by apply split_nonempty.
        simpl. by rewrite IH1.
      * intros piece [-> | H]%elem_of_cons; [done | auto].
    + pose proof (split_nonempty sep s) as Hne.
      destruct (JS.split sep s) as [|w ws]; [done|]. split.
      * destruct ws as [|w' ws]; simpl in *; by rewrite <- IH1.
      * intros piece [-> | H]%elem_of_cons.
        -- simpl. rewrite Ascii.eqb_sym, E. simpl.
           apply (IH2 w). by left.
        -- apply IH2. by right.
Qed.

Lemma split_app sep a b :
  JS.split sep (a +:+ String sep b) = JS.split sep a ++ JS.split sep b.
Proof.
  induction a as [|c a IH]; simpl.
  - by rewrite Ascii.eqb_refl.
  - destruct (Ascii.eqb c sep); [by rewrite IH|].
    rewrite IH. pose proof (split_nonempty sep a) as Hne.
    by destruct (JS.split sep a).
Qed.

Lemma trim_nonempty_spec s :
  JS.trim_nonempty s = true
  ↔ ∃ c, c ∈ list_ascii_of_string s ∧ JS.is_space c = false.
Proof.
  induction s as [|c s IH]; simpl.
  - split; [done|]. by intros (c & H%elem_of_nil & _).
  - rewrite orb_true_iff, IH, negb_true_iff. split.
    + intros [H | (c' & Hin & H)];
        [exists c | exists c']; split; auto; [by left | by right].
    + intros (c' & [-> | Hin]%elem_of_cons & H); [by left|].
      right. eauto.
Qed.

(** X17.  The lines that a poll hands to the decoder are the pieces of the
    content between line feeds that hold a character other than white
    space, in their order: none holds a line feed or is empty, white space
    alone gives no line at all, and the lines of a content continued after
    a line feed are the lines of the first part followed by those of the
    rest. *)
Theorem lines_of_nonblank content :
  (∀ line, line ∈ lines_of content ↔
           line ∈ JS.split JS.newline content
           ∧ ∃ c, c ∈ list_ascii_of_string line ∧ JS.is_space c = false)
  ∧ (∀ line, line ∈ lines_of content →
             JS.includes (String JS.newline "") line = false
             ∧ line ≠ "")
  ∧ lines_of content `sublist_of` JS.split JS.newline content
  ∧ (JS.trim_nonempty content = false → lines_of content = [])
  ∧ (∀ more, lines_of (content +:+ String JS.newline more)
             = lines_of content ++ lines_of more).
Proof.
  assert (∀ line, line ∈ lines_of content ↔
            line ∈ JS.split JS.newline content
            ∧ JS.trim_nonempty line = true) as H.
  { intros line. unfold lines_of. rewrite list_elem_of_filter. tauto. }
  split; [intros line; by rewrite H, trim_nonempty_spec|].
  split; [|split; [apply sublist_filter|split]].
  - intros line [Hin Ht]%H. split.
    + by apply (split_join JS.newline content).
    + intros ->. discriminate.
  - clear H. intros Hblank. unfold lines_of.
    induction content as [|c s IH]; simpl; [done|].
    simpl in Hblank. apply orb_false_iff in Hblank as [Hc Hs].
    specialize (IH Hs).
    destruct (Ascii.eqb c JS.newline); [by rewrite filter_cons_False|].
    pose proof (split_nonempty JS.newline s) as Hne.
    destruct (JS.split JS.newline s) as [|w ws]; [done|].
    rewrite filter_cons in IH. rewrite filter_cons.
    simpl. rewrite Hc. simpl.
    destruct (decide (JS.trim_nonempty w = true)) as [Hw|Hw];
      [done | exact IH].
  - intros more. unfold lines_of. by rewrite split_app, filter_app.
Qed.

(** X18.  A line that does not decode is dropped and does not interrupt
    the lines after it: processing a batch of lines is processing the
    lines of it that decode. *)
Theorem undecodable_lines_skipped cfg JSON_parse now filePath lines w :
  foldl (processLine cfg JSON_parse now filePath) w lines
  = foldl (processLine cfg JSON_parse now filePath) w
      (filter (λ line, is_Some (JSON_parse line)) lines).
Proof.
  revert w. induction lines as [|line lines IH]; intros w; [done|].
  rewrite filter_cons. simpl.
  destruct (decide (is_Some (JSON_parse line))) as [Hs | Hn].
  - simpl. apply IH.
  - rewrite IH. f_equal. unfold processLine.
    destruct (JSON_parse line); [destruct Hn; eauto | done].
Qed.

(** ** Polling *)

(** X19.  A poll consumes what it reads: when the file has not shrunk
    below the tracked offset, a second poll of the same file system state
    (at any clock reading) changes nothing. *)
Theorem second_poll_does_nothing cfg JSON_parse fs now now' filePath w :
  (∀ stats, statSync fs filePath = Some stats →
            JS.or_zero (filePositions w !! filePath) ≤ Stats.size stats) →
  processNewLines cfg JSON_parse fs now' filePath
    (processNewLines cfg JSON_parse fs now filePath w)
  = processNewLines cfg JSON_parse fs now filePath w.
Proof.
  intros Hsize.
  destruct (statSync fs filePath) as [stats|] eqn:Hstat;
    [|by rewrite !processNewLines_stat_throws].
  specialize (Hsize stats eq_refl).
  unfold processNewLines at 2. rewrite Hstat.
  destruct (Stats.size stats <? _) eqn:E1; [lia|].
  destruct (Stats.size stats =? _) eqn:E2.
  - unfold processNewLines. by rewrite Hstat, E1, E2.
  - destruct (readFileSync fs filePath) as [content|] eqn:Hread.
    + unfold processNewLines. rewrite Hstat.
      rewrite processLines_filePositions. simpl filePositions.
      rewrite lookup_insert_eq. simpl.
      by rewrite Z.ltb_irrefl, Z.eqb_refl, E1, E2, Hread.
    + unfold processNewLines. by rewrite Hstat, E1, E2, Hread.
Qed.

(** The file of ten bytes, polled twice from offset 0. *)
Lemma second_poll_does_nothing_witness :
  processNewLines default_config Examples.parse_line Examples.fs_regrown
    2000 Examples.log_path
    (processNewLines default_config Examples.parse_line Examples.fs_regrown
       1000 Examples.log_path Examples.empty_watcher)
  = processNewLines default_config Examples.parse_line Examples.fs_regrown
      1000 Examples.log_path Examples.empty_watcher.
Proof.
  apply second_poll_does_nothing.
  intros stats H. vm_compute in H. injection H as <-.
  vm_compute. discriminate.
Defined.

(** X20.  A change notification for a file without a tracked offset starts
    the tracking at the current size of the file (at 0 if it cannot be
    stat'ed): nothing of its existing content is processed. *)
Theorem handleFileChanged_untracked cfg JSON_parse fs now filePath w :
  filePositions w !! filePath = None →
  handleFileChanged cfg JSON_parse fs now filePath w
  = set_filePosition filePath
      match statSync fs filePath with
      | Some stats => Stats.size stats
      | None => 0
      end w.
Proof.
  intros Hnone. unfold handleFileChanged. rewrite Hnone.
  destruct (statSync fs filePath) as [stats|] eqn:Hstat.
  - unfold processNewLines. rewrite Hstat. simpl filePositions.
    rewrite lookup_insert_eq. simpl.
    by rewrite Z.ltb_irrefl, Z.eqb_refl.
  - by rewrite processNewLines_stat_throws.
Qed.

(** The file of ten bytes changes while the watcher does not track it. *)
Lemma handleFileChanged_untracked_witness :
  let w :=
    handleFileChanged default_config Examples.parse_line Examples.fs_regrown
      1000 Examples.log_path Examples.empty_watcher in
  filePositions w !! Examples.log_path = Some 10
  ∧ sessionManager w = SessionManager.init.
Proof.
  intros w. unfold w.
  rewrite (handleFileChanged_untracked default_config Examples.parse_line
             Examples.fs_regrown 1000 Examples.log_path
             Examples.empty_watcher);
    [|vm_compute; reflexivity].
  split; vm_compute; reflexivity.
Defined.

(** X21.  A file that is added is skipped when it was last written more
    than [MAX_FILE_AGE_MS] ago; otherwise, and if it is not empty, it is
    read from offset 0 whatever offset was tracked for it before: every
    line of its content is processed and the offset is its size. *)
Theorem handleFileAdded_reads_from_start cfg JSON_parse fs now filePath w
    stats :
  statSync fs filePath = Some stats →
  (MAX_FILE_AGE_MS < now - Stats.mtimeMs stats →
   handleFileAdded cfg JSON_parse fs now filePath w = w)
  ∧ (now - Stats.mtimeMs stats ≤ MAX_FILE_AGE_MS →
     0 < Stats.size stats →
     ∀ content, readFileSync fs filePath = Some content →
       handleFileAdded cfg JSON_parse fs now filePath w
       = foldl (processLine cfg JSON_parse now filePath)
           (set_filePosition filePath (Stats.size stats) w)
           (lines_of content)).
Proof.
  intros Hstat. unfold handleFileAdded. rewrite Hstat. split.
  - intros Hold. destruct (MAX_FILE_AGE_MS <? _) eqn:E; [done|lia].
  - intros Hage Hsize content Hread.
    destruct (MAX_FILE_AGE_MS <? _) eqn:E; [lia|].
    unfold processNewLines. rewrite Hstat. simpl filePositions.
    rewrite lookup_insert_eq. simpl JS.or_zero.
    destruct (Stats.size stats <? 0) eqn:E1; [lia|].
    destruct (Stats.size stats =? 0) eqn:E2; [lia|].
    rewrite Hread, substring_from_0. f_equal.
    unfold set_filePosition. simpl. by rewrite insert_insert_eq.
Qed.

(** The file of ten bytes, added while the watcher already stands at its
    end: the session of its one record is created again from the start. *)
Lemma handleFileAdded_reads_from_start_witness :
  let w0 :=
    set_filePosition Examples.log_path 10 Examples.empty_watcher in
  let w :=
    handleFileAdded default_config Examples.parse_line Examples.fs_regrown
      1000 Examples.log_path w0 in
  sessions (sessionManager w) !! "S" = Some (newSession "S" 1000).
Proof.
  intros w0 w. unfold w.
  destruct (handleFileAdded_reads_from_start default_config
              Examples.parse_line Examples.fs_regrown 1000
              Examples.log_path w0 (Stats.mk 600 10)) as [_ H].
  - reflexivity.
  - rewrite (H ltac:(vm_compute; discriminate) ltac:(reflexivity)
               (String.append "dequeue S" (String JS.newline ""))
               eq_refl).
    vm_compute; reflexivity.
Defined.

(** ** Startup scan *)

(** X22.  One candidate that cannot be stat'ed makes the startup scan give
    up as a whole: no file is loaded, not even the readable ones. *)
Theorem scan_abandoned_on_stat_failure cfg root JSON_parse fs now w entries
    file :
  existsSync fs root = true →
  readdirSync fs root = Some entries →
  file ∈ entries →
  JS.endsWith ".jsonl" file = true →
  statSync fs (join root file) = None →
  scanExistingSessions cfg root JSON_parse fs now w = w.
Proof.
  intros Hex Hdir Hin Hsuffix Hstat.
  unfold scanExistingSessions, scan_recentFiles, scan_fileStats,
    scan_candidates.
  rewrite Hex, Hdir.
  assert (file ∈ filter (λ f, JS.endsWith ".jsonl" f = true) entries)
    as Hf by (by apply list_elem_of_filter).
  destruct (filter _ entries) as [|f0 files] eqn:Ef; [done|].
  rewrite <- Ef in *.
  assert (mapM (stat_candidate root fs)
            (filter (λ f, JS.endsWith ".jsonl" f = true) entries) = None)
    as ->; [|done].
  apply mapM_None_2, Exists_exists. exists file. split; [done|].
  unfold stat_candidate. by rewrite Hstat.
Qed.

(** The listing names a file that is gone: the readable "a.jsonl" is not
    loaded either. *)
Lemma scan_abandoned_on_stat_failure_witness :
  scanExistingSessions default_config Examples.log_root Examples.parse_line
    Samples.fs_broken 700000 Examples.empty_watcher
  = Examples.empty_watcher.
Proof.
  apply (scan_abandoned_on_stat_failure default_config Examples.log_root
           Examples.parse_line Samples.fs_broken 700000
           Examples.empty_watcher ["a.jsonl"; "gone.jsonl"] "gone.jsonl").
  - reflexivity.
  - reflexivity.
  - right. left.
  - reflexivity.
  - reflexivity.
Defined.




(** X24.  The sort of the startup scan returns the same files, most
    recently modified first, and leaves a list that is already in that
    order as it is (files with equal times keep their order). *)
Theorem sort_by_mtime_desc_spec l :
  sort_by_mtime_desc l ≡ₚ l
  ∧ StronglySorted mtime_desc (sort_by_mtime_desc l)
  ∧ (StronglySorted mtime_desc l → sort_by_mtime_desc l = l).
Proof.
  split; [apply sort_by_mtime_desc_perm|].
  split; [apply sort_by_mtime_desc_sorted|].
  induction 1 as [|x l Hl IH Hx]; simpl; [done|].
  rewrite IH. destruct l as [|y l]; simpl; [done|].
  apply Forall_cons in Hx as [Hy _]. unfold mtime_desc in Hy.
  destruct (fs_mtimeMs y <=? fs_mtimeMs x) eqn:E; [done|].
  apply Z.leb_gt in E. lia.
Qed.

(** ** Records and sessions *)

Lemma processMessage_no_effective_id cfg now data filePath w :
  JS.truthy (effectiveSessionId data filePath) = false →
  processMessage cfg now data filePath w = w.
Proof.
  intros H. unfold processMessage.
  destruct (effectiveSessionId data filePath) as [eff|]; [|done].
  by rewrite H.
Qed.

(** X25.  A record without a usable id is ignored, whatever else it
    carries: a record with neither a session id nor an agent id, and also
    a record of an agent file that has no agent id, even when it names its
    session.  The watcher is left as it was. *)
Theorem record_without_id_ignored cfg now data filePath w :
  (JS.truthy (LogRecord.sessionId data) = false
   ∧ JS.truthy (LogRecord.agentId data) = false)
  ∨ (JS.includes "/agent-" filePath = true
     ∧ JS.truthy (LogRecord.agentId data) = false) →
  processMessage cfg now data filePath w = w.
Proof.
  intros H. apply processMessage_no_effective_id.
  unfold effectiveSessionId, isSubAgent.
  destruct H as [[Hs Ha] | [Hp Ha]].
  - rewrite Hs, Ha.
    destruct (JS.includes "/agent-" filePath); simpl; exact Ha.
  - rewrite Hp. simpl. exact Ha.
Qed.

(** A record of an agent file that names only the parent session. *)
Lemma record_without_id_ignored_witness :
  processMessage default_config 1000 Samples.parent_only_record
    Samples.agent_path Examples.parent_watcher
  = Examples.parent_watcher
  ∧ processMessage default_config 1000 Samples.anonymous_record
      Examples.log_path Examples.parent_watcher
    = Examples.parent_watcher.
Proof.
  split; apply record_without_id_ignored.
  - right. split; reflexivity.
  - left. split; reflexivity.
Defined.

(** X26.  A record with a usable id is booked under that id: afterwards
    [sessionFiles] maps the effective id to the file the record came from;
    the other entries, the tracked offsets and the modification times are
    untouched. *)
Theorem record_books_session_file cfg now data filePath w eff :
  effectiveSessionId data filePath = Some eff →
  eff ≠ "" →
  let w' := processMessage cfg now data filePath w in
  sessionFiles w' !! eff = Some filePath
  ∧ (∀ id, id ≠ eff → sessionFiles w' !! id = sessionFiles w !! id)
  ∧ filePositions w' = filePositions w
  ∧ fileModTimes w' = fileModTimes w.
Proof.
  intros Heff Hne w'. unfold w', processMessage. rewrite Heff.
  rewrite truthy_Some by done. simpl negb. cbv iota.
  assert (∀ f w0, sessionFiles (with_manager f w0) = sessionFiles w0
                  ∧ filePositions (with_manager f w0) = filePositions w0
                  ∧ fileModTimes (with_manager f w0) = fileModTimes w0)
    as Hwm by done.
  set (w1 := match LogRecord.sessionId data, LogRecord.agentId data with
             | Some sessionId, Some agentId =>
                 if isSubAgent data filePath && JS.truthy (Some sessionId)
                    && JS.truthy (Some agentId)
                 then with_manager (createSubAgent now agentId sessionId) w
                 else w
             | _, _ => w
             end).
  assert (sessionFiles w1 = sessionFiles w
          ∧ filePositions w1 = filePositions w
          ∧ fileModTimes w1 = fileModTimes w) as (S1 & P1 & M1)
    by (unfold w1; repeat case_match; done).
  set (w2 := set_sessionFile eff filePath w1).
  set (w3 := if JS.truthy (LogRecord.cwd data)
             then with_manager (updateCwd now eff (LogRecord.cwd data)) w2
             else w2).
  assert (sessionFiles w3 = sessionFiles w2
          ∧ filePositions w3 = filePositions w2
          ∧ fileModTimes w3 = fileModTimes w2) as (S3 & P3 & M3)
    by (unfold w3; case_match; done).
  set (w4 := if JS.truthy (LogRecord.gitBranch data)
             then with_manager
                    (updateGitBranch now eff (LogRecord.gitBranch data)) w3
             else w3).
  assert (sessionFiles w4 = sessionFiles w3
          ∧ filePositions w4 = filePositions w3
          ∧ fileModTimes w4 = fileModTimes w3) as (S4 & P4 & M4)
    by (unfold w4; case_match; done).
  destruct (Hwm (dispatch cfg now eff data) w4) as (S5 & P5 & M5).
  rewrite S5, P5, M5, S4, P4, M4, S3, P3, M3. unfold w2. simpl.
  rewrite S1, P1, M1. split; [apply lookup_insert_eq|].
  split; [|done]. intros id Hid. by rewrite lookup_insert_ne.
Qed.

(** The dequeue record of session "S". *)
Lemma record_books_session_file_witness :
  sessionFiles
    (processMessage default_config 1000 Examples.dequeue_S
       Examples.log_path Examples.empty_watcher) !! "S"
  = Some Examples.log_path.
Proof.
  apply (record_books_session_file default_config 1000 Examples.dequeue_S
           Examples.log_path Examples.empty_watcher "S").
  - reflexivity.
  - discriminate.
Defined.

(** ** What later records leave alone *)

Lemma view_kept_refl x : view_kept x x.
Proof. unfold view_kept. by repeat split. Qed.

Lemma view_kept_trans x y z : view_kept x y → view_kept y z → view_kept x z.
Proof.
  intros (I1 & M1 & V1 & C1 & G1 & P1 & A1 & S1 & L1)
         (I2 & M2 & V2 & C2 & G2 & P2 & A2 & S2 & L2).
  unfold view_kept. split; [congruence|].
  split.
  { intros H. destruct (M1 H) as [E1 E1'].
    destruct M2 as [E2 E2']; [by rewrite E1|]. split; congruence. }
  split.
  { intros H. rewrite V2; [auto|]. by rewrite V1. }
  split.
  { intros H. rewrite C2; [auto|]. by rewrite C1. }
  split.
  { intros H. rewrite G2; [auto|]. by rewrite G1. }
  repeat split; try congruence. by etrans.
Qed.

Lemma views_kept_refl v : views_kept v v.
Proof. intros id x Hx. eauto using view_kept_refl. Qed.

Lemma views_kept_trans v1 v2 v3 :
  views_kept v1 v2 → views_kept v2 v3 → views_kept v1 v3.
Proof.
  intros H12 H23 id x Hx.
  destruct (H12 id x Hx) as (y & Hy & Kxy).
  destruct (H23 id y Hy) as (z & Hz & Kyz).
  eauto using view_kept_trans.
Qed.

Lemma insert_fresh_kept id x v : v !! id = None → views_kept v (<[id := x]> v).
Proof.
  intros Hnone id' y Hy. exists y. split; [|apply view_kept_refl].
  rewrite lookup_insert_ne; [done | congruence].
Qed.

Lemma ensure_kept id v : views_kept v (ensure id v).
Proof.
  unfold ensure. destruct (v !! id) eqn:E;
    [apply views_kept_refl | by apply insert_fresh_kept].
Qed.

Lemma write_once_kept id f v :
  (∀ x, view_kept x (f x)) → views_kept v (write_once id f v).
Proof.
  intros Hf. unfold write_once. destruct (v !! id) as [x0|] eqn:E;
    [|apply views_kept_refl].
  intros id' x Hx. destruct (decide (id = id')) as [<- | Hne].
  - exists (f x0). rewrite lookup_insert_eq. split; [done|].
    rewrite E in Hx. injection Hx as <-. apply Hf.
  - exists x. rewrite lookup_insert_ne by done.
    split; [done | apply view_kept_refl].
Qed.

Lemma once_cwd_kept cwd x : view_kept x (once_cwd cwd x).
Proof.
  unfold once_cwd. destruct (JS.truthy cwd); simpl; [|apply view_kept_refl].
  destruct (JS.truthy (View.cwd x)) eqn:E; simpl; [apply view_kept_refl|].
  unfold view_kept. simpl. repeat split; auto. congruence.
Qed.

Lemma once_gitBranch_kept branch x : view_kept x (once_gitBranch branch x).
Proof.
  unfold once_gitBranch.
  destruct (JS.truthy branch); simpl; [|apply view_kept_refl].
  destruct (JS.truthy (View.gitBranch x)) eqn:E; simpl;
    [apply view_kept_refl|].
  unfold view_kept. simpl. repeat split; auto. congruence.
Qed.

Lemma once_model_kept model x : view_kept x (once_model model x).
Proof.
  unfold once_model.
  destruct (JS.truthy model); simpl; [|apply view_kept_refl].
  destruct (JS.truthy (View.model x)) eqn:E; simpl; [apply view_kept_refl|].
  unfold view_kept. simpl. repeat split; auto; congruence.
Qed.

Lemma once_version_kept version x : view_kept x (once_version version x).
Proof.
  unfold once_version.
  destruct (JS.truthy version); simpl; [|apply view_kept_refl].
  destruct (JS.truthy (View.version x)) eqn:E; simpl;
    [apply view_kept_refl|].
  unfold view_kept. simpl. repeat split; auto. congruence.
Qed.

Lemma link_kept parent agent x : view_kept x (link parent agent x).
Proof.
  unfold link. case_bool_decide; [apply view_kept_refl|].
  unfold view_kept. simpl. repeat split; auto.
  by apply prefix_app_r.
Qed.

Lemma touch_kept a v : views_kept v (touch a v).
Proof.
  destruct a as [id | id cwd | id branch | id model version | agent parent];
    simpl.
  - apply ensure_kept.
  - eapply views_kept_trans; [apply ensure_kept|].
    apply write_once_kept, once_cwd_kept.
  - eapply views_kept_trans; [apply ensure_kept|].
    apply write_once_kept, once_gitBranch_kept.
  - eapply views_kept_trans; [apply ensure_kept|].
    apply write_once_kept. intros x.
    eapply view_kept_trans; [apply once_model_kept | apply once_version_kept].
  - destruct (v !! agent) eqn:E; [apply views_kept_refl|].
    eapply views_kept_trans; [by apply insert_fresh_kept|].
    apply write_once_kept, link_kept.
Qed.

Lemma touch_all_kept l v : views_kept v (touch_all l v).
Proof.
  revert v. induction l as [|a l IH]; intros v; simpl;
    [apply views_kept_refl|].
  eapply views_kept_trans; [apply touch_kept | apply IH].
Qed.

(** X28.  No sequence of records makes the store forget: a session that
    exists before the records are processed exists afterwards, under the
    same id, with the model (and short name), version, working directory
    and branch it had if they were set, with the same parent, agent id and
    sub-agent flag, and with its list of sub-agents extended at the end at
    most. *)
Theorem records_never_forget cfg now filePath records w id s :
  sessions (sessionManager w) !! id = Some s →
  ∃ s',
    sessions (sessionManager (processRecords cfg now filePath records w))
      !! id = Some s'
    ∧ Session.id s' = Session.id s
    ∧ (JS.truthy (Session.model s) = true →
       Session.model s' = Session.model s
       ∧ Session.modelShort s' = Session.modelShort s)
    ∧ (JS.truthy (Session.version s) = true →
       Session.version s' = Session.version s)
    ∧ (JS.truthy (Session.cwd s) = true → Session.cwd s' = Session.cwd s)
    ∧ (JS.truthy (Session.gitBranch s) = true →
       Session.gitBranch s' = Session.gitBranch s)
    ∧ Session.parentSessionId s' = Session.parentSessionId s
    ∧ Session.agentId s' = Session.agentId s
    ∧ Session.isSubAgent s' = Session.isSubAgent s
    ∧ Session.subAgents s `prefix_of` Session.subAgents s'.
Proof.
  intros Hs.
  pose proof (touch_all_kept
                (concat ((λ data, record_touches data filePath) <$> records))
                (views (sessionManager w)) id (View.of_session s)) as H.
  rewrite <- (views_processRecords cfg now) in H.
  destruct H as (y & Hy & K); [by rewrite views_lookup, Hs|].
  apply views_lookup_Some in Hy as (s' & Hs' & <-).
  exists s'. split; [exact Hs' | exact K].
Qed.

(** The session "P" after the record of its sub-agent "A" and a record
    that names another working directory. *)
Lemma records_never_forget_witness :
  ∃ s',
    sessions
      (sessionManager
         (processRecords default_config 1000 Examples.log_path
            [Examples.subagent_record; Samples.parent_only_record]
            Examples.parent_watcher)) !! "P" = Some s'
    ∧ Session.id s' = "P"
    ∧ Session.parentSessionId s' = None.
Proof.
  destruct (records_never_forget default_config 1000 Examples.log_path
              [Examples.subagent_record; Samples.parent_only_record]
              Examples.parent_watcher "P" (newSession "P" 0))
    as (s' & H1 & H2 & _ & _ & _ & _ & H3 & _).
  - vm_compute; reflexivity.
  - exists s'. split; [exact H1|]. split; [exact H2 | exact H3].
Defined.

(** ** User prompts *)

#[local] Arguments JS.take_chars : simpl never.

Lemma trim_nonempty_not_empty s : JS.trim_nonempty s = true → s ≠ "".
Proof. by intros H ->. Qed.

(** X27.  A user record whose content is a string with something other
    than white space in it, and not the placeholder "Warmup", leaves the
    session (created if need be) with the first 200 characters of the
    content as its prompt and with that text as its last message, of role
    ['user']; a blank content and the placeholder change nothing. *)
Theorem user_prompt_recorded cfg now id data body content m :
  0 < MAX_MESSAGES cfg →
  LogRecord.message data = Some body →
  MessageBody.content body = ContentString content →
  (JS.trim_nonempty content = false ∨ content = "Warmup" →
   handleUserMessage cfg now id data m = m)
  ∧ (JS.trim_nonempty content = true → content ≠ "Warmup" →
     ∃ s' msg,
       sessions (handleUserMessage cfg now id data m) !! id = Some s'
       ∧ Session.prompt s' = Some (JS.take_chars 200 content)
       ∧ (String.length (JS.take_chars 200 content) ≤ 200)%nat
       ∧ last (Session.messages s') = Some msg
       ∧ Message.role msg = "user"
       ∧ (Message.content msg = content
          ∨ Message.content msg = SessionManager.truncate (Some content) 1000)).
Proof.
  intros Hcap Hmsg Hcontent. unfold handleUserMessage.
  rewrite Hmsg, Hcontent. split.
  - intros [-> | ->]; [done|]. by rewrite String.eqb_refl, andb_false_r.
  - intros Ht Hw. rewrite Ht.
    destruct (content =? "Warmup")%string eqn:E;
      [by apply String.eqb_eq in E|]. simpl.
    unfold updateSessionPrompt.
    destruct (getOrCreateSession now id None m) as [s0 m0].
    unfold addMessage. rewrite lookup_put.
    destruct (content =? "")%string eqn:Ec;
      [apply String.eqb_eq in Ec; by apply trim_nonempty_not_empty in Ht|].
    simpl Session.messages.
    destruct (last (Session.messages s0)) as [lastMsg|] eqn:El.
    + destruct ((Message.content lastMsg =? content)%string
                && (Message.role lastMsg =? "user")%string) eqn:Ed.
      * apply andb_true_iff in Ed as [E1 E2].
        apply String.eqb_eq in E1, E2.
        eexists. exists lastMsg. split; [apply lookup_insert_eq|]. simpl.
        rewrite length_take_chars. repeat split; auto; lia.
      * eexists. eexists. split; [apply lookup_insert_eq|]. simpl.
        rewrite length_take_chars.
        split; [done|]. split; [lia|].
        split; [by apply last_trimmed_snoc|]. simpl. auto.
    + eexists. eexists. split; [apply lookup_insert_eq|]. simpl.
      rewrite length_take_chars.
      split; [done|]. split; [lia|].
      split; [by apply last_trimmed_snoc|]. simpl. auto.
Qed.

(** The prompt "fix the bug" in a store without the session, and a content
    of white space only. *)
Lemma user_prompt_recorded_witness :
  (∃ s',
     sessions (handleUserMessage default_config 1000 "S" Samples.user_record
                 SessionManager.init) !! "S" = Some s'
     ∧ Session.prompt s' = Some "fix the bug")
  ∧ handleUserMessage default_config 1000 "S" Samples.blank_record
      SessionManager.init
    = SessionManager.init.
Proof.
  split.
  - destruct (user_prompt_recorded default_config 1000 "S"
                Samples.user_record
                (MessageBody.mk None None (ContentString "fix the bug"))
                "fix the bug" SessionManager.init)
      as [_ H].
    + vm_compute; reflexivity.
    + reflexivity.
    + reflexivity.
    + destruct H as (s' & msg & H1 & H2 & _); [reflexivity | discriminate |].
      exists s'. split; [exact H1 | exact H2].
  - destruct (user_prompt_recorded default_config 1000 "S"
                Samples.blank_record
                (MessageBody.mk None None
                   (ContentString Samples.blank_content))
                Samples.blank_content SessionManager.init)
      as [H _].
    + vm_compute; reflexivity.
    + reflexivity.
    + reflexivity.
    + apply H. left. reflexivity.
Defined.

(* ================================================================== *)
(** * Further properties of the stream parser *)
(* ================================================================== *)

(** X29.  Every chunk is attributed to a session: the id is the first
    non-empty one of [session_id], [sessionId] and [metadata.session_id],
    and the literal ['unknown'] if there is none; it is never empty. *)
Theorem chunk_session_nonempty jsonData :
  StreamParser.chunk_session jsonData ≠ ""
  ∧ (JS.truthy (StreamParser.session_id jsonData) = true →
     Some (StreamParser.chunk_session jsonData)
     = StreamParser.session_id jsonData)
  ∧ (JS.truthy (StreamParser.session_id jsonData) = false →
     JS.truthy (StreamParser.sessionId jsonData) = true →
     Some (StreamParser.chunk_session jsonData)
     = StreamParser.sessionId jsonData)
  ∧ (JS.truthy (StreamParser.session_id jsonData) = false →
     JS.truthy (StreamParser.sessionId jsonData) = false →
     JS.truthy (StreamParser.metadata_session_id jsonData) = true →
     Some (StreamParser.chunk_session jsonData)
     = StreamParser.metadata_session_id jsonData)
  ∧ (JS.truthy (StreamParser.session_id jsonData) = false →
     JS.truthy (StreamParser.sessionId jsonData) = false →
     JS.truthy (StreamParser.metadata_session_id jsonData) = false →
     StreamParser.chunk_session jsonData = "unknown").
Proof.
  unfold StreamParser.chunk_session.
  assert (∀ o, JS.truthy o = true → default "" o ≠ "" ∧ Some (default "" o) = o)
    as Hd.
  { intros [x|]; [|done]. simpl. intros H. split; [|done].
    intros ->. discriminate. }
  destruct (JS.truthy (StreamParser.session_id jsonData)) eqn:E1.
  { destruct (Hd _ E1). repeat split; auto; discriminate. }
  destruct (JS.truthy (StreamParser.sessionId jsonData)) eqn:E2.
  { destruct (Hd _ E2). repeat split; auto; discriminate. }
  destruct (JS.truthy (StreamParser.metadata_session_id jsonData)) eqn:E3.
  { destruct (Hd _ E3). repeat split; auto; discriminate. }
  repeat split; auto; discriminate.
Qed.


